(** * CUDA compute test harness: [tools/render-test/cuda/cuda-compute-util.cpp]

    A shallow embedding of the device selection, resource allocation, kernel
    launch, read-back and release pipeline of [CUDAComputeUtil], together with
    the properties the specification states about it.

    The CUDA driver and runtime are external: every call into them is an
    event of a trace, and the answer to a call is given by a driver oracle
    that sees the whole history of the run.  Pointers and handles are
    integers, the null pointer is [0]. *)

From Stdlib Require Import String ZArith List Bool Lia.
Import ListNotations.
Open Scope Z_scope.

(** ** Results *)

(** Modelled from the spec: [slang.h] is not among the sources.  The spec
    fixes one generic failure status; the numeric values are those of the
    [SlangResult] convention (negative means failure). *)
Definition SlangResult := Z.
Definition SLANG_OK : SlangResult := 0.
Definition SLANG_FAIL : SlangResult := -2147467259.
Definition SLANG_FAILED (r : SlangResult) : bool := r <? 0.
Definition SLANG_SUCCEEDED (r : SlangResult) : bool := 0 <=? r.

(** ** Machine integers *)

(** [int(x)], and the value of an [int] expression: the low 32 bits, read as
    signed (two's complement). *)
Definition toInt (x : Z) : Z := (x + 2 ^ 31) mod 2 ^ 32 - 2 ^ 31.

(** An [int] passed where the callee takes an [unsigned int]. *)
Definition toUnsigned (x : Z) : Z := x mod 2 ^ 32.

(** How a modelled function ends: [Ok a] is a return of [SLANG_OK] with the
    out-parameters [a]; [Fail r] is a return of the failing status [r];
    [Abort] is the end of the process without a return: a [SLANG_ASSERT]
    that fired (control does not come back from the assertion handler), or a
    write through a null pointer. *)
Inductive Step (A : Type) : Type :=
| Ok (a : A)
| Fail (r : SlangResult)
| Abort.
Arguments Ok {A} a.
Arguments Fail {A} r.
Arguments Abort {A}.

(** ** The driver interface *)

Inductive DeviceAttr :=
| cudaDevAttrComputeMode
| cudaDevAttrComputeCapabilityMajor
| cudaDevAttrComputeCapabilityMinor
| cudaDevAttrMultiProcessorCount
| cudaDevAttrClockRate.

Inductive FuncAttr :=
| CU_FUNC_ATTRIBUTE_MAX_THREADS_PER_BLOCK
| CU_FUNC_ATTRIBUTE_SHARED_SIZE_BYTES.

Inductive MemcpyKind := cudaMemcpyHostToDevice | cudaMemcpyDeviceToHost.

(** One constructor per driver or runtime entry point the file calls, with
    the arguments the file passes. *)
Inductive Call :=
| cuInit (flags : Z)
| cudaGetDeviceCount
| cudaDeviceGetAttribute (attr : DeviceAttr) (device : Z)
| cudaSetDevice (device : Z)
| cuCtxDestroy (ctx : Z)
| cuCtxCreate (flags device : Z)
| cuModuleLoadData (image : Z)
| cuModuleUnload (module : Z)
| cuModuleGetFunction (module : Z) (name : string)
| cudaMalloc (size : Z)
| cudaFree (devPtr : Z)
| cudaMemcpy (dst src count : Z) (kind : MemcpyKind)
| cuFuncGetAttribute (attr : FuncAttr) (func : Z)
| cuLaunchKernel (f : Z) (grid block : Z * Z * Z) (sharedMemBytes stream : Z)
                 (kernelParams : list Z) (extra : Z)
| cudaStreamSynchronize (stream : Z)
| cudaStreamDestroy (stream : Z)
| cudaDeviceSynchronize.

(** The status a call returns and what it stores through its out-pointer. *)
Record Response := { status : Z; out : Z }.

Definition _isError (r : Response) : bool := negb (status r =? 0).

Inductive Event :=
| EvCall (c : Call) (r : Response)
| EvStore (addr val : Z)          (* a pointer written into a parameter block *)
| EvReleaseValueTargets.          (* bindSet.releaseValueTargets() was entered *)

Definition Driver := list Event -> Call -> Response.

(** ** Reflection and bind-set data *)

(** Modelled from the spec: the enumerations of [slang.h] are not among the
    sources; only the kinds and shapes the file dispatches on are named, all
    the others are [KindOther] and [SLANG_RESOURCE_OTHER]. *)
Inductive Kind :=
| KindArray | KindVector | KindConstantBuffer | KindParameterBlock
| KindResource | KindOther.

Inductive BaseShape :=
| SLANG_TEXTURE_1D | SLANG_TEXTURE_2D | SLANG_TEXTURE_3D | SLANG_TEXTURE_CUBE
| SLANG_TEXTURE_BUFFER | SLANG_STRUCTURED_BUFFER | SLANG_BYTE_ADDRESS_BUFFER
| SLANG_RESOURCE_OTHER.

(** [getResourceShape()]: the base shape is what
    [shape & SLANG_RESOURCE_BASE_SHAPE_MASK] leaves, the flags are the rest. *)
Record ResourceShape := { baseShape : BaseShape; shapeFlags : Z }.

Record TypeLayout := {
  getKind : Kind;
  getResourceShape : ResourceShape;
  getElementCount : Z
}.

(** What [m_target] can point to: a [CUDAResource] with its [m_cudaMemory],
    or some other [RefObject] (the [dynamic_cast] then gives null). *)
Inductive RefObject :=
| CUDAResource (m_cudaMemory : Z)
| OtherObject.

(** [BindSet::Value]. *)
Record Value := {
  m_type : option TypeLayout;
  m_sizeInBytes : Z;
  m_data : Z;
  m_userIndex : Z;
  m_target : option RefObject
}.

(** The state a run threads: the function-local static of [_initCuda], the
    [m_context] of the [ScopeCUDAContext] in scope, and the values of
    [outContext.m_bindSet].  A [Value*] is an index into [values], so every
    holder of the pointer sees the same [m_target]. *)
Record Machine := {
  cuInit_res : option Z;
  m_context : Z;
  values : list Value
}.

Definition M (A : Type) : Type :=
  list Event -> Machine -> Step A * Machine * list Event.

Definition ret {A} (a : A) : M A := fun _ m => (Ok a, m, []).

Definition bind {A B} (c : M A) (k : A -> M B) : M B :=
  fun h m =>
    let '(r, m1, e1) := c h m in
    match r with
    | Ok a => let '(r2, m2, e2) := k a (h ++ e1) m1 in (r2, m2, e1 ++ e2)
    | Fail x => (Fail x, m1, e1)
    | Abort => (Abort, m1, e1)
    end.

Notation "x <- c ;; k" := (bind c (fun x => k))
  (at level 61, c at next level, right associativity).
Notation "c ;;; k" := (bind c (fun _ => k))
  (at level 61, right associativity).

Definition fail {A} (r : SlangResult) : M A := fun _ m => (Fail r, m, []).
Definition assertFailure {A} : M A := fun _ m => (Abort, m, []).
Definition nullDereference {A} : M A := fun _ m => (Abort, m, []).
Definition emit (e : Event) : M unit := fun _ m => (Ok tt, m, [e]).
Definition getMachine : M Machine := fun _ m => (Ok m, m, []).
Definition putMachine (m : Machine) : M unit := fun _ _ => (Ok tt, m, []).
Definition liftStep {A} (s : Step A) : M A := fun _ m => (s, m, []).

(** [*addr = val], a pointer written into a parameter block on the host.
    Through a null [addr] the process ends there. *)
Definition store (addr val : Z) : M unit :=
  emit (EvStore addr val) ;;;
  if addr =? 0 then nullDereference else ret tt.

Definition withValues (m : Machine) (vs : list Value) : Machine :=
  {| cuInit_res := cuInit_res m; m_context := m_context m; values := vs |}.

Definition setContext (c : Z) : M unit :=
  m <- getMachine ;;
  putMachine {| cuInit_res := cuInit_res m; m_context := c; values := values m |}.
Definition setValues (vs : list Value) : M unit :=
  m <- getMachine ;;
  putMachine (withValues m vs).
Definition setInitRes (r : Z) : M unit :=
  m <- getMachine ;;
  putMachine {| cuInit_res := Some r; m_context := m_context m; values := values m |}.

(** [SLANG_RETURN_ON_FAIL(x)] for a status [x] that an external collaborator
    computed. *)
Definition SLANG_RETURN_ON_FAIL (r : SlangResult) : M unit :=
  if SLANG_FAILED r then fail r else ret tt.

(** ** Cores per multiprocessor *)

Record SMInfo := { sm : Z; coreCount : Z }.

Definition infos : list SMInfo :=
  [ {| sm := 0x30; coreCount := 192 |};
    {| sm := 0x32; coreCount := 192 |};
    {| sm := 0x35; coreCount := 192 |};
    {| sm := 0x37; coreCount := 192 |};
    {| sm := 0x50; coreCount := 128 |};
    {| sm := 0x52; coreCount := 128 |};
    {| sm := 0x53; coreCount := 128 |};
    {| sm := 0x60; coreCount := 64 |};
    {| sm := 0x61; coreCount := 128 |};
    {| sm := 0x62; coreCount := 128 |};
    {| sm := 0x70; coreCount := 64 |};
    {| sm := 0x72; coreCount := 64 |};
    {| sm := 0x75; coreCount := 64 |} ].

Definition lastInfo : SMInfo := last infos {| sm := 0; coreCount := 0 |}.

(** [const int sm = ((major << 4) + minor);]: computed in [int], so what
    does not fit wraps around. *)
Definition smOf (major minor : Z) : Z := toInt (Z.shiftl major 4 + minor).

(** The [for] loop over the table: the first entry whose [sm] matches. *)
Fixpoint lookupSM (tbl : list SMInfo) (s : Z) : option Z :=
  match tbl with
  | [] => None
  | i :: rest => if sm i =? s then Some (coreCount i) else lookupSM rest s
  end.

(** ** The bind set and the test layout *)

Definition setTarget (v : Value) (t : option RefObject) : Value :=
  {| m_type := m_type v; m_sizeInBytes := m_sizeInBytes v; m_data := m_data v;
     m_userIndex := m_userIndex v; m_target := t |}.

(** Assignment through a [Value*]. *)
Fixpoint updateAt {A} (i : nat) (f : A -> A) (l : list A) : list A :=
  match l, i with
  | [], _ => []
  | x :: r, O => f x :: r
  | x :: r, S j => x :: updateAt j f r
  end.

(** [CUDAResource::getCUDAData(value)]: null for a null value, for a value
    without target and for a target that is not a [CUDAResource]. *)
Definition getCUDAData (vs : list Value) (value : option nat) : Z :=
  match value with
  | Some i =>
      match nth_error vs i with
      | Some v => match m_target v with
                  | Some (CUDAResource m_cudaMemory) => m_cudaMemory
                  | _ => 0
                  end
      | None => 0
      end
  | None => 0
  end.

(** [BindLocation]: its type layout and the address [getUniform<void*>()]
    gives (null when the location has no uniform slot). *)
Record BindLocation := {
  getTypeLayout : TypeLayout;
  getUniform : Z
}.

(** [ShaderInputLayoutEntry]: only the output flag is read here. *)
Record Entry := { isOutput : bool }.

(** Modelled from the spec: the reflection of an entry point gives its name
    and its three thread-group dimensions, integers.  The file reads the
    dimensions into [SlangUInt numThreadsPerAxis[3]], unsigned integers of
    pointer width, and narrows each with [int(...)] for the launch. *)
Record EntryPointReflection := {
  getName : string;
  getComputeThreadGroupSize : Z * Z * Z
}.

(** The [OutputAndLayout] argument of [execute], and what the collaborators
    that are not part of this file make of it: the reflection of the request,
    the values and bindings that [bindRoot.init], [addDefaultValues] and
    [ShaderInputLayout::addBindSetValues] put into the bind set, and the
    buffer [ShaderInputLayout::getValueBuffers] finds for each entry (so
    [entries] pairs [layout.entries[i]] with [m_buffers[i]]). *)
Record Input := {
  findKernelDescIndex : Z;
  codeBegin : Z;
  getEntryPointCount : Z;
  getEntryPointByIndex0 : EntryPointReflection;
  addBindSetValues : SlangResult;
  bindSetValues : list Value;
  getBindings : list (BindLocation * option nat);
  getRootValue : option nat;
  getEntryPointValue : option nat;
  entries : list (Entry * option nat)
}.

Fixpoint forEach {A} (l : list A) (body : A -> M unit) : M unit :=
  match l with
  | [] => ret tt
  | x :: rest => body x ;;; forEach rest body
  end.

(** Run [body], then [cleanup] on every return path (an object leaving its
    scope); a process that ended in [Abort] does not come back. *)
Definition finally {A} (body : M A) (cleanup : M unit) : M A :=
  fun h m =>
    let '(r, m1, e1) := body h m in
    match r with
    | Abort => (Abort, m1, e1)
    | _ => let '(_, m2, e2) := cleanup (h ++ e1) m1 in (r, m2, e1 ++ e2)
    end.

(** The [SlangResult] a call returned, as a value. *)
Definition resultOf (c : M unit) : M SlangResult :=
  fun h m =>
    let '(r, m1, e1) := c h m in
    (match r with
     | Ok _ => Ok SLANG_OK
     | Fail x => Ok x
     | Abort => Abort
     end, m1, e1).

Section Program.

(** [SLANG_ASSERT] is a macro of [slang-common.h], which is not among the
    sources: whether assertions are compiled in is a parameter. *)
Variable assertsEnabled : bool.
Variable driver : Driver.

Definition SLANG_ASSERT {A} (cond : bool) (k : Step A) : Step A :=
  if assertsEnabled && negb cond then Abort else k.

Definition SLANG_ASSERT_M (cond : bool) : M unit :=
  if assertsEnabled && negb cond then assertFailure else ret tt.

Definition _calcSMCountPerMultiProcessor (major minor : Z) : Step Z :=
  let s := smOf major minor in
  match lookupSM infos s with
  | Some c => Ok c
  | None =>
      (* It must be newer presumably *)
      SLANG_ASSERT (coreCount lastInfo <? s)
        (* Default to the last entry *)
        (Ok (coreCount lastInfo))
  end.

(** A driver call: ask the oracle, log the call with its answer. *)
Definition call (c : Call) : M Response :=
  fun h m => let r := driver h c in (Ok r, m, [EvCall c r]).

(** [SLANG_CUDA_RETURN_ON_FAIL(x)] once [x] has been evaluated: on an error
    status the assertion ["Failed CUDA call"], then [return SLANG_FAIL]. *)
Definition cudaReturnOnFail (isError : bool) : M unit :=
  if isError then SLANG_ASSERT_M false ;;; fail SLANG_FAIL else ret tt.

(** [SLANG_CUDA_RETURN_ON_FAIL(x)] for a call [x]; the result is what the
    call stored through its out-pointer. *)
Definition SLANG_CUDA_RETURN_ON_FAIL (c : Call) : M Z :=
  r <- call c ;;
  cudaReturnOnFail (_isError r) ;;;
  ret (out r).

(** [SLANG_CUDA_ASSERT_ON_FAIL(x)]: the assertion only. *)
Definition SLANG_CUDA_ASSERT_ON_FAIL (c : Call) : M unit :=
  r <- call c ;;
  if _isError r then SLANG_ASSERT_M false else ret tt.

(** ** Device selection *)

Definition cudaComputeModeProhibited : Z := 2.

Definition wrap64 (x : Z) : Z := x mod 2 ^ 64.

(** [uint64_t(multiProcessorCount) * smPerMultiproc * clockRate]: the two
    [int] operands are converted to [uint64_t], each product wraps. *)
Definition compute_perf (multiProcessorCount smPerMultiproc clockRate : Z) : Z :=
  wrap64 (wrap64 (wrap64 multiProcessorCount * wrap64 smPerMultiproc)
          * wrap64 clockRate).

(** The body of the loop over the devices, [fuel] iterations from
    [currentDevice] on; the result is the final [maxPerfDevice].  (The counter
    [devicesProhibited] is written and never read, it is left out.) *)
Fixpoint deviceLoop (fuel : nat) (currentDevice maxPerfDevice maxComputePerf : Z)
  : M Z :=
  match fuel with
  | O => ret maxPerfDevice
  | S fuel' =>
      computeMode <- SLANG_CUDA_RETURN_ON_FAIL
                       (cudaDeviceGetAttribute cudaDevAttrComputeMode currentDevice) ;;
      major <- SLANG_CUDA_RETURN_ON_FAIL
                 (cudaDeviceGetAttribute cudaDevAttrComputeCapabilityMajor currentDevice) ;;
      minor <- SLANG_CUDA_RETURN_ON_FAIL
                 (cudaDeviceGetAttribute cudaDevAttrComputeCapabilityMinor currentDevice) ;;
      if negb (computeMode =? cudaComputeModeProhibited) then
        smPerMultiproc <-
          (if (major =? 9999) && (minor =? 9999) then ret 1
           else liftStep (_calcSMCountPerMultiProcessor major minor)) ;;
        multiProcessorCount <- SLANG_CUDA_RETURN_ON_FAIL
                (cudaDeviceGetAttribute cudaDevAttrMultiProcessorCount currentDevice) ;;
        clockRate <- SLANG_CUDA_RETURN_ON_FAIL
                (cudaDeviceGetAttribute cudaDevAttrClockRate currentDevice) ;;
        let perf := compute_perf multiProcessorCount smPerMultiproc clockRate in
        if maxComputePerf <? perf then
          deviceLoop fuel' (currentDevice + 1) currentDevice perf
        else
          deviceLoop fuel' (currentDevice + 1) maxPerfDevice maxComputePerf
      else
        deviceLoop fuel' (currentDevice + 1) maxPerfDevice maxComputePerf
  end.

Definition _findMaxFlopsDeviceId : M Z :=
  deviceCount <- SLANG_CUDA_RETURN_ON_FAIL cudaGetDeviceCount ;;
  maxPerfDevice <- deviceLoop (Z.to_nat deviceCount) 0 (-1) 0 ;;
  if maxPerfDevice <? 0 then fail SLANG_FAIL
  else ret maxPerfDevice.

(** ** The context *)

Definition _initCuda : M unit :=
  m <- getMachine ;;
  res <- match cuInit_res m with
         | Some r => ret r
         | None => r <- call (cuInit 0) ;; setInitRes (status r) ;;; ret (status r)
         end ;;
  cudaReturnOnFail (negb (res =? 0)).

(** The tail both [init] overloads share: destroy a live context, create the
    new one. *)
Definition recreateContext (flags device : Z) : M unit :=
  m <- getMachine ;;
  (if negb (m_context m =? 0)
   then _ <- call (cuCtxDestroy (m_context m)) ;; setContext 0
   else ret tt) ;;;
  r <- call (cuCtxCreate flags device) ;;
  setContext (out r) ;;;
  if _isError r then fail SLANG_FAIL else ret tt.

(** [ScopeCUDAContext::init(flags, device)]. *)
Definition ScopeCUDAContext_init_device (flags device : Z) : M unit :=
  _initCuda ;;;
  recreateContext flags device.

(** [ScopeCUDAContext::init(flags)]. *)
Definition ScopeCUDAContext_init (flags : Z) : M unit :=
  _initCuda ;;;
  deviceId <- _findMaxFlopsDeviceId ;;
  _ <- SLANG_CUDA_RETURN_ON_FAIL (cudaSetDevice deviceId) ;;
  recreateContext flags deviceId.

(** [~ScopeCUDAContext()]. *)
Definition ScopeCUDAContext_dtor : M unit :=
  m <- getMachine ;;
  if negb (m_context m =? 0)
  then _ <- call (cuCtxDestroy (m_context m)) ;; ret tt
  else ret tt.

(** A [ScopeCUDAContext] local to [body]. *)
Definition withScopeCUDAContext {A} (body : M A) : M A :=
  setContext 0 ;;; finally body ScopeCUDAContext_dtor.

Definition canCreateDevice : M bool :=
  withScopeCUDAContext
    (res <- resultOf (ScopeCUDAContext_init 0) ;;
     ret (SLANG_SUCCEEDED res)).

(** ** Resources *)

Definition setTargetAt (i : nat) (t : option RefObject) : M unit :=
  m <- getMachine ;;
  setValues (updateAt i (fun v => setTarget v t) (values m)).

(** [~CUDAResource()]. *)
Definition CUDAResource_dtor (m_cudaMemory : Z) : M unit :=
  if negb (m_cudaMemory =? 0)
  then SLANG_CUDA_ASSERT_ON_FAIL (cudaFree m_cudaMemory)
  else ret tt.

(** [cudaMalloc] of the value's size, and the new [CUDAResource] as its
    target. *)
Definition allocateTarget (i : nat) (value : Value) : M unit :=
  cudaMem <- SLANG_CUDA_RETURN_ON_FAIL (cudaMalloc (m_sizeInBytes value)) ;;
  setTargetAt i (Some (CUDAResource cudaMem)).

(** The body of the loop that creates the resources, for the value at index
    [i]. *)
Definition createResource (i : nat) : M unit :=
  m <- getMachine ;;
  match nth_error (values m) i with
  | None => ret tt
  | Some value =>
      let typeLayout := m_type value in
      (* if typeLayout is not set we'll assume a 'constant buffer' will do *)
      let kind := match typeLayout with
                  | Some t => getKind t
                  | None => KindConstantBuffer
                  end in
      match kind with
      | KindConstantBuffer | KindParameterBlock => allocateTarget i value
      | KindResource =>
          match typeLayout with
          | Some t =>
              match baseShape (getResourceShape t) with
              | SLANG_TEXTURE_2D =>
                  (* the element count of the result type is computed and
                     not used; no texture is created *)
                  SLANG_ASSERT_M (0 <=? m_userIndex value)
              | SLANG_TEXTURE_1D | SLANG_TEXTURE_3D | SLANG_TEXTURE_CUBE
              | SLANG_TEXTURE_BUFFER => ret tt
              | SLANG_BYTE_ADDRESS_BUFFER | SLANG_STRUCTURED_BUFFER =>
                  allocateTarget i value
              | SLANG_RESOURCE_OTHER => ret tt
              end
          | None => ret tt      (* the kind is Resource only with a layout *)
          end
      | _ => ret tt
      end
  end.

Definition createResources : M unit :=
  m <- getMachine ;;
  forEach (seq 0 (length (values m))) createResource.

(** The body of the loop over the bindings. *)
Definition setBinding (b : BindLocation * option nat) : M unit :=
  let '(location, value) := b in
  m <- getMachine ;;
  let typeLayout := getTypeLayout location in
  match getKind typeLayout with
  | KindArray =>
      let elementCount := toInt (getElementCount typeLayout) in
      if elementCount =? 0 then
        let array := getUniform location in
        match value with
        | Some _ =>
            if negb (array =? 0)
            then store array (getCUDAData (values m) value)
            else ret tt
        | None => ret tt
        end
      else ret tt
  | KindConstantBuffer | KindParameterBlock =>
      (* These map down to just pointers; the location is not checked *)
      store (getUniform location) (getCUDAData (values m) value)
  | KindResource =>
      match baseShape (getResourceShape typeLayout) with
      | SLANG_BYTE_ADDRESS_BUFFER | SLANG_STRUCTURED_BUFFER =>
          store (getUniform location) (getCUDAData (values m) value)
      | _ => ret tt
      end
  | _ => ret tt
  end.

(** The body of the upload loop, for the value at index [i]. *)
Definition copyToDevice (i : nat) : M unit :=
  m <- getMachine ;;
  match nth_error (values m) i with
  | None => ret tt
  | Some value =>
      let cudaMem := getCUDAData (values m) (Some i) in
      if negb (m_data value =? 0) && negb (cudaMem =? 0) then
        _ <- SLANG_CUDA_RETURN_ON_FAIL
               (cudaMemcpy cudaMem (m_data value) (m_sizeInBytes value)
                           cudaMemcpyHostToDevice) ;;
        ret tt
      else ret tt
  end.

Definition copyAllToDevice : M unit :=
  m <- getMachine ;;
  forEach (seq 0 (length (values m))) copyToDevice.

(** The block that executes the kernel. *)
Definition launchKernel (inp : Input) (kernel stream : Z) : M unit :=
  _ <- SLANG_CUDA_RETURN_ON_FAIL
         (cuFuncGetAttribute CU_FUNC_ATTRIBUTE_MAX_THREADS_PER_BLOCK kernel) ;;
  _ <- SLANG_CUDA_RETURN_ON_FAIL
         (cuFuncGetAttribute CU_FUNC_ATTRIBUTE_SHARED_SIZE_BYTES kernel) ;;
  m <- getMachine ;;
  let uniformCUDAData := getCUDAData (values m) (getRootValue inp) in
  let entryPointCUDAData := getCUDAData (values m) (getEntryPointValue inp) in
  let args := [entryPointCUDAData; uniformCUDAData] in
  let '(x, y, z) := getComputeThreadGroupSize (getEntryPointByIndex0 inp) in
  (* int(numThreadsPerAxis[i]), passed as unsigned int *)
  let block := (toUnsigned (toInt x), toUnsigned (toInt y), toUnsigned (toInt z)) in
  cudaLaunchResult <- call (cuLaunchKernel kernel (1, 1, 1) block 0 stream args 0) ;;
  cudaReturnOnFail (_isError cudaLaunchResult) ;;;
  if negb (stream =? 0)
  then _ <- SLANG_CUDA_RETURN_ON_FAIL (cudaStreamSynchronize stream) ;; ret tt
  else _ <- SLANG_CUDA_RETURN_ON_FAIL cudaDeviceSynchronize ;; ret tt.

(** The body of the read-back loop, for [entries[i]] and [m_buffers[i]]. *)
Definition copyBack (e : Entry * option nat) : M unit :=
  let '(entry, value) := e in
  m <- getMachine ;;
  if isOutput entry then
    let cudaMem := getCUDAData (values m) value in
    match value with
    | Some i =>
        match nth_error (values m) i with
        | Some v =>
            if negb (m_data v =? 0) && negb (cudaMem =? 0) then
              _ <- SLANG_CUDA_RETURN_ON_FAIL
                     (cudaMemcpy (m_data v) cudaMem (m_sizeInBytes v)
                                 cudaMemcpyDeviceToHost) ;;
              ret tt
            else ret tt
        | None => ret tt
        end
    | None => ret tt
    end
  else ret tt.

(** Modelled from the spec: [BindSet::releaseValueTargets] is not among the
    sources.  It frees every device resource owned by every value: each
    target is dropped, which runs the destructor of the resource. *)
Definition releaseValueTarget (i : nat) : M unit :=
  m <- getMachine ;;
  match nth_error (values m) i with
  | Some v =>
      match m_target v with
      | Some obj =>
          setTargetAt i None ;;;
          match obj with
          | CUDAResource m_cudaMemory => CUDAResource_dtor m_cudaMemory
          | OtherObject => ret tt
          end
      | None => ret tt
      end
  | None => ret tt
  end.

Definition releaseValueTargets : M unit :=
  emit EvReleaseValueTargets ;;;
  m <- getMachine ;;
  forEach (seq 0 (length (values m))) releaseValueTarget.

(** ** The pipeline *)

(** The first part of [_compute]: the entry point and its kernel function,
    the values of the test in the bind set, and a resource for each value.
    The result is the kernel function. *)
Definition _compute_setup (module : Z) (inp : Input) : M Z :=
  SLANG_ASSERT_M (getEntryPointCount inp =? 1) ;;;
  let entryPoint := getEntryPointByIndex0 inp in
  let entryPointName := getName entryPoint in
  (* Get the entry point *)
  kernel <- SLANG_CUDA_RETURN_ON_FAIL (cuModuleGetFunction module entryPointName) ;;
  (* the bind set as the binding of the test values leaves it: the values are
     new, none has a target yet *)
  setValues (map (fun v => setTarget v None) (bindSetValues inp)) ;;;
  SLANG_RETURN_ON_FAIL (addBindSetValues inp) ;;;
  (* First create all of the resources for the values *)
  createResources ;;;
  ret kernel.

(** The second part of [_compute]: bindings, upload, launch, read-back, and
    at the very end the release of the targets. *)
Definition _compute_run (inp : Input) (kernel stream : Z) : M unit :=
  (* Now we need to go through all of the bindings and set the appropriate data *)
  forEach (getBindings inp) setBinding ;;;
  (* Okay now the memory is all set up, we can copy everything over *)
  copyAllToDevice ;;;
  (* Now we can execute the kernel *)
  launchKernel inp kernel stream ;;;
  (* Finally we need to copy the data back *)
  forEach (entries inp) copyBack ;;;
  (if negb (stream =? 0)
   then _ <- SLANG_CUDA_RETURN_ON_FAIL (cudaStreamDestroy stream) ;; ret tt
   else ret tt) ;;;
  (* Release all othe CUDA resource/allocations *)
  releaseValueTargets.

Definition _compute (module : Z) (inp : Input) : M unit :=
  kernel <- _compute_setup module inp ;;
  (* A stream of 0 means no stream *)
  let stream := 0 in
  _compute_run inp kernel stream.

Definition execute (inp : Input) : M unit :=
  withScopeCUDAContext
    (ScopeCUDAContext_init 0 ;;;
     (if findKernelDescIndex inp <? 0 then fail SLANG_FAIL else ret tt) ;;;
     module <- SLANG_CUDA_RETURN_ON_FAIL (cuModuleLoadData (codeBegin inp)) ;;
     _compute module inp ;;;
     _ <- SLANG_CUDA_RETURN_ON_FAIL (cuModuleUnload module) ;;
     ret tt).

End Program.

(** ** Devices as the driver reports them *)

Record Device := {
  computeMode : Z;
  major : Z;
  minor : Z;
  multiProcessorCount : Z;
  clockRate : Z
}.

Definition attrOf (d : Device) (a : DeviceAttr) : Z :=
  match a with
  | cudaDevAttrComputeMode => computeMode d
  | cudaDevAttrComputeCapabilityMajor => major d
  | cudaDevAttrComputeCapabilityMinor => minor d
  | cudaDevAttrMultiProcessorCount => multiProcessorCount d
  | cudaDevAttrClockRate => clockRate d
  end.

Definition success (v : Z) : Response := {| status := 0; out := v |}.

(** The driver enumerates exactly the devices [devs], whatever happened
    before. *)
Definition presents (drv : Driver) (devs : list Device) : Prop :=
  (forall h, drv h cudaGetDeviceCount = success (Z.of_nat (length devs))) /\
  (forall h a i d, nth_error devs i = Some d ->
     drv h (cudaDeviceGetAttribute a (Z.of_nat i)) = success (attrOf d a)).

Definition eligible (d : Device) : bool :=
  negb (computeMode d =? cudaComputeModeProhibited).

(** The cores per multiprocessor the loop uses for a device whose capability
    passes the assertion. *)
Definition coresPerSM (d : Device) : Z :=
  if (major d =? 9999) && (minor d =? 9999) then 1
  else match lookupSM infos (smOf (major d) (minor d)) with
       | Some c => c
       | None => coreCount lastInfo
       end.

Definition perfOf (d : Device) : Z :=
  compute_perf (multiProcessorCount d) (coresPerSM d) (clockRate d).

(** The capability is the 9999.9999 marker, or in the table, or newer than
    the table's last entry. *)
Definition capabilityExpected (d : Device) : Prop :=
  (major d = 9999 /\ minor d = 9999) \/
  lookupSM infos (smOf (major d) (minor d)) <> None \/
  sm lastInfo < smOf (major d) (minor d).

(** The score as the specification states it: the product of the
    multiprocessor count, the cores per multiprocessor and the clock rate,
    taken in unsigned 64-bit arithmetic.  It is the product itself whenever
    that lies in [0, 2^64). *)
Definition score (d : Device) : Z :=
  (multiProcessorCount d * coresPerSM d * clockRate d) mod 2 ^ 64.

(** Device [i] is eligible and has the greatest score of the eligible devices,
    and every eligible device before it has a smaller one. *)
Definition firstArgMax (devs : list Device) (i : Z) : Prop :=
  exists d, 0 <= i /\ nth_error devs (Z.to_nat i) = Some d /\ eligible d = true /\
    forall j dj, nth_error devs j = Some dj -> eligible dj = true ->
      score dj <= score d /\ (Z.of_nat j < i -> score dj < score d).

(** A driver for examples: it enumerates [devs], refuses a query for a device
    out of range, and lets every other call succeed with a fresh handle. *)
Definition deviceDriver (devs : list Device) : Driver :=
  fun h c =>
    match c with
    | cudaGetDeviceCount => success (Z.of_nat (length devs))
    | cudaDeviceGetAttribute a i =>
        if i <? 0 then {| status := 1; out := 0 |}
        else match nth_error devs (Z.to_nat i) with
             | Some d => success (attrOf d a)
             | None => {| status := 1; out := 0 |}
             end
    | _ => success (4096 + Z.of_nat (length h))
    end.

(** The same driver, except that the calls selected by [p] fail. *)
Definition failingOn (p : list Event -> Call -> bool) (drv : Driver) : Driver :=
  fun h c => if p h c then {| status := 1; out := 0 |} else drv h c.

Definition emptyMachine : Machine :=
  {| cuInit_res := None; m_context := 0; values := [] |}.

Definition gtx1080 : Device :=
  {| computeMode := 0; major := 6; minor := 1;
     multiProcessorCount := 20; clockRate := 1733000 |}.
Definition fermi : Device :=
  {| computeMode := 0; major := 2; minor := 0;
     multiProcessorCount := 16; clockRate := 1544000 |}.
Definition prohibited (d : Device) : Device :=
  {| computeMode := cudaComputeModeProhibited; major := major d; minor := minor d;
     multiProcessorCount := multiProcessorCount d; clockRate := clockRate d |}.
Definition stopped (d : Device) : Device :=
  {| computeMode := computeMode d; major := major d; minor := minor d;
     multiProcessorCount := multiProcessorCount d; clockRate := 0 |}.

(** ** A test: one input buffer, one output buffer *)

Definition layoutOf (k : Kind) (s : BaseShape) : TypeLayout :=
  {| getKind := k;
     getResourceShape := {| baseShape := s; shapeFlags := 0 |};
     getElementCount := 0 |}.

Definition structuredBuffer : TypeLayout :=
  layoutOf KindResource SLANG_STRUCTURED_BUFFER.

Definition valueOf (t : option TypeLayout) (size data userIndex : Z) : Value :=
  {| m_type := t; m_sizeInBytes := size; m_data := data;
     m_userIndex := userIndex; m_target := None |}.

(** The global parameter block (no type layout, 16 bytes) followed by the two
    32-byte buffers of the test. *)
Definition identityValues : list Value :=
  [ valueOf None 16 7000 (-1);
    valueOf (Some structuredBuffer) 32 7100 0;
    valueOf (Some structuredBuffer) 32 7200 1 ].

Definition identityInput (entryPointCount : Z) : Input :=
  {| findKernelDescIndex := 0;
     codeBegin := 9000;
     getEntryPointCount := entryPointCount;
     getEntryPointByIndex0 :=
       {| getName := "main"; getComputeThreadGroupSize := (8, 1, 1) |};
     addBindSetValues := SLANG_OK;
     bindSetValues := identityValues;
     getBindings :=
       [ ({| getTypeLayout := structuredBuffer; getUniform := 7000 |}, Some 1%nat);
         ({| getTypeLayout := structuredBuffer; getUniform := 7008 |}, Some 2%nat) ];
     getRootValue := Some 0%nat;
     getEntryPointValue := None;
     entries := [ ({| isOutput := false |}, Some 1%nat);
                  ({| isOutput := true |}, Some 2%nat) ] |}.

(** * Auxiliary definitions for the statements *)

(** The loop, as a function of the devices still to visit. *)
Fixpoint scan (ds : list Device) (cur maxPerfDevice maxComputePerf : Z) : Z * Z :=
  match ds with
  | [] => (maxPerfDevice, maxComputePerf)
  | d :: rest =>
      if eligible d && (maxComputePerf <? perfOf d)
      then scan rest (cur + 1) cur (perfOf d)
      else scan rest (cur + 1) maxPerfDevice maxComputePerf
  end.

(** The capability makes the assertion of [_calcSMCountPerMultiProcessor]
    fire. *)
Definition unexpected (d : Device) : bool :=
  negb ((major d =? 9999) && (minor d =? 9999)) &&
  match lookupSM infos (smOf (major d) (minor d)) with
  | Some _ => false
  | None => negb (coreCount lastInfo <? smOf (major d) (minor d))
  end.

Definition fires (dbg : bool) (ds : list Device) : bool :=
  dbg && existsb (fun d => eligible d && unexpected d) ds.

(** What the loop has found after the devices [ds]: nothing, all eligible
    scores being zero; or the first device with the greatest score. *)
Definition bestSoFar (ds : list Device) (md mp : Z) : Prop :=
  (md = -1 /\ mp = 0 /\
   forall d, In d ds -> eligible d = true -> perfOf d = 0)
  \/
  (exists d, 0 <= md /\ nth_error ds (Z.to_nat md) = Some d /\
     eligible d = true /\ mp = perfOf d /\ 0 < mp /\
     forall j dj, nth_error ds j = Some dj -> eligible dj = true ->
       perfOf dj <= perfOf d /\ (Z.of_nat j < md -> perfOf dj < perfOf d)).

(** The device the loop settles on, or [-1]. *)
Definition selected (devs : list Device) : Z := fst (scan devs 0 (-1) 0).

(** The backend is initialised, or will be when asked. *)
Definition cuInitWorks (drv : Driver) (m : Machine) : Prop :=
  match cuInit_res m with
  | Some s => s = 0
  | None => forall h, status (drv h (cuInit 0)) = 0
  end.

Definition cuInitFails (drv : Driver) (m : Machine) : Prop :=
  match cuInit_res m with
  | Some s => s <> 0
  | None => forall h, status (drv h (cuInit 0)) <> 0
  end.

(** The ways a machine has no eligible device.  The driver says so with an
    error status ([cuInit] fails, or the count of the devices cannot be had),
    or it enumerates devices none of which is eligible, possibly none at all.
    The index tells whether an error status is involved. *)
Inductive NoDevice (drv : Driver) (m : Machine) : bool -> Prop :=
| noBackend :
    cuInitFails drv m -> NoDevice drv m true
| noCount :
    cuInitWorks drv m ->
    (forall h, _isError (drv h cudaGetDeviceCount) = true) ->
    NoDevice drv m true
| noneEligible (devs : list Device) :
    cuInitWorks drv m -> presents drv devs ->
    (forall d, In d devs -> eligible d = false) ->
    NoDevice drv m false.

(** A machine without CUDA device: every call is answered with
    [CUDA_ERROR_NO_DEVICE]. *)
Definition noDeviceDriver : Driver :=
  fun _ _ => {| status := 100; out := 0 |}.

(** The stage of the pipeline an event belongs to. *)
Inductive Stage :=
| StSetup | StAlloc | StBind | StUpload | StLaunch | StDownload | StRelease.

Definition stageOf (e : Event) : Stage :=
  match e with
  | EvStore _ _ => StBind
  | EvReleaseValueTargets => StRelease
  | EvCall c _ =>
      match c with
      | cudaMalloc _ => StAlloc
      | cudaFree _ => StRelease
      | cudaMemcpy _ _ _ cudaMemcpyHostToDevice => StUpload
      | cudaMemcpy _ _ _ cudaMemcpyDeviceToHost => StDownload
      | cuFuncGetAttribute _ _ | cuLaunchKernel _ _ _ _ _ _ _
      | cudaStreamSynchronize _ | cudaDeviceSynchronize => StLaunch
      | _ => StSetup
      end
  end.

Definition isCtxDestroy (e : Event) : bool :=
  match e with
  | EvCall (cuCtxDestroy _) _ => true
  | _ => false
  end.

(** A driver call that returned an error status. *)
Definition failedCall (e : Event) : bool :=
  match e with
  | EvCall _ r => _isError r
  | _ => false
  end.

(** A failed call other than the destruction of a context (whose status the
    code never looks at). *)
Definition bad (e : Event) : bool := failedCall e && negb (isCtxDestroy e).

Definition clean (evs : list Event) : Prop := Forall (fun e => bad e = false) evs.

Definition isOk {A} (r : Step A) : bool :=
  match r with Ok _ => true | _ => false end.

(** Every call of the run was checked: nothing follows a bad event, and a run
    that came through has none. *)
Definition checkedRun {A} (r : Step A) (evs : list Event) : Prop :=
  (isOk r = true -> clean evs) /\
  exists pre tl, evs = pre ++ tl /\ clean pre /\ (length tl <= 1)%nat.


Definition isFree (e : Event) : bool :=
  match e with EvCall (cudaFree _) _ => true | _ => false end.

Definition isMallocOk (e : Event) : bool :=
  match e with
  | EvCall (cudaMalloc _) r => negb (_isError r)
  | _ => false
  end.

(** The kinds and shapes for which the allocation pass calls [cudaMalloc]. *)
Definition allocates (v : Value) : bool :=
  match m_type v with
  | None => true
  | Some t =>
      match getKind t with
      | KindConstantBuffer | KindParameterBlock => true
      | KindResource =>
          match baseShape (getResourceShape t) with
          | SLANG_STRUCTURED_BUFFER | SLANG_BYTE_ADDRESS_BUFFER => true
          | _ => false
          end
      | _ => false
      end
  end.

Definition isLaunch (e : Event) : bool :=
  match e with
  | EvCall (cuLaunchKernel _ _ _ _ _ _ _) _ => true
  | _ => false
  end.

Definition isDownload (e : Event) : bool :=
  match e with
  | EvCall (cudaMemcpy _ _ _ cudaMemcpyDeviceToHost) _ => true
  | _ => false
  end.

(** The call that waits for the kernel. *)
Definition syncCall (stream : Z) : Call :=
  if negb (stream =? 0) then cudaStreamSynchronize stream else cudaDeviceSynchronize.

(** The copy an entry of the test layout calls for: it is an output, it has a
    buffer value, the value has host data and device memory. *)
Definition download (vs : list Value) (e : Entry * option nat) : option Call :=
  match e with
  | (entry, Some i) =>
      if isOutput entry then
        match nth_error vs i with
        | Some v =>
            match m_target v with
            | Some (CUDAResource p) =>
                if negb (m_data v =? 0) && negb (p =? 0)
                then Some (cudaMemcpy (m_data v) p (m_sizeInBytes v)
                                      cudaMemcpyDeviceToHost)
                else None
            | _ => None
            end
        | None => None
        end
      else None
  | (_, None) => None
  end.

Definition downloads (vs : list Value) (es : list (Entry * option nat)) : list Call :=
  flat_map (fun e => match download vs e with Some c => [c] | None => [] end) es.

(** The event is the call [c], and the call succeeded. *)
Definition succeeded (e : Event) (c : Call) : Prop :=
  exists resp, e = EvCall c resp /\ status resp = 0.

(** Every run of [c] emits events in [P] only and checks its calls. *)
Definition passOK {A} (P : Event -> Prop) (c : M A) : Prop :=
  forall h m r m' evs, c h m = (r, m', evs) -> Forall P evs /\ checkedRun r evs.


(** A test with two output entries: a texture, a value the allocation pass
    gives no device memory, and an entry no value of the bind set belongs
    to. *)
Definition texture2D : TypeLayout := layoutOf KindResource SLANG_TEXTURE_2D.

Definition textureInput : Input :=
  {| findKernelDescIndex := 0;
     codeBegin := 9000;
     getEntryPointCount := 1;
     getEntryPointByIndex0 :=
       {| getName := "main"; getComputeThreadGroupSize := (8, 1, 1) |};
     addBindSetValues := SLANG_OK;
     bindSetValues := [ valueOf None 16 7000 (-1);
                        valueOf (Some texture2D) 64 7100 0 ];
     getBindings := [];
     getRootValue := Some 0%nat;
     getEntryPointValue := None;
     entries := [ ({| isOutput := true |}, Some 1%nat);
                  ({| isOutput := true |}, None) ] |}.

(** The machine before the allocation pass of the identity test. *)
Definition identityMachine : Machine := withValues emptyMachine identityValues.

(** A driver whose copies between host and device fail. *)
Definition memcpyFails : list Event -> Call -> bool :=
  fun _ c => match c with cudaMemcpy _ _ _ _ => true | _ => false end.

Definition noRelease (evs : list Event) : Prop :=
  Forall (fun e => stageOf e <> StRelease) evs.

(** How a run ends with respect to the release of the targets.  Either it
    never got there: it did not come through, its calls were checked, nothing
    was released, and at most the destruction of the context follows.  Or it
    did: everything before is clean, the release is followed by the frees and
    then by set-up calls only (the module unload, the context); the run then
    came through, or the process ended there, or the module unload failed. *)
Definition stoppedBeforeRelease {A} (r : Step A) (evs : list Event) : Prop :=
  isOk r = false /\
  exists eb ed, evs = eb ++ ed /\ checkedRun r eb /\ noRelease eb /\
                Forall (fun e => isCtxDestroy e = true) ed.


(** The runs the examples below are about, evaluated once. *)
Definition identityRun : Step unit * Machine * list Event :=
  Eval vm_compute in
    _compute true (deviceDriver []) 77 (identityInput 1) [] emptyMachine.

Definition textureRun : Step unit * Machine * list Event :=
  Eval vm_compute in
    _compute false (deviceDriver []) 77 textureInput [] emptyMachine.

Definition failingRun : Step unit * Machine * list Event :=
  Eval vm_compute in
    execute false (failingOn memcpyFails (deviceDriver [gtx1080]))
      (identityInput 1) [] emptyMachine.

Definition twoEntryPointsRun : Step unit * Machine * list Event :=
  Eval vm_compute in
    execute false (deviceDriver [gtx1080]) (identityInput 2) [] emptyMachine.


(** ** Further definitions for the statements about the rest of the file *)

(** The event is one of the two queries device selection makes. *)
Definition isDeviceQuery (e : Event) : bool :=
  match e with
  | EvCall cudaGetDeviceCount _ => true
  | EvCall (cudaDeviceGetAttribute _ _) _ => true
  | _ => false
  end.

(** The calls [ScopeCUDAContext::init] and the destructor can make. *)
Definition isInitCall (e : Event) : bool :=
  match e with
  | EvCall (cuInit _) _ | EvCall cudaGetDeviceCount _
  | EvCall (cudaDeviceGetAttribute _ _) _ | EvCall (cudaSetDevice _) _
  | EvCall (cuCtxDestroy _) _ | EvCall (cuCtxCreate _ _) _ => true
  | _ => false
  end.

(** The events [_compute] can leave. *)
Definition isComputeEvent (e : Event) : bool :=
  match e with
  | EvCall (cuModuleGetFunction _ _) _ | EvCall (cudaMalloc _) _
  | EvCall (cudaFree _) _ | EvCall (cudaMemcpy _ _ _ _) _
  | EvCall (cuFuncGetAttribute _ _) _
  | EvCall (cuLaunchKernel _ _ _ _ _ _ _) _
  | EvCall (cudaStreamSynchronize _) _ | EvCall (cudaStreamDestroy _) _
  | EvCall cudaDeviceSynchronize _ => true
  | EvStore _ _ | EvReleaseValueTargets => true
  | _ => false
  end.

Definition isCtxCall (e : Event) : bool :=
  match e with
  | EvCall (cuCtxDestroy _) _ | EvCall (cuCtxCreate _ _) _ => true
  | _ => false
  end.

Definition isModuleLoad (e : Event) : bool :=
  match e with EvCall (cuModuleLoadData _) _ => true | _ => false end.

Definition isModuleUnload (e : Event) : bool :=
  match e with EvCall (cuModuleUnload _) _ => true | _ => false end.

(** Every event of every run of [c] is in [P]. *)
Definition emits {A} (P : Event -> Prop) (c : M A) : Prop :=
  forall h m, Forall P (snd (c h m)).

(** No run of [c] changes [m_context]. *)
Definition keepsContext {A} (c : M A) : Prop :=
  forall h m, m_context (snd (fst (c h m))) = m_context m.

(** The identity test compiled to a module that holds no compute kernel. *)
Definition noKernelInput : Input :=
  {| findKernelDescIndex := -1;
     codeBegin := codeBegin (identityInput 1);
     getEntryPointCount := 1;
     getEntryPointByIndex0 := getEntryPointByIndex0 (identityInput 1);
     addBindSetValues := SLANG_OK;
     bindSetValues := identityValues;
     getBindings := getBindings (identityInput 1);
     getRootValue := getRootValue (identityInput 1);
     getEntryPointValue := getEntryPointValue (identityInput 1);
     entries := entries (identityInput 1) |}.

(** The event is a context creation that succeeded. *)
Definition isCtxCreated (e : Event) : bool :=
  match e with
  | EvCall (cuCtxCreate _ _) r => negb (_isError r)
  | _ => false
  end.

Definition noKernelRun : Step unit * Machine * list Event :=
  Eval vm_compute in
    execute false (deviceDriver [gtx1080]) noKernelInput [] emptyMachine.

(** Every failure status a run of [c] returns is in [P]. *)
Definition failsIn {A} (P : SlangResult -> Prop) (c : M A) : Prop :=
  forall h m x, fst (fst (c h m)) = Fail x -> P x.

(** The statuses [execute] can fail with. *)
Definition failureOf (inp : Input) (x : SlangResult) : Prop :=
  SLANG_FAILED x = true /\ (x = SLANG_FAIL \/ x = addBindSetValues inp).

(** The stages of the pipeline in the order of the source text. *)
Definition stageRank (s : Stage) : nat :=
  match s with
  | StSetup => 0 | StAlloc => 1 | StBind => 2 | StUpload => 3
  | StLaunch => 4 | StDownload => 5 | StRelease => 6
  end.

(** The events come stage by stage, none before stage [lo]. *)
Fixpoint ordered (lo : nat) (evs : list Event) : bool :=
  match evs with
  | [] => true
  | e :: rest =>
      (lo <=? stageRank (stageOf e))%nat && ordered (stageRank (stageOf e)) rest
  end.

(** The event is a result: a copy back to the host, or the release. *)
Definition isResult (e : Event) : bool :=
  match stageOf e with
  | StDownload | StRelease => true
  | _ => false
  end.

(** The layouts whose binding is a plain pointer: the binder stores one for
    them whatever the value. *)
Definition bindsPointer (t : TypeLayout) : bool :=
  match getKind t with
  | KindConstantBuffer | KindParameterBlock => true
  | KindResource =>
      match baseShape (getResourceShape t) with
      | SLANG_BYTE_ADDRESS_BUFFER | SLANG_STRUCTURED_BUFFER => true
      | _ => false
      end
  | _ => false
  end.

(** An array whose element count, as an [int], is zero. *)
Definition isUnsizedArray (t : TypeLayout) : bool :=
  match getKind t with
  | KindArray => toInt (getElementCount t) =? 0
  | _ => false
  end.

(** The copy to the device a value calls for: it has host data and device
    memory. *)
Definition upload (v : Value) : option Call :=
  match m_target v with
  | Some (CUDAResource p) =>
      if negb (m_data v =? 0) && negb (p =? 0)
      then Some (cudaMemcpy p (m_data v) (m_sizeInBytes v) cudaMemcpyHostToDevice)
      else None
  | _ => None
  end.

Definition uploads (vs : list Value) : list Call :=
  flat_map (fun v => match upload v with Some c => [c] | None => [] end) vs.

(** The event is the call [c]. *)
Definition isCallOf (e : Event) (c : Call) : Prop :=
  exists resp, e = EvCall c resp.

Definition isSelect (e : Event) : bool :=
  match e with EvCall (cudaSetDevice _) _ => true | _ => false end.

(** A run of [c] that returns a failure status has a cause: [S], or a
    driver call whose failure the code looks at. *)
Definition failsFor {A} (S : Prop) (c : M A) : Prop :=
  forall h m x m' evs, c h m = (Fail x, m', evs) ->
    S \/ exists e, In e evs /\ bad e = true.

(** ** What the specification expects of the allocation and of the release *)





(** The device pointer of a value as the specification has it: the memory of
    its device resource, null for an absent value and for a value without
    device resource. *)
Definition devicePointer (vs : list Value) (value : option nat) : Z :=
  match value with
  | None => 0
  | Some i =>
      match nth_error vs i with
      | None => 0
      | Some v =>
          match m_target v with
          | Some (CUDAResource p) => p
          | _ => 0
          end
      end
  end.




(** A failed call whose status the code checks: not the destruction of a
    context, and not a [cudaFree], whose failure is only asserted. *)
Definition checkedFailure (e : Event) : bool := bad e && negb (isFree e).

(** A checked failure in a run of [c] makes it return [SLANG_FAIL], or with
    assertions end in the assertion. *)
Definition failsOnError {A} (dbg : bool) (c : M A) : Prop :=
  forall h m r m' evs, c h m = (r, m', evs) ->
    (exists e, In e evs /\ checkedFailure e = true) ->
    r = Fail SLANG_FAIL \/ (dbg = true /\ r = Abort).



(** The identity test with a thread group of 2^32 + 8 threads along x. *)
Definition wideGroupInput : Input :=
  {| findKernelDescIndex := 0;
     codeBegin := codeBegin (identityInput 1);
     getEntryPointCount := 1;
     getEntryPointByIndex0 :=
       {| getName := "main"; getComputeThreadGroupSize := (2 ^ 32 + 8, 1, 1) |};
     addBindSetValues := SLANG_OK;
     bindSetValues := identityValues;
     getBindings := getBindings (identityInput 1);
     getRootValue := getRootValue (identityInput 1);
     getEntryPointValue := getEntryPointValue (identityInput 1);
     entries := entries (identityInput 1) |}.

Definition wideGroupRun : Step unit * Machine * list Event :=
  Eval vm_compute in
    _compute false (deviceDriver []) 77 wideGroupInput [] emptyMachine.




(** * Properties *)

Ltac splits := repeat match goal with |- _ /\ _ => split end.

(** ** Running a sequence *)

Lemma bind_Ok {A B} (c : M A) (k : A -> M B) h m a m1 e1 :
  c h m = (Ok a, m1, e1) ->
  bind c k h m =
    (let '(r2, m2, e2) := k a (h ++ e1) m1 in (r2, m2, e1 ++ e2)).
Proof. intros H. unfold bind. rewrite H. reflexivity. Qed.

Lemma bind_inv {A B} (c : M A) (k : A -> M B) h m r m' evs :
  bind c k h m = (r, m', evs) ->
  (exists a m1 e1 e2,
      c h m = (Ok a, m1, e1) /\ k a (h ++ e1) m1 = (r, m', e2) /\ evs = e1 ++ e2)
  \/ (exists x, c h m = (Fail x, m', evs) /\ r = Fail x)
  \/ (c h m = (Abort, m', evs) /\ r = Abort).
Proof.
  unfold bind. destruct (c h m) as [[r1 m1] e1]. destruct r1 as [a | x | ].
  - destruct (k a (h ++ e1) m1) as [[r2 m2] e2] eqn:K. intros E.
    inversion E; subst. left. exists a, m1, e1, e2. auto.
  - intros E. inversion E; subst. right. left. exists x. auto.
  - intros E. inversion E; subst. right. right. auto.
Qed.

(** A call that the driver answers with status 0 goes through
    [SLANG_CUDA_RETURN_ON_FAIL], with or without assertions. *)
Lemma cuda_call_success dbg drv c v h m :
  drv h c = success v ->
  SLANG_CUDA_RETURN_ON_FAIL dbg drv c h m = (Ok v, m, [EvCall c (success v)]).
Proof.
  intros H. unfold SLANG_CUDA_RETURN_ON_FAIL, bind, call. rewrite H. reflexivity.
Qed.

(** ** Cores per multiprocessor *)

Lemma lastInfo_eq : lastInfo = {| sm := 0x75; coreCount := 64 |}.
Proof. reflexivity. Qed.

(** The [int] arithmetic of the sm code wraps: the pair (2^28, 48) has the
    code 0x30, and (2^27, 0) a negative one. *)
Lemma smOf_wraps :
  _calcSMCountPerMultiProcessor false (2 ^ 28) 48 = Ok 192 /\
  _calcSMCountPerMultiProcessor true (2 ^ 27) 0 = Abort.
Proof. split; reflexivity. Qed.

(** ** Device selection *)

Lemma wrap64_range x : 0 <= wrap64 x < 2 ^ 64.
Proof. unfold wrap64. apply Z.mod_pos_bound. lia. Qed.

Lemma compute_perf_nonneg a b c : 0 <= compute_perf a b c.
Proof. unfold compute_perf. apply wrap64_range. Qed.

Lemma wrap64_small x : 0 <= x < 2 ^ 64 -> wrap64 x = x.
Proof. intros H. unfold wrap64. apply Z.mod_small. exact H. Qed.

Lemma compute_perf_mod a b c : compute_perf a b c = (a * b * c) mod 2 ^ 64.
Proof.
  unfold compute_perf, wrap64.
  rewrite Z.mul_mod_idemp_l by lia.
  rewrite Z.mul_mod_idemp_r by lia.
  rewrite <- (Z.mul_mod_idemp_l (a mod 2 ^ 64 * (b mod 2 ^ 64))) by lia.
  rewrite <- (Z.mul_mod a b) by lia.
  rewrite Z.mul_mod_idemp_l by lia.
  reflexivity.
Qed.

(** The 64-bit product is the product of the integers when that fits. *)
Lemma compute_perf_exact a b c :
  0 <= a * b * c < 2 ^ 64 -> compute_perf a b c = a * b * c.
Proof. intros H. rewrite compute_perf_mod. apply Z.mod_small. exact H. Qed.

(** A zero factor gives the score zero. *)
Lemma compute_perf_zero a b c : a * b * c = 0 -> compute_perf a b c = 0.
Proof. intros H. rewrite compute_perf_mod, H. reflexivity. Qed.

Lemma calc_coresPerSM dbg d :
  (major d =? 9999) && (minor d =? 9999) = false ->
  _calcSMCountPerMultiProcessor dbg (major d) (minor d) =
    if dbg && unexpected d then Abort else Ok (coresPerSM d).
Proof.
  intros H. unfold _calcSMCountPerMultiProcessor, coresPerSM, unexpected, SLANG_ASSERT.
  rewrite H. simpl negb at 1. rewrite Bool.andb_true_l.
  destruct (lookupSM infos (smOf (major d) (minor d))).
  - rewrite Bool.andb_false_r. reflexivity.
  - reflexivity.
Qed.

Lemma deviceLoop_scan dbg drv devs :
  presents drv devs ->
  forall rest pre md mp h m,
    devs = pre ++ rest ->
    exists evs,
      deviceLoop dbg drv (length rest) (Z.of_nat (length pre)) md mp h m =
        (if fires dbg rest then Abort
         else Ok (fst (scan rest (Z.of_nat (length pre)) md mp)), m, evs).
Proof.
  intros [_ Hattr]. induction rest as [| d rest IH]; intros pre md mp h m E.
  - exists []. unfold fires. simpl. rewrite Bool.andb_false_r. reflexivity.
  - assert (Hd : nth_error devs (length pre) = Some d).
    { subst devs. rewrite nth_error_app2 by lia. rewrite Nat.sub_diag. reflexivity. }
    assert (Enext : devs = (pre ++ [d]) ++ rest).
    { subst devs. rewrite <- app_assoc. reflexivity. }
    assert (Lnext : Z.of_nat (length pre) + 1 = Z.of_nat (length (pre ++ [d]))).
    { rewrite length_app. simpl. lia. }
    cbn [length deviceLoop].
    rewrite (bind_Ok _ _ _ _ _ _ _
               (cuda_call_success dbg drv _ _ _ _ (Hattr _ cudaDevAttrComputeMode _ _ Hd))).
    rewrite (bind_Ok _ _ _ _ _ _ _
               (cuda_call_success dbg drv _ _ _ _ (Hattr _ cudaDevAttrComputeCapabilityMajor _ _ Hd))).
    rewrite (bind_Ok _ _ _ _ _ _ _
               (cuda_call_success dbg drv _ _ _ _ (Hattr _ cudaDevAttrComputeCapabilityMinor _ _ Hd))).
    cbn [attrOf scan]. fold (eligible d).
    unfold fires. cbn [existsb].
    destruct (eligible d) eqn:El; cbn [andb orb].
    + (* the device counts *)
      assert (Hcores : forall h1,
        (if (major d =? 9999) && (minor d =? 9999) then ret 1
         else liftStep (_calcSMCountPerMultiProcessor dbg (major d) (minor d))) h1 m
        = (if dbg && unexpected d then Abort else Ok (coresPerSM d), m, [])).
      { intros h1. destruct ((major d =? 9999) && (minor d =? 9999)) eqn:E9.
        - unfold unexpected, coresPerSM. rewrite E9. simpl.
          rewrite Bool.andb_false_r. reflexivity.
        - unfold liftStep. rewrite (calc_coresPerSM dbg d E9). reflexivity. }
      destruct (dbg && unexpected d) eqn:Eu.
      * eexists. unfold bind at 1. rewrite Hcores.
        apply Bool.andb_true_iff in Eu. destruct Eu as [-> ->]. simpl.
        reflexivity.
      * rewrite (bind_Ok _ _ _ _ _ _ _ (Hcores _)).
        rewrite (bind_Ok _ _ _ _ _ _ _
               (cuda_call_success dbg drv _ _ _ _ (Hattr _ cudaDevAttrMultiProcessorCount _ _ Hd))).
        rewrite (bind_Ok _ _ _ _ _ _ _
               (cuda_call_success dbg drv _ _ _ _ (Hattr _ cudaDevAttrClockRate _ _ Hd))).
        cbn [attrOf]. fold (perfOf d).
        assert (Ef : dbg && (unexpected d || existsb (fun d0 => eligible d0 && unexpected d0) rest)
                     = fires dbg rest).
        { unfold fires. destruct dbg; simpl in *; [rewrite Eu|]; reflexivity. }
        rewrite Ef. rewrite Lnext.
        destruct (mp <? perfOf d);
          match goal with
          | |- context [deviceLoop _ _ _ _ ?md' ?mp' ?h' ?m'] =>
              destruct (IH (pre ++ [d]) md' mp' h' m' Enext) as [evs Hevs];
              rewrite Hevs; eexists; reflexivity
          end.
    + (* a prohibited device is passed over *)
      rewrite Lnext.
      match goal with
      | |- context [deviceLoop _ _ _ _ ?md' ?mp' ?h' ?m'] =>
          destruct (IH (pre ++ [d]) md' mp' h' m' Enext) as [evs Hevs];
          rewrite Hevs; eexists; reflexivity
      end.
Qed.

Lemma perfOf_nonneg d : 0 <= perfOf d.
Proof. apply compute_perf_nonneg. Qed.

Lemma bestSoFar_step pre d md mp :
  bestSoFar pre md mp ->
  bestSoFar (pre ++ [d])
    (if eligible d && (mp <? perfOf d) then Z.of_nat (length pre) else md)
    (if eligible d && (mp <? perfOf d) then perfOf d else mp).
Proof.
  intros Inv.
  assert (Hmp : 0 <= mp) by (destruct Inv as [(_ & -> & _) | (? & _ & _ & _ & _ & ? & _)]; lia).
  assert (Hle : forall j dj, nth_error pre j = Some dj -> eligible dj = true ->
                             perfOf dj <= mp).
  { intros j dj Hj El. destruct Inv as [(_ & -> & Hz) | (b & _ & _ & _ & -> & _ & Hb)].
    - rewrite (Hz dj (nth_error_In _ _ Hj) El). lia.
    - apply (Hb j dj Hj El). }
  destruct (eligible d && (mp <? perfOf d)) eqn:C.
  - apply Bool.andb_true_iff in C. destruct C as [El Lt]. apply Z.ltb_lt in Lt.
    right. exists d. rewrite Nat2Z.id.
    repeat split; try lia.
    + rewrite nth_error_app2 by lia. rewrite Nat.sub_diag. reflexivity.
    + exact El.
    + destruct (Nat.lt_ge_cases j (length pre)) as [Hj | Hj].
      * rewrite nth_error_app1 in H by exact Hj. specialize (Hle _ _ H H0). lia.
      * rewrite nth_error_app2 in H by exact Hj.
        destruct (j - length pre)%nat as [| n]; simpl in H.
        -- inversion H. lia.
        -- destruct n; discriminate.
    + intros Hlt. rewrite nth_error_app1 in H by lia. specialize (Hle _ _ H H0). lia.
  - destruct Inv as [(-> & -> & Hz) | (b & Hmd & Hb & Elb & -> & Hpos & Hall)].
    + left. repeat split. intros d0 Hin El0.
      apply in_app_or in Hin. destruct Hin as [Hin | [<- | []]].
      * apply Hz; assumption.
      * rewrite El0 in C. simpl in C. apply Z.ltb_ge in C.
        pose proof (perfOf_nonneg d). lia.
    + right. exists b.
      assert (Hlt : (Z.to_nat md < length pre)%nat).
      { apply nth_error_Some. rewrite Hb. discriminate. }
      repeat split; try assumption.
      * rewrite nth_error_app1 by exact Hlt. exact Hb.
      * destruct (Nat.lt_ge_cases j (length pre)) as [Hj | Hj].
        -- rewrite nth_error_app1 in H by exact Hj. apply (Hall _ _ H H0).
        -- rewrite nth_error_app2 in H by exact Hj.
           destruct (j - length pre)%nat as [| n]; simpl in H.
           ++ inversion H; subst dj. rewrite H0 in C. simpl in C.
              apply Z.ltb_ge in C. exact C.
           ++ destruct n; discriminate.
      * intros Hjm. rewrite nth_error_app1 in H by lia. apply (Hall _ _ H H0). exact Hjm.
Qed.

Lemma scan_bestSoFar rest :
  forall pre md mp,
    bestSoFar pre md mp ->
    bestSoFar (pre ++ rest)
      (fst (scan rest (Z.of_nat (length pre)) md mp))
      (snd (scan rest (Z.of_nat (length pre)) md mp)).
Proof.
  induction rest as [| d rest IH]; intros pre md mp Inv.
  - simpl. rewrite app_nil_r. exact Inv.
  - cbn [scan].
    assert (L : Z.of_nat (length pre) + 1 = Z.of_nat (length (pre ++ [d]))).
    { rewrite length_app. simpl. lia. }
    assert (E : pre ++ d :: rest = (pre ++ [d]) ++ rest).
    { rewrite <- app_assoc. reflexivity. }
    rewrite L, E. pose proof (bestSoFar_step pre d md mp Inv) as S.
    destruct (eligible d && (mp <? perfOf d)); apply IH; exact S.
Qed.

Lemma bestSoFar_start : bestSoFar [] (-1) 0.
Proof. left. repeat split. intros d []. Qed.

Lemma selected_best devs :
  bestSoFar devs (selected devs) (snd (scan devs 0 (-1) 0)).
Proof. apply (scan_bestSoFar devs [] (-1) 0 bestSoFar_start). Qed.

Lemma findMaxFlops_selected dbg drv devs h m :
  presents drv devs ->
  exists evs,
    _findMaxFlopsDeviceId dbg drv h m =
      (if fires dbg devs then Abort
       else if selected devs <? 0 then Fail SLANG_FAIL
       else Ok (selected devs), m, evs).
Proof.
  intros P. unfold _findMaxFlopsDeviceId.
  rewrite (bind_Ok _ _ _ _ _ _ _
             (cuda_call_success dbg drv _ _ _ _ (proj1 P h))).
  rewrite Nat2Z.id.
  match goal with
  | |- context [bind (deviceLoop _ _ _ _ ?md ?mp) _ ?h' ?m'] =>
      destruct (deviceLoop_scan dbg drv devs P devs [] md mp h' m' eq_refl)
        as [evs Hevs]
  end.
  simpl length in Hevs. simpl Z.of_nat in Hevs.
  unfold bind at 1. rewrite Hevs. fold (selected devs).
  destruct (fires dbg devs).
  - eexists. reflexivity.
  - destruct (selected devs <? 0); eexists; reflexivity.
Qed.

Lemma expected_not_unexpected d :
  capabilityExpected d -> unexpected d = false.
Proof.
  unfold capabilityExpected, unexpected. intros [[Ma Mi] | [L | L]].
  - rewrite Ma, Mi. reflexivity.
  - destruct (lookupSM infos _); [apply Bool.andb_false_r | congruence].
  - destruct (lookupSM infos _); [apply Bool.andb_false_r |].
    rewrite lastInfo_eq in *. simpl in *.
    replace (64 <? smOf (major d) (minor d)) with true
      by (symmetry; apply Z.ltb_lt; lia).
    apply Bool.andb_false_r.
Qed.

Lemma fires_false dbg devs :
  dbg = false \/ Forall (fun d => eligible d = true -> capabilityExpected d) devs ->
  fires dbg devs = false.
Proof.
  unfold fires. intros [-> | F]; [reflexivity |].
  replace (existsb (fun d => eligible d && unexpected d) devs) with false.
  - apply Bool.andb_false_r.
  - symmetry. induction F as [| d ds Hd F IH]; simpl; [reflexivity |].
    rewrite IH, Bool.orb_false_r.
    destruct (eligible d); [| reflexivity]. simpl.
    apply expected_not_unexpected. apply Hd. reflexivity.
Qed.

Lemma deviceDriver_presents devs : presents (deviceDriver devs) devs.
Proof.
  split; [reflexivity |]. intros h a i d H. unfold deviceDriver.
  destruct (Z.of_nat i <? 0) eqn:E; [apply Z.ltb_lt in E; lia |].
  rewrite Nat2Z.id, H. reflexivity.
Qed.

(** The loop visits the devices in order; its answer depends on the devices
    only. *)
Lemma findMaxFlops_result dbg drv devs h m :
  presents drv devs ->
  (dbg = false \/ Forall (fun d => eligible d = true -> capabilityExpected d) devs) ->
  fst (fst (_findMaxFlopsDeviceId dbg drv h m)) =
    if selected devs <? 0 then Fail SLANG_FAIL else Ok (selected devs).
Proof.
  intros P S. destruct (findMaxFlops_selected dbg drv devs h m P) as [evs ->].
  rewrite (fires_false dbg devs S). reflexivity.
Qed.

Lemma selected_cases devs :
  (selected devs = -1 /\
   forall d, In d devs -> eligible d = true -> perfOf d = 0)
  \/
  (0 <= selected devs /\
   exists d, nth_error devs (Z.to_nat (selected devs)) = Some d /\
     eligible d = true /\ 0 < perfOf d /\
     forall j dj, nth_error devs j = Some dj -> eligible dj = true ->
       perfOf dj <= perfOf d /\
       (Z.of_nat j < selected devs -> perfOf dj < perfOf d)).
Proof.
  destruct (selected_best devs) as [(E & _ & Z0) | (d & G & N & El & Emp & Pos & All)].
  - left. auto.
  - right. split; [exact G |]. exists d. repeat split; try assumption.
    + lia.
    + apply (All j dj H H0).
    + apply (All j dj H H0).
Qed.




(** The score the loop computes is the score of the specification. *)
Lemma perfOf_score d : perfOf d = score d.
Proof. unfold perfOf, score. apply compute_perf_mod. Qed.

(** C4, as amended.  On the devices [devs], device selection returns the
    first eligible device of greatest score when that score is positive, and
    fails when every eligible device has score zero; the score is the product
    of multiprocessor count, cores per multiprocessor and clock rate in
    unsigned 64-bit arithmetic; the choice is the same after any history and
    in any state. *)
Theorem findMaxFlops_first_argmax (dbg : bool) (drv : Driver) (devs : list Device)
    (h : list Event) (m : Machine) :
  presents drv devs ->
  (dbg = false \/ Forall (fun d => eligible d = true -> capabilityExpected d) devs) ->
  match fst (fst (_findMaxFlopsDeviceId dbg drv h m)) with
  | Ok i =>
      exists d, 0 <= i /\ nth_error devs (Z.to_nat i) = Some d /\
        eligible d = true /\
        0 < (multiProcessorCount d * coresPerSM d * clockRate d) mod 2 ^ 64 /\
        forall j dj, nth_error devs j = Some dj -> eligible dj = true ->
          (multiProcessorCount dj * coresPerSM dj * clockRate dj) mod 2 ^ 64
            <= (multiProcessorCount d * coresPerSM d * clockRate d) mod 2 ^ 64 /\
          (Z.of_nat j < i ->
           (multiProcessorCount dj * coresPerSM dj * clockRate dj) mod 2 ^ 64
             < (multiProcessorCount d * coresPerSM d * clockRate d) mod 2 ^ 64)
  | Fail r => r = SLANG_FAIL /\
              forall d, In d devs -> eligible d = true ->
                (multiProcessorCount d * coresPerSM d * clockRate d) mod 2 ^ 64 = 0
  | Abort => False
  end /\
  forall h' m', fst (fst (_findMaxFlopsDeviceId dbg drv h' m')) =
                fst (fst (_findMaxFlopsDeviceId dbg drv h m)).
Proof.
  intros P S.
  assert (PS : forall d, perfOf d
                 = (multiProcessorCount d * coresPerSM d * clockRate d) mod 2 ^ 64).
  { intros d. apply compute_perf_mod. }
  split.
  - rewrite (findMaxFlops_result dbg drv devs h m P S).
    destruct (selected_cases devs) as [(E & Z0) | (G & d & N & El & Pos & All)].
    + rewrite E. simpl. split; [reflexivity |]. intros d I El.
      rewrite <- PS. auto.
    + replace (selected devs <? 0) with false by (symmetry; apply Z.ltb_ge; lia).
      exists d. rewrite <- !PS.
      repeat split; try assumption; rewrite <- !PS; apply (All j dj H H0).
  - intros h' m'.
    rewrite !(findMaxFlops_result dbg drv devs _ _ P S). reflexivity.
Qed.

Lemma findMaxFlops_first_argmax_witness :
  firstArgMax [fermi; gtx1080; gtx1080] 1 /\
  fst (fst (_findMaxFlopsDeviceId false (deviceDriver [fermi; gtx1080; gtx1080])
              [] emptyMachine)) = Ok 1.
Proof.
  pose proof (findMaxFlops_first_argmax false
                (deviceDriver [fermi; gtx1080; gtx1080]) [fermi; gtx1080; gtx1080]
                [] emptyMachine (deviceDriver_presents _) (or_introl eq_refl)) as [H _].
  split; [| reflexivity].
  change (fst (fst (_findMaxFlopsDeviceId false
                      (deviceDriver [fermi; gtx1080; gtx1080]) [] emptyMachine)))
    with (@Ok Z 1) in H.
  destruct H as (d & G & N & El & _ & All). exists d.
  split; [exact G |]. split; [exact N |]. split; [exact El |]. exact All.
Defined.

(** C4 as stated fails: the only device is eligible, its clock rate is
    reported as 0, and no device is returned. *)
Lemma findMaxFlops_zero_clock_fails :
  eligible (stopped gtx1080) = true /\
  fst (fst (_findMaxFlopsDeviceId false (deviceDriver [stopped gtx1080])
              [] emptyMachine)) = Fail SLANG_FAIL.
Proof. split; reflexivity. Qed.

(** C10.  An eligible device whose score is zero is never the one returned,
    and when every eligible device has score zero no device is returned:
    selection fails. *)
Theorem findMaxFlops_zero_score_never_selected (dbg : bool) (drv : Driver)
    (devs : list Device) (h : list Event) (m : Machine) :
  presents drv devs ->
  (forall i d, nth_error devs i = Some d -> eligible d = true ->
     multiProcessorCount d * coresPerSM d * clockRate d = 0 ->
     fst (fst (_findMaxFlopsDeviceId dbg drv h m)) <> Ok (Z.of_nat i))
  /\
  ((forall d, In d devs -> eligible d = true ->
      multiProcessorCount d * coresPerSM d * clockRate d = 0) ->
   (forall i, fst (fst (_findMaxFlopsDeviceId dbg drv h m)) <> Ok i) /\
   (dbg = false \/ Forall (fun d => eligible d = true -> capabilityExpected d) devs ->
    fst (fst (_findMaxFlopsDeviceId dbg drv h m)) = Fail SLANG_FAIL)).
Proof.
  intros P.
  destruct (findMaxFlops_selected dbg drv devs h m P) as [evs E]. rewrite E.
  cbn [fst]. split.
  - intros i d N El Z0 R.
    destruct (fires dbg devs); [discriminate |].
    destruct (selected devs <? 0); [discriminate |].
    inversion R as [Sel].
    destruct (selected_cases devs) as [(E1 & _) | (_ & b & Nb & _ & Pos & _)].
    + lia.
    + rewrite Sel, Nat2Z.id, N in Nb. inversion Nb; subst b.
      unfold perfOf in Pos. rewrite (compute_perf_zero _ _ _ Z0) in Pos. lia.
  - intros Z0.
    assert (Sel : selected devs = -1).
    { destruct (selected_cases devs) as [(E1 & _) | (_ & b & Nb & El & Pos & _)].
      - exact E1.
      - unfold perfOf in Pos.
        rewrite (compute_perf_zero _ _ _ (Z0 b (nth_error_In _ _ Nb) El)) in Pos. lia. }
    rewrite Sel. simpl. split.
    + intros i. destruct (fires dbg devs); discriminate.
    + intros S. rewrite (fires_false dbg devs S). reflexivity.
Qed.

Lemma findMaxFlops_zero_score_never_selected_witness :
  fst (fst (_findMaxFlopsDeviceId false
              (deviceDriver [stopped gtx1080; prohibited gtx1080])
              [] emptyMachine)) = Fail SLANG_FAIL.
Proof.
  apply (findMaxFlops_zero_score_never_selected false
           (deviceDriver [stopped gtx1080; prohibited gtx1080])
           [stopped gtx1080; prohibited gtx1080] [] emptyMachine
           (deviceDriver_presents _)).
  - intros d [<- | [<- | []]] El; [reflexivity | discriminate].
  - left. reflexivity.
Defined.

(** ** The context *)

Lemma bind_Fail {A B} (c : M A) (k : A -> M B) h m x m1 e1 :
  c h m = (Fail x, m1, e1) -> bind c k h m = (Fail x, m1, e1).
Proof. intros H. unfold bind. rewrite H. reflexivity. Qed.

Lemma bind_Abort {A B} (c : M A) (k : A -> M B) h m m1 e1 :
  c h m = (Abort, m1, e1) -> bind c k h m = (Abort, m1, e1).
Proof. intros H. unfold bind. rewrite H. reflexivity. Qed.

(** [_initCuda] leaves the context and the values alone; it fails only when
    [cuInit] did. *)
Lemma initCuda_run dbg drv h m :
  exists r m1 e1,
    _initCuda dbg drv h m = (r, m1, e1) /\
    m_context m1 = m_context m /\ values m1 = values m /\
    (r = Ok tt \/
     ((r = Fail SLANG_FAIL /\ dbg = false \/ r = Abort /\ dbg = true) /\
      match cuInit_res m with
      | Some s => s <> 0
      | None => exists h', status (drv h' (cuInit 0)) <> 0
      end)).
Proof.
  unfold _initCuda, bind, getMachine, setInitRes, putMachine, call, ret,
    cudaReturnOnFail, SLANG_ASSERT_M, fail, assertFailure, bind.
  destruct (cuInit_res m) as [s |] eqn:C.
  - destruct (s =? 0) eqn:S; simpl.
    + do 3 eexists. repeat split. left. reflexivity.
    + apply Z.eqb_neq in S.
      destruct dbg; simpl; do 3 eexists; repeat split; right; split; auto.
  - simpl. destruct (status (drv (h ++ []) (cuInit 0)) =? 0) eqn:S; simpl.
    + do 3 eexists. repeat split. left. reflexivity.
    + apply Z.eqb_neq in S.
      destruct dbg; simpl; do 3 eexists; repeat split; right; split; eauto.
Qed.

Lemma no_eligible_selected devs :
  (forall d, In d devs -> eligible d = false) -> selected devs = -1.
Proof.
  intros N. destruct (selected_cases devs) as [(E & _) | (_ & d & Nd & El & _)].
  - exact E.
  - rewrite (N d (nth_error_In _ _ Nd)) in El. discriminate.
Qed.

Lemma no_eligible_fires dbg devs :
  (forall d, In d devs -> eligible d = false) -> fires dbg devs = false.
Proof.
  intros N. unfold fires.
  replace (existsb (fun d => eligible d && unexpected d) devs) with false.
  - apply Bool.andb_false_r.
  - symmetry. induction devs as [| d ds IH]; simpl; [reflexivity |].
    rewrite (N d (or_introl eq_refl)). simpl. apply IH.
    intros d' H. apply N. right. exact H.
Qed.

Lemma initCuda_works dbg drv h m :
  cuInitWorks drv m ->
  exists m1 e1, _initCuda dbg drv h m = (Ok tt, m1, e1) /\ m_context m1 = m_context m.
Proof.
  unfold cuInitWorks, _initCuda, bind, getMachine, setInitRes, putMachine, call, ret,
    cudaReturnOnFail, SLANG_ASSERT_M, fail, assertFailure, bind.
  destruct (cuInit_res m) as [s |].
  - intros ->. simpl. do 2 eexists. split; reflexivity.
  - intros W. simpl. rewrite (W (h ++ [])). simpl. do 2 eexists. split; reflexivity.
Qed.

Lemma initCuda_fails dbg drv h m :
  cuInitFails drv m ->
  exists m1 e1,
    _initCuda dbg drv h m = (if dbg then Abort else Fail SLANG_FAIL, m1, e1) /\
    m_context m1 = m_context m.
Proof.
  unfold cuInitFails, _initCuda, bind, getMachine, setInitRes, putMachine, call, ret,
    cudaReturnOnFail, SLANG_ASSERT_M, fail, assertFailure, bind.
  destruct (cuInit_res m) as [s |].
  - intros N. apply Z.eqb_neq in N. simpl. rewrite N.
    destruct dbg; simpl; do 2 eexists; split; reflexivity.
  - intros F. specialize (F (h ++ [])). apply Z.eqb_neq in F. simpl. rewrite F.
    destruct dbg; simpl; do 2 eexists; split; reflexivity.
Qed.

(** What [init(0)] gives on a machine without eligible device. *)
Lemma init_no_device dbg drv h m byError :
  NoDevice drv m byError -> m_context m = 0 ->
  exists m1 e1,
    ScopeCUDAContext_init dbg drv 0 h m
      = (if dbg && byError then Abort else Fail SLANG_FAIL, m1, e1) /\
    m_context m1 = 0.
Proof.
  intros N Z0. unfold ScopeCUDAContext_init.
  destruct N as [F | W C | devs W P N].
  - destruct (initCuda_fails dbg drv h m F) as (m1 & e1 & R & Ctx).
    rewrite Bool.andb_true_r. do 2 eexists.
    destruct dbg; [rewrite (bind_Abort _ _ _ _ _ _ R) | rewrite (bind_Fail _ _ _ _ _ _ _ R)];
      (split; [reflexivity | congruence]).
  - destruct (initCuda_works dbg drv h m W) as (m1 & e1 & R & Ctx).
    rewrite (bind_Ok _ _ _ _ _ _ _ R). rewrite Bool.andb_true_r.
    unfold _findMaxFlopsDeviceId, SLANG_CUDA_RETURN_ON_FAIL, call, cudaReturnOnFail,
      SLANG_ASSERT_M, assertFailure, fail, ret, bind.
    rewrite (C (h ++ e1)). destruct dbg; simpl; do 2 eexists;
      (split; [reflexivity | congruence]).
  - destruct (initCuda_works dbg drv h m W) as (m1 & e1 & R & Ctx).
    rewrite (bind_Ok _ _ _ _ _ _ _ R). rewrite Bool.andb_false_r.
    destruct (findMaxFlops_selected dbg drv devs (h ++ e1) m1 P) as [evs E].
    rewrite (no_eligible_fires dbg devs N), (no_eligible_selected devs N) in E.
    simpl in E. rewrite (bind_Fail _ _ _ _ _ _ _ E).
    do 2 eexists. split; [reflexivity | congruence].
Qed.

(** C8, as amended.  On a machine without eligible device, however the
    driver reports it, [canCreateDevice] returns [false] when assertions are
    compiled out.  With assertions it returns [false] when the driver
    enumerates its devices with success statuses (there is none, or all are
    in prohibited compute mode), and it ends in the assertion of the failed
    call when [cuInit] or [cudaGetDeviceCount] returns an error. *)
Theorem canCreateDevice_no_eligible_device (dbg : bool) (drv : Driver)
    (h : list Event) (m : Machine) (byError : bool) :
  NoDevice drv m byError ->
  fst (fst (canCreateDevice dbg drv h m)) =
    if dbg && byError then Abort else Ok false.
Proof.
  intros N.
  unfold canCreateDevice, withScopeCUDAContext.
  unfold bind at 1. unfold setContext at 1, bind at 1, getMachine at 1, putMachine at 1.
  cbn iota beta. unfold finally.
  set (m0 := {| cuInit_res := cuInit_res m; m_context := 0; values := values m |}).
  set (h0 := h ++ [] ++ []).
  assert (N0 : NoDevice drv m0 byError).
  { destruct N as [F | W C | devs W P N];
      [apply noBackend | apply noCount | apply (noneEligible _ _ devs)]; assumption. }
  destruct (init_no_device dbg drv h0 m0 byError N0 eq_refl) as (m1 & e1 & R & Ctx).
  unfold bind at 1, resultOf. rewrite R.
  destruct (dbg && byError); cbn iota beta; [reflexivity |].
  unfold ret at 1. cbn iota beta.
  unfold ScopeCUDAContext_dtor, bind, getMachine. rewrite Ctx. reflexivity.
Qed.

Lemma canCreateDevice_no_eligible_device_witness :
  fst (fst (canCreateDevice true (deviceDriver [prohibited gtx1080; prohibited fermi])
              [] emptyMachine)) = Ok false.
Proof.
  apply (canCreateDevice_no_eligible_device true
           (deviceDriver [prohibited gtx1080; prohibited fermi]) [] emptyMachine false).
  apply (noneEligible _ _ [prohibited gtx1080; prohibited fermi]).
  - intros h. reflexivity.
  - apply deviceDriver_presents.
  - intros d [<- | [<- | []]]; reflexivity.
Defined.

(** C8 as stated fails: on a machine without CUDA device [cuInit] returns
    [CUDA_ERROR_NO_DEVICE], and with assertions compiled in the probe ends in
    the assertion of [SLANG_CUDA_RETURN_ON_FAIL] instead of answering
    [false]. *)
Lemma canCreateDevice_asserts_without_backend :
  NoDevice noDeviceDriver emptyMachine true /\
  fst (fst (canCreateDevice true noDeviceDriver [] emptyMachine)) = Abort.
Proof.
  split; [| reflexivity]. apply noBackend. intros h. discriminate.
Qed.

(** ** Checked runs *)

Lemma clean_app a b : clean a -> clean b -> clean (a ++ b).
Proof. intros A B. apply Forall_app. split; assumption. Qed.

Lemma clean_nil : clean [].
Proof. constructor. Qed.

Lemma checkedRun_nil {A} (r : Step A) : checkedRun r [].
Proof. split; [intros _; apply clean_nil |]. exists [], []. repeat split; auto. apply clean_nil. Qed.

Lemma checkedRun_clean {A} (r : Step A) evs : clean evs -> checkedRun r evs.
Proof.
  intros C. split; [auto |]. exists evs, []. rewrite app_nil_r. repeat split; auto.
Qed.

Lemma checkedRun_app {A B} (a : A) (r : Step B) e1 e2 :
  checkedRun (Ok a) e1 -> checkedRun r e2 -> checkedRun r (e1 ++ e2).
Proof.
  intros [C1 _] [C2 (pre & tl & -> & Cp & L)]. specialize (C1 eq_refl). split.
  - intros O. apply clean_app; auto.
  - exists (e1 ++ pre), tl. rewrite app_assoc. repeat split; auto.
    apply clean_app; assumption.
Qed.

Lemma checkedRun_retype {A B} (r : Step A) (r' : Step B) evs :
  isOk r = false -> isOk r' = false -> checkedRun r evs -> checkedRun r' evs.
Proof.
  intros N N' [_ H]. split; [rewrite N'; discriminate | exact H].
Qed.

(** What one checked driver call does. *)
Lemma cuda_call_inv dbg drv c h m r m' evs :
  SLANG_CUDA_RETURN_ON_FAIL dbg drv c h m = (r, m', evs) ->
  m' = m /\ evs = [EvCall c (drv h c)] /\
  (_isError (drv h c) = false /\ r = Ok (out (drv h c)) \/
   _isError (drv h c) = true /\
   r = if dbg then Abort else Fail SLANG_FAIL).
Proof.
  unfold SLANG_CUDA_RETURN_ON_FAIL, bind, call, cudaReturnOnFail, SLANG_ASSERT_M,
    assertFailure, fail, ret, bind.
  destruct (_isError (drv h c)) eqn:E; destruct dbg; simpl;
    intros H; inversion H; subst; auto.
Qed.

Lemma cuda_call_checked dbg drv c h m r m' evs :
  SLANG_CUDA_RETURN_ON_FAIL dbg drv c h m = (r, m', evs) -> checkedRun r evs.
Proof.
  intros H. apply cuda_call_inv in H. destruct H as (_ & -> & [[E ->] | [E ->]]).
  - apply checkedRun_clean. constructor; [| constructor].
    unfold bad. simpl. rewrite E. reflexivity.
  - split; [destruct dbg; discriminate |].
    exists [], [EvCall c (drv h c)]. repeat split; auto. apply clean_nil.
Qed.

(** A loop whose body keeps an invariant of the machine, emits events of one
    kind and checks its calls does so as a whole. *)
Lemma forEach_inv {A} (body : A -> M unit) (I : Machine -> Prop) (P : Event -> Prop)
    (l : list A) :
  (forall x h m r m' evs, In x l -> body x h m = (r, m', evs) -> I m ->
     I m' /\ Forall P evs /\ checkedRun r evs) ->
  forall h m r m' evs, forEach l body h m = (r, m', evs) -> I m ->
     I m' /\ Forall P evs /\ checkedRun r evs.
Proof.
  induction l as [| x l IH]; intros B h m r m' evs R Im.
  - inversion R; subst. split; [exact Im | split; [constructor | apply checkedRun_nil]].
  - cbn [forEach] in R. apply bind_inv in R.
    destruct R as [(a & m1 & e1 & e2 & R1 & R2 & ->) | [(x0 & R1 & ->) | (R1 & ->)]].
    + destruct (B x h m _ _ _ (or_introl eq_refl) R1 Im) as (I1 & P1 & C1).
      assert (B' : forall x h m r m' evs, In x l -> body x h m = (r, m', evs) -> I m ->
                      I m' /\ Forall P evs /\ checkedRun r evs).
      { intros. eapply B; eauto. right. assumption. }
      destruct (IH B' _ _ _ _ _ R2 I1) as (I2 & P2 & C2).
      split; [exact I2 | split].
      * apply Forall_app. auto.
      * apply (checkedRun_app a r e1 e2 C1 C2).
    + destruct (B x h m _ _ _ (or_introl eq_refl) R1 Im) as (I1 & P1 & C1).
      split; [exact I1 | split; [exact P1 |]].
      revert C1. apply checkedRun_retype; reflexivity.
    + destruct (B x h m _ _ _ (or_introl eq_refl) R1 Im) as (I1 & P1 & C1).
      split; [exact I1 | split; [exact P1 |]].
      revert C1. apply checkedRun_retype; reflexivity.
Qed.

(** ** The passes, one step at a time *)

Lemma setTargetAt_run i t h m :
  setTargetAt i t h m =
    (Ok tt, withValues m (updateAt i (fun v => setTarget v t) (values m)), []).
Proof. reflexivity. Qed.

Lemma allocateTarget_inv dbg drv i v h m r m' evs :
  allocateTarget dbg drv i v h m = (r, m', evs) ->
  evs = [EvCall (cudaMalloc (m_sizeInBytes v)) (drv h (cudaMalloc (m_sizeInBytes v)))] /\
  (_isError (drv h (cudaMalloc (m_sizeInBytes v))) = false /\ r = Ok tt /\
   m' = withValues m
          (updateAt i (fun x => setTarget x
             (Some (CUDAResource (out (drv h (cudaMalloc (m_sizeInBytes v)))))))
             (values m))
   \/
   _isError (drv h (cudaMalloc (m_sizeInBytes v))) = true /\ isOk r = false /\ m' = m).
Proof.
  unfold allocateTarget. intros R. apply bind_inv in R.
  destruct R as [(a & m1 & e1 & e2 & R1 & R2 & ->) | [(x0 & R1 & ->) | (R1 & ->)]];
    apply cuda_call_inv in R1; destruct R1 as (-> & E1 & C).
  - rewrite setTargetAt_run in R2. inversion R2; subst. split; [reflexivity |].
    destruct C as [[E Ra] | [E Ra]].
    + left. inversion Ra; subst. auto.
    + destruct dbg; discriminate.
  - subst. split; [reflexivity |]. destruct C as [[E Ra] | [E Ra]]; [discriminate |].
    right. auto.
  - subst. split; [reflexivity |]. destruct C as [[E Ra] | [E Ra]]; [discriminate |].
    right. auto.
Qed.

Lemma createResource_inv dbg drv i h m r m' evs :
  createResource dbg drv i h m = (r, m', evs) ->
  match nth_error (values m) i with
  | None => r = Ok tt /\ m' = m /\ evs = []
  | Some v =>
      if allocates v then
        exists resp, evs = [EvCall (cudaMalloc (m_sizeInBytes v)) resp] /\
          (_isError resp = false /\ r = Ok tt /\
           m' = withValues m
                  (updateAt i (fun x => setTarget x (Some (CUDAResource (out resp))))
                     (values m))
           \/ _isError resp = true /\ isOk r = false /\ m' = m)
      else evs = [] /\ m' = m /\ (r = Ok tt \/ r = Abort)
  end.
Proof.
  unfold createResource. intros R. apply bind_inv in R.
  destruct R as [(a & m1 & e1 & e2 & R1 & R2 & ->) | [(x0 & R1 & ->) | (R1 & ->)]];
    try discriminate.
  inversion R1; subst a m1 e1. clear R1. simpl.
  destruct (nth_error (values m) i) as [v |].
  2:{ inversion R2; subst; auto. }
  unfold allocates.
  destruct (m_type v) as [t |].
  2:{ apply allocateTarget_inv in R2. destruct R2 as (-> & C). eexists. split; [reflexivity | exact C]. }
  destruct (getKind t);
    try (inversion R2; subst; auto; fail);
    try (apply allocateTarget_inv in R2; destruct R2 as (-> & C); eexists;
         split; [reflexivity | exact C]; fail).
  destruct (baseShape (getResourceShape t));
    try (inversion R2; subst; auto; fail);
    try (apply allocateTarget_inv in R2; destruct R2 as (-> & C); eexists;
         split; [reflexivity | exact C]; fail).
  unfold SLANG_ASSERT_M in R2.
  destruct (dbg && negb (0 <=? m_userIndex v)); inversion R2; subst; auto.
Qed.

Lemma stage_alloc c r : forall sz, c = cudaMalloc sz -> stageOf (EvCall c r) = StAlloc.
Proof. intros sz ->. reflexivity. Qed.

Lemma createResource_basic dbg drv i h m r m' evs :
  createResource dbg drv i h m = (r, m', evs) ->
  Forall (fun e => stageOf e = StAlloc) evs /\ checkedRun r evs /\
  (Forall (fun e => failedCall e = false) evs \/ isOk r = false).
Proof.
  intros R. apply createResource_inv in R.
  destruct (nth_error (values m) i) as [v |].
  - destruct (allocates v).
    + destruct R as (resp & -> & [(E & -> & _) | (E & N & _)]).
      * split; [repeat constructor |]. split.
        -- apply checkedRun_clean. repeat constructor. unfold bad. simpl. rewrite E. reflexivity.
        -- left. repeat constructor. exact E.
      * split; [repeat constructor |]. split.
        -- split; [rewrite N; discriminate |].
           exists [], [EvCall (cudaMalloc (m_sizeInBytes v)) resp].
           repeat split; auto. apply clean_nil.
        -- right. exact N.
    + destruct R as (-> & _ & _). split; [constructor |]. split; [apply checkedRun_nil |].
      left. constructor.
  - destruct R as (_ & _ & ->). split; [constructor |]. split; [apply checkedRun_nil |].
    left. constructor.
Qed.

(** A store: the event, and the end of the process when the address is
    null. *)
Lemma store_run addr val h m :
  store addr val h m =
    (if addr =? 0 then Abort else Ok tt, m, [EvStore addr val]).
Proof.
  unfold store, bind, emit, nullDereference, ret.
  destruct (addr =? 0); reflexivity.
Qed.

(** A binding makes no call and changes nothing; it stores at most one
    pointer, and it ends the process when it writes through a null
    location. *)
Lemma setBinding_inv b h m :
  exists r evs, setBinding b h m = (r, m, evs) /\
                Forall (fun e => stageOf e = StBind) evs /\
                (r = Ok tt \/ r = Abort).
Proof.
  destruct b as [location value]. unfold setBinding.
  unfold bind at 1, getMachine at 1. cbn iota beta.
  destruct (getKind (getTypeLayout location));
    try (exists (Ok tt), []; splits; [reflexivity | constructor | auto]; fail).
  - destruct (toInt (getElementCount (getTypeLayout location)) =? 0);
      [| exists (Ok tt), []; splits; [reflexivity | constructor | auto]].
    destruct value;
      [| exists (Ok tt), []; splits; [reflexivity | constructor | auto]].
    destruct (negb (getUniform location =? 0));
      [| exists (Ok tt), []; splits; [reflexivity | constructor | auto]].
    rewrite store_run. do 2 eexists. splits; [reflexivity | repeat constructor |].
    destruct (_ =? 0); auto.
  - rewrite store_run. do 2 eexists. splits; [reflexivity | repeat constructor |].
    destruct (_ =? 0); auto.
  - rewrite store_run. do 2 eexists. splits; [reflexivity | repeat constructor |].
    destruct (_ =? 0); auto.
  - destruct (baseShape (getResourceShape (getTypeLayout location)));
      try (exists (Ok tt), []; splits; [reflexivity | constructor | auto]; fail);
      rewrite store_run; do 2 eexists;
      (splits; [reflexivity | repeat constructor |]); destruct (_ =? 0); auto.
Qed.

Lemma copyToDevice_inv dbg drv i h m r m' evs :
  copyToDevice dbg drv i h m = (r, m', evs) ->
  m' = m /\ Forall (fun e => stageOf e = StUpload) evs /\ checkedRun r evs.
Proof.
  unfold copyToDevice. intros R. apply bind_inv in R.
  destruct R as [(a & m1 & e1 & e2 & R1 & R2 & ->) | [(x0 & R1 & ->) | (R1 & ->)]];
    try discriminate.
  inversion R1; subst a m1 e1. clear R1. simpl.
  destruct (nth_error (values m) i) as [v |].
  2:{ inversion R2; subst. split; [reflexivity | split; [constructor | apply checkedRun_nil]]. }
  destruct (negb (m_data v =? 0) && negb (getCUDAData (values m) (Some i) =? 0)).
  2:{ inversion R2; subst. split; [reflexivity | split; [constructor | apply checkedRun_nil]]. }
  apply bind_inv in R2.
  destruct R2 as [(b & m2 & e3 & e4 & R1 & R2 & ->) | [(x0 & R1 & ->) | (R1 & ->)]];
    pose proof (cuda_call_checked _ _ _ _ _ _ _ _ R1) as C;
    apply cuda_call_inv in R1; destruct R1 as (-> & E1 & _); subst.
  - inversion R2; subst. split; [reflexivity |]. split; [repeat constructor |].
    simpl. destruct C as [C1 C2]. split; auto.
  - split; [reflexivity |]. split; [repeat constructor |].
    revert C. apply checkedRun_retype; reflexivity.
  - split; [reflexivity |]. split; [repeat constructor |].
    revert C. apply checkedRun_retype; reflexivity.
Qed.

(** A checked call followed by the rest of the function: the rest runs only
    when the call succeeded. *)
Lemma checked_bind {B} dbg drv c (k : Z -> M B) h m r m' evs :
  bind (SLANG_CUDA_RETURN_ON_FAIL dbg drv c) k h m = (r, m', evs) ->
  (_isError (drv h c) = true /\ isOk r = false /\ m' = m /\
   evs = [EvCall c (drv h c)] /\
   r = if dbg then Abort else Fail SLANG_FAIL)
  \/
  (_isError (drv h c) = false /\
   exists e2, k (out (drv h c)) (h ++ [EvCall c (drv h c)]) m = (r, m', e2) /\
              evs = EvCall c (drv h c) :: e2).
Proof.
  intros R. apply bind_inv in R.
  destruct R as [(a & m1 & e1 & e2 & R1 & R2 & ->) | [(x0 & R1 & ->) | (R1 & ->)]];
    apply cuda_call_inv in R1; destruct R1 as (-> & -> & [[E Ra] | [E Ra]]);
    try (destruct dbg; discriminate).
  - right. inversion Ra; subst a. split; [exact E |]. exists e2. auto.
  - left. destruct dbg; inversion Ra; subst. repeat split; auto.
  - left. destruct dbg; inversion Ra; subst. repeat split; auto.
Qed.

(** The same for a call whose status is kept in a variable and checked
    next. *)
Lemma checked_call_bind {B} dbg drv c (k : M B) h m r m' evs :
  bind (call drv c) (fun res => cudaReturnOnFail dbg (_isError res) ;;; k) h m
    = (r, m', evs) ->
  (_isError (drv h c) = true /\ isOk r = false /\ m' = m /\
   evs = [EvCall c (drv h c)] /\
   r = if dbg then Abort else Fail SLANG_FAIL)
  \/
  (_isError (drv h c) = false /\
   exists e2, k (h ++ [EvCall c (drv h c)]) m = (r, m', e2) /\
              evs = EvCall c (drv h c) :: e2).
Proof.
  unfold bind at 1, call at 1.
  unfold cudaReturnOnFail, SLANG_ASSERT_M, bind, assertFailure, fail, ret.
  destruct (_isError (drv h c)); destruct dbg; simpl.
  - intros R. inversion R; subst. left. repeat split; auto.
  - intros R. inversion R; subst. left. repeat split; auto.
  - rewrite !app_nil_r.
    destruct (k (h ++ [EvCall c (drv h c)]) m) as [[r2 m2] e2] eqn:K.
    intros R. inversion R; subst. right. split; [reflexivity |]. exists e2. auto.
  - rewrite !app_nil_r.
    destruct (k (h ++ [EvCall c (drv h c)]) m) as [[r2 m2] e2] eqn:K.
    intros R. inversion R; subst. right. split; [reflexivity |]. exists e2. auto.
Qed.

Lemma checkedRun_failed_call {A} (r : Step A) c resp :
  isOk r = false -> checkedRun r [EvCall c resp].
Proof.
  intros N. split; [rewrite N; discriminate |].
  exists [], [EvCall c resp]. repeat split; auto. apply clean_nil.
Qed.

Lemma checkedRun_cons {A} (r : Step A) e evs :
  bad e = false -> checkedRun r evs -> checkedRun r (e :: evs).
Proof.
  intros B [C (pre & tl & -> & Cp & L)]. split.
  - intros O. constructor; [exact B | exact (C O)].
  - exists (e :: pre), tl. repeat split; auto. constructor; auto.
Qed.

Lemma not_error_not_bad c resp : _isError resp = false -> bad (EvCall c resp) = false.
Proof. intros E. unfold bad. simpl. rewrite E. reflexivity. Qed.

(** The block that launches the kernel: at most the two attribute queries,
    the launch and the wait, in that order; the launch has one block, the
    thread-group size as its block size, no shared memory, and the two
    parameter-block pointers as its arguments. *)
Lemma launchKernel_inv dbg drv inp kernel stream x y z h m r m' evs :
  getComputeThreadGroupSize (getEntryPointByIndex0 inp) = (x, y, z) ->
  launchKernel dbg drv inp kernel stream h m = (r, m', evs) ->
  let launch :=
    cuLaunchKernel kernel (1, 1, 1) (toUnsigned (toInt x), toUnsigned (toInt y), toUnsigned (toInt z)) 0 stream
      [getCUDAData (values m) (getEntryPointValue inp);
       getCUDAData (values m) (getRootValue inp)] 0 in
  m' = m /\ Forall (fun e => stageOf e = StLaunch) evs /\ checkedRun r evs /\
  (forall e, In e evs -> isLaunch e = true -> exists resp, e = EvCall launch resp) /\
  (r = Ok tt ->
   exists r1 r2 r3 r4,
     evs = [EvCall (cuFuncGetAttribute CU_FUNC_ATTRIBUTE_MAX_THREADS_PER_BLOCK kernel) r1;
            EvCall (cuFuncGetAttribute CU_FUNC_ATTRIBUTE_SHARED_SIZE_BYTES kernel) r2;
            EvCall launch r3; EvCall (syncCall stream) r4] /\
     _isError r3 = false /\ _isError r4 = false).
Proof.
  intros T R launch. unfold launchKernel in R.
  apply checked_bind in R.
  destruct R as [(E1 & N & -> & -> & _) | (E1 & e2 & R & ->)].
  { split; [reflexivity |]. split; [repeat constructor |].
    split; [apply checkedRun_failed_call; exact N |]. split.
    - intros e [<- | []]; discriminate.
    - intros ->. discriminate. }
  apply checked_bind in R.
  destruct R as [(E2 & N & -> & -> & _) | (E2 & e3 & R & ->)].
  { split; [reflexivity |]. split; [repeat constructor |].
    split; [apply checkedRun_cons; [apply not_error_not_bad; exact E1 |];
            apply checkedRun_failed_call; exact N |]. split.
    - intros e [<- | [<- | []]]; discriminate.
    - intros ->. discriminate. }
  apply bind_inv in R.
  destruct R as [(a & m1 & e1 & e4' & R1 & R5 & ->) | [(x0 & R1 & ->) | (R1 & ->)]];
    try discriminate.
  inversion R1; subst a m1 e1. clear R1. cbn beta zeta in R5. rewrite T in R5.
  cbn [app].
  apply checked_call_bind in R5.
  destruct R5 as [(E3 & N & -> & -> & _) | (E3 & e4 & R & ->)];
    rewrite ?app_nil_r in *.
  { split; [reflexivity |]. split; [repeat constructor |].
    split; [do 2 (apply checkedRun_cons; [apply not_error_not_bad; assumption |]);
            apply checkedRun_failed_call; exact N |]. split.
    - intros e [<- | [<- | [<- | []]]]; try discriminate. intros _. eexists. reflexivity.
    - intros ->. discriminate. }
  assert (S : SLANG_CUDA_RETURN_ON_FAIL dbg drv (syncCall stream) ;;; ret tt =
              (if negb (stream =? 0)
               then _ <- SLANG_CUDA_RETURN_ON_FAIL dbg drv (cudaStreamSynchronize stream) ;; ret tt
               else _ <- SLANG_CUDA_RETURN_ON_FAIL dbg drv cudaDeviceSynchronize ;; ret tt)).
  { unfold syncCall. destruct (negb (stream =? 0)); reflexivity. }
  rewrite <- S in R. clear S.
  apply checked_bind in R.
  destruct R as [(E4 & N & -> & -> & _) | (E4 & e5 & R & ->)].
  { split; [reflexivity |]. split.
    { unfold syncCall. destruct (negb (stream =? 0)); repeat constructor. }
    split; [do 3 (apply checkedRun_cons; [apply not_error_not_bad; assumption |]);
            apply checkedRun_failed_call; exact N |]. split.
    - intros e [<- | [<- | [<- | [<- | []]]]]; try discriminate.
      + intros _. eexists. reflexivity.
      + unfold syncCall. destruct (negb (stream =? 0)); discriminate.
    - intros ->. discriminate. }
  inversion R; subst.
  split; [reflexivity |]. split.
  { unfold syncCall. destruct (negb (stream =? 0)); repeat constructor. }
  split.
  { do 4 (apply checkedRun_cons; [apply not_error_not_bad; assumption |]).
    apply checkedRun_nil. }
  split.
  - intros e [<- | [<- | [<- | [<- | []]]]]; try discriminate.
    + intros _. eexists. reflexivity.
    + unfold syncCall. destruct (negb (stream =? 0)); discriminate.
  - intros _. do 4 eexists. split; [reflexivity |]. auto.
Qed.

Lemma isError_status r : _isError r = false <-> status r = 0.
Proof.
  unfold _isError. destruct (status r =? 0) eqn:E; simpl.
  - apply Z.eqb_eq in E. split; auto.
  - apply Z.eqb_neq in E. split; [discriminate | contradiction].
Qed.

Lemma copyBack_inv dbg drv e h m r m' evs :
  copyBack dbg drv e h m = (r, m', evs) ->
  m' = m /\
  match download (values m) e with
  | None => evs = [] /\ r = Ok tt
  | Some c =>
      exists resp, evs = [EvCall c resp] /\
        (_isError resp = false /\ r = Ok tt \/ _isError resp = true /\ isOk r = false)
  end.
Proof.
  destruct e as [entry value]. unfold copyBack. intros R. apply bind_inv in R.
  destruct R as [(a & m1 & e1 & e2 & R1 & R2 & ->) | [(x0 & R1 & ->) | (R1 & ->)]];
    try discriminate.
  inversion R1; subst a m1 e1. clear R1. cbn [app]. unfold download.
  destruct value as [i |].
  2:{ destruct (isOutput entry); inversion R2; subst; auto. }
  destruct (isOutput entry).
  2:{ inversion R2; subst; auto. }
  cbn [getCUDAData] in R2.
  destruct (nth_error (values m) i) as [v |].
  2:{ inversion R2; subst; auto. }
  destruct (m_target v) as [[p |] |].
  - destruct (negb (m_data v =? 0) && negb (p =? 0)).
    2:{ inversion R2; subst; auto. }
    apply checked_bind in R2.
    destruct R2 as [(E1 & N & -> & -> & _) | (E1 & e3 & R & ->)].
    + split; [reflexivity |]. eexists. split; [reflexivity |]. right. auto.
    + inversion R; subst. split; [reflexivity |]. eexists. split; [reflexivity |].
      left. auto.
  - replace (negb (m_data v =? 0) && negb (0 =? 0)) with false in R2
      by (rewrite Bool.andb_false_r; reflexivity).
    inversion R2; subst; auto.
  - replace (negb (m_data v =? 0) && negb (0 =? 0)) with false in R2
      by (rewrite Bool.andb_false_r; reflexivity).
    inversion R2; subst; auto.
Qed.

Lemma download_stage vs e c : download vs e = Some c ->
  forall resp, stageOf (EvCall c resp) = StDownload.
Proof.
  destruct e as [entry [i |]]; simpl; [| discriminate].
  destruct (isOutput entry); [| discriminate].
  destruct (nth_error vs i) as [v |]; [| discriminate].
  destruct (m_target v) as [[p |] |]; try discriminate.
  destruct (negb (m_data v =? 0) && negb (p =? 0)); [| discriminate].
  intros H resp. inversion H. reflexivity.
Qed.

Lemma copyBack_basic dbg drv e h m r m' evs :
  copyBack dbg drv e h m = (r, m', evs) ->
  m' = m /\ Forall (fun e => stageOf e = StDownload) evs /\ checkedRun r evs.
Proof.
  intros R. apply copyBack_inv in R. destruct R as [-> R]. split; [reflexivity |].
  destruct (download (values m) e) as [c |] eqn:D.
  - destruct R as (resp & -> & [[E ->] | [E N]]).
    + split; [repeat constructor; apply (download_stage _ _ _ D) |].
      apply checkedRun_cons; [apply not_error_not_bad; exact E | apply checkedRun_nil].
    + split; [repeat constructor; apply (download_stage _ _ _ D) |].
      apply checkedRun_failed_call. exact N.
  - destruct R as [-> ->]. split; [constructor | apply checkedRun_nil].
Qed.

(** The read-back loop, when it comes through: the copies made are the ones
    the entries call for, in the order of the entries, each successful. *)
Lemma copyBack_loop dbg drv es :
  forall h m m' evs,
    forEach es (copyBack dbg drv) h m = (Ok tt, m', evs) ->
    m' = m /\ Forall2 succeeded evs (downloads (values m) es).
Proof.
  induction es as [| e es IH]; intros h m m' evs R.
  - inversion R; subst. split; [reflexivity | constructor].
  - cbn [forEach] in R. apply bind_inv in R.
    destruct R as [(a & m1 & e1 & e2 & R1 & R2 & ->) | [(x0 & R1 & ?) | (R1 & ?)]];
      try discriminate.
    apply copyBack_inv in R1. destruct R1 as [-> R1].
    apply IH in R2. destruct R2 as [-> R2]. split; [reflexivity |].
    unfold downloads. cbn [flat_map]. fold (downloads (values m) es).
    destruct (download (values m) e) as [c |].
    + destruct R1 as (resp & -> & [[E _] | [_ N]]); [| discriminate].
      constructor; [| exact R2]. exists resp. split; [reflexivity |].
      apply isError_status. exact E.
    + destruct R1 as [-> _]. exact R2.
Qed.

(** ** Release *)

Lemma forEach_events {A} (body : A -> M unit) (P : Event -> Prop) (Q : Step unit -> Prop)
    (l : list A) :
  Q (Ok tt) ->
  (forall x h m r m' evs, body x h m = (r, m', evs) -> Forall P evs /\ Q r) ->
  forall h m r m' evs, forEach l body h m = (r, m', evs) -> Forall P evs /\ Q r.
Proof.
  intros Q0 B. induction l as [| x l IH]; intros h m r m' evs R.
  - inversion R; subst. split; [constructor | exact Q0].
  - cbn [forEach] in R. apply bind_inv in R.
    destruct R as [(a & m1 & e1 & e2 & R1 & R2 & ->) | [(x0 & R1 & ->) | (R1 & ->)]].
    + destruct (B _ _ _ _ _ _ R1) as [P1 _]. destruct (IH _ _ _ _ _ R2) as [P2 Q2].
      split; [apply Forall_app; auto | exact Q2].
    + apply (B _ _ _ _ _ _ R1).
    + apply (B _ _ _ _ _ _ R1).
Qed.

Lemma releaseValueTarget_inv dbg drv i h m r m' evs :
  releaseValueTarget dbg drv i h m = (r, m', evs) ->
  Forall (fun e => isFree e = true) evs /\ (r = Ok tt \/ r = Abort).
Proof.
  unfold releaseValueTarget, bind, getMachine.
  destruct (nth_error (values m) i) as [v |]; [| intros R; inversion R; auto].
  destruct (m_target v) as [[p |] |]; simpl.
  - unfold CUDAResource_dtor, SLANG_CUDA_ASSERT_ON_FAIL, SLANG_ASSERT_M, bind, call, ret,
      assertFailure.
    destruct (negb (p =? 0)); simpl.
    + match goal with |- context [_isError ?x] => destruct (_isError x) end;
        destruct dbg; simpl; intros R; inversion R; subst; split; auto;
        repeat constructor.
    + intros R; inversion R; subst; auto.
  - intros R; inversion R; subst; auto.
  - intros R; inversion R; subst; auto.
Qed.

Lemma releaseValueTargets_inv dbg drv h m r m' evs :
  releaseValueTargets dbg drv h m = (r, m', evs) ->
  exists frees, evs = EvReleaseValueTargets :: frees /\
                Forall (fun e => isFree e = true) frees /\
                (r = Ok tt \/ r = Abort).
Proof.
  unfold releaseValueTargets. intros R.
  unfold bind at 1, emit at 1 in R. cbn iota beta in R.
  match type of R with
  | context [bind ?c ?k ?h' ?m0] => destruct (bind c k h' m0) as [[r2 m2] e2] eqn:R2
  end.
  inversion R; subst. clear R. exists e2. split; [reflexivity |].
  apply bind_inv in R2.
  destruct R2 as [(a & m1 & e1 & e3 & R1 & R3 & ->) | [(x0 & R1 & ?) | (R1 & ?)]];
    try discriminate.
  inversion R1; subst a m1 e1. clear R1. cbn [app].
  apply (forEach_events (releaseValueTarget dbg drv)
           (fun e => isFree e = true) (fun r => r = Ok tt \/ r = Abort)
           _ (or_introl eq_refl)
           (fun x h1 m1 r1 m1' evs1 => releaseValueTarget_inv dbg drv x h1 m1 r1 m1' evs1)
           _ _ _ _ _ R3).
Qed.

(** ** The allocation pass *)






Lemma skipn_nth_error {A} (l : list A) : forall i x,
  nth_error l i = Some x -> skipn i l = x :: skipn (S i) l.
Proof.
  induction l as [| y l IH]; intros [| i] x H; simpl in *; try discriminate.
  - inversion H. reflexivity.
  - apply IH. exact H.
Qed.



(** ** The second part of [_compute] *)

Lemma setBinding_loop bs : forall h m,
  exists r evs, forEach bs setBinding h m = (r, m, evs) /\
                Forall (fun e => stageOf e = StBind) evs /\
                (r = Ok tt \/ r = Abort).
Proof.
  induction bs as [| b bs IH]; intros h m.
  - exists (Ok tt), []. splits; [reflexivity | constructor | auto].
  - destruct (setBinding_inv b h m) as (r1 & e1 & R1 & P1 & [-> | ->]).
    + destruct (IH (h ++ e1) m) as (r2 & e2 & R2 & P2 & O2).
      exists r2, (e1 ++ e2). cbn [forEach]. rewrite (bind_Ok _ _ _ _ _ _ _ R1), R2.
      splits; [reflexivity | apply Forall_app; auto | exact O2].
    + exists Abort, e1. cbn [forEach]. rewrite (bind_Abort _ _ _ _ _ _ R1).
      splits; auto.
Qed.

Lemma copyAllToDevice_inv dbg drv h m r m' evs :
  copyAllToDevice dbg drv h m = (r, m', evs) ->
  m' = m /\ Forall (fun e => stageOf e = StUpload) evs /\ checkedRun r evs.
Proof.
  unfold copyAllToDevice. intros R. apply bind_inv in R.
  destruct R as [(a & m1 & e1 & e2 & R1 & R2 & ->) | [(x0 & R1 & ?) | (R1 & ?)]];
    try discriminate.
  inversion R1; subst a m1 e1. clear R1. cbn [app].
  apply (forEach_inv (copyToDevice dbg drv) (fun x => x = m)
           (fun e => stageOf e = StUpload) _
           (fun x h0 m0 r0 m0' evs0 _ R0 (I0 : m0 = m) =>
              match copyToDevice_inv dbg drv x h0 m0 r0 m0' evs0 R0 with
              | conj E (conj P C) => conj (eq_trans E I0) (conj P C)
              end)
           _ _ _ _ _ R2 eq_refl).
Qed.

Lemma copyBack_loop_basic dbg drv es h m r m' evs :
  forEach es (copyBack dbg drv) h m = (r, m', evs) ->
  m' = m /\ Forall (fun e => stageOf e = StDownload) evs /\ checkedRun r evs.
Proof.
  intros R.
  apply (forEach_inv (copyBack dbg drv) (fun x => x = m)
           (fun e => stageOf e = StDownload) _
           (fun x h0 m0 r0 m0' evs0 _ R0 (I0 : m0 = m) =>
              match copyBack_basic dbg drv x h0 m0 r0 m0' evs0 R0 with
              | conj E (conj P C) => conj (eq_trans E I0) (conj P C)
              end)
           _ _ _ _ _ R eq_refl).
Qed.

Lemma checkedRun_Ok_clean {A} (a : A) evs : checkedRun (Ok a) evs -> clean evs.
Proof. intros [C _]. apply C. reflexivity. Qed.

Lemma clean_stage evs s :
  s = StBind -> Forall (fun e => stageOf e = s) evs -> clean evs.
Proof.
  intros -> F. induction F as [| e evs He F IH]; constructor; auto.
  destruct e as [c r | |]; try reflexivity.
  destruct c; try discriminate. destruct kind; discriminate.
Qed.

Lemma bind_Ok_inv {A B} (c : M A) (k : A -> M B) h m a m1 e1 r m' evs :
  c h m = (Ok a, m1, e1) ->
  bind c k h m = (r, m', evs) ->
  exists e2, k a (h ++ e1) m1 = (r, m', e2) /\ evs = e1 ++ e2.
Proof.
  intros C R. rewrite (bind_Ok _ _ _ _ _ _ _ C) in R.
  destruct (k a (h ++ e1) m1) as [[r2 m2] e2]. inversion R; subst.
  exists e2. auto.
Qed.

(** Where a run of the second part stands when it ends. *)
Lemma _compute_run_inv dbg drv inp kernel x y z h m r m' evs :
  getComputeThreadGroupSize (getEntryPointByIndex0 inp) = (x, y, z) ->
  _compute_run dbg drv inp kernel 0 h m = (r, m', evs) ->
  let launch :=
    cuLaunchKernel kernel (1, 1, 1) (toUnsigned (toInt x), toUnsigned (toInt y), toUnsigned (toInt z)) 0 0
      [getCUDAData (values m) (getEntryPointValue inp);
       getCUDAData (values m) (getRootValue inp)] 0 in
  exists eB eU eL eD eR,
    evs = eB ++ eU ++ eL ++ eD ++ eR /\
    Forall (fun e => stageOf e = StBind) eB /\
    Forall (fun e => stageOf e = StUpload) eU /\
    Forall (fun e => stageOf e = StLaunch) eL /\
    Forall (fun e => stageOf e = StDownload) eD /\
    Forall (fun e => stageOf e = StRelease) eR /\
    (forall e, In e eL -> isLaunch e = true -> exists resp, e = EvCall launch resp) /\
    (eD <> [] \/ eR <> [] ->
     exists r1 r2 r3 r4,
       eL = [EvCall (cuFuncGetAttribute CU_FUNC_ATTRIBUTE_MAX_THREADS_PER_BLOCK kernel) r1;
             EvCall (cuFuncGetAttribute CU_FUNC_ATTRIBUTE_SHARED_SIZE_BYTES kernel) r2;
             EvCall launch r3; EvCall cudaDeviceSynchronize r4] /\
       _isError r3 = false /\ _isError r4 = false) /\
    ((eR = [] /\ isOk r = false /\ m' = m /\ checkedRun r (eB ++ eU ++ eL ++ eD))
     \/
     (exists frees, eR = EvReleaseValueTargets :: frees /\
        Forall (fun e => isFree e = true) frees /\
        clean (eB ++ eU ++ eL ++ eD) /\
        (r = Ok tt \/ r = Abort) /\
        Forall2 succeeded eD (downloads (values m) (entries inp)))).
Proof.
  intros T R launch. unfold _compute_run in R.
  destruct (setBinding_loop (getBindings inp) h m) as (rB & eB & RB & PB & [-> | ->]).
  2:{ rewrite (bind_Abort _ _ _ _ _ _ RB) in R. inversion R; subst.
      exists evs, [], [], [], []. rewrite !app_nil_r. splits; auto.
      - intros e [].
      - intros [[] | []]; reflexivity.
      - left. splits; auto. apply checkedRun_clean.
        apply (clean_stage evs StBind eq_refl PB). }
  apply (bind_Ok_inv _ _ _ _ _ _ _ _ _ _ RB) in R. destruct R as (e1 & R1 & ->).
  assert (CB : clean eB) by (apply (clean_stage eB StBind eq_refl PB)).
  (* upload *)
  apply bind_inv in R1.
  destruct R1 as [(u & m1 & eU & e2 & RU & R2 & ->) | [(x0 & RU & ->) | (RU & ->)]];
    apply copyAllToDevice_inv in RU; destruct RU as (-> & PU & CU).
  2,3: exists eB, e1, [], [], []; rewrite !app_nil_r; splits; auto;
       [intros e [] | intros [[] | []]; reflexivity |
        left; splits; auto;
        apply (checkedRun_app tt _ eB e1 (checkedRun_clean _ _ CB));
        revert CU; apply checkedRun_retype; reflexivity].
  apply checkedRun_Ok_clean in CU.
  (* launch *)
  apply bind_inv in R2.
  destruct R2 as [(u2 & m2 & eL & e3 & RL & R3 & ->) | [(x0 & RL & ->) | (RL & ->)]];
    apply (launchKernel_inv _ _ _ _ _ _ _ _ _ _ _ _ _ T) in RL;
    destruct RL as (-> & PL & CL & LL & OL).
  2,3: exists eB, eU, e2, [], []; rewrite !app_nil_r; splits; auto;
       [intros [[] | []]; reflexivity |
        left; splits; auto;
        apply (checkedRun_app tt _ eB _ (checkedRun_clean _ _ CB));
        apply (checkedRun_app tt _ eU _ (checkedRun_clean _ _ CU));
        revert CL; apply checkedRun_retype; reflexivity].
  destruct u2. specialize (OL eq_refl). apply checkedRun_Ok_clean in CL.
  (* read-back *)
  apply bind_inv in R3.
  destruct R3 as [(u3 & m3 & eD & e4 & RD & R4 & ->) | [(x0 & RD & ->) | (RD & ->)]];
    pose proof (copyBack_loop_basic _ _ _ _ _ _ _ _ RD) as (-> & PD & CD).
  2,3: exists eB, eU, eL, e3, []; rewrite !app_nil_r; splits; auto;
       left; splits; auto;
       apply (checkedRun_app tt _ eB _ (checkedRun_clean _ _ CB));
       apply (checkedRun_app tt _ eU _ (checkedRun_clean _ _ CU));
       apply (checkedRun_app tt _ eL _ (checkedRun_clean _ _ CL));
       revert CD; apply checkedRun_retype; reflexivity.
  destruct u3. apply copyBack_loop in RD. destruct RD as [_ FD].
  apply checkedRun_Ok_clean in CD.
  (* no stream to destroy, then the release *)
  cbn [Z.eqb negb] in R4.
  apply (bind_Ok_inv _ _ _ _ tt m [] _ _ _ eq_refl) in R4.
  destruct R4 as (e5 & R5 & ->). cbn [app].
  apply releaseValueTargets_inv in R5. destruct R5 as (frees & -> & PF & RF).
  exists eB, eU, eL, eD, (EvReleaseValueTargets :: frees). splits; auto.
  { constructor; [reflexivity |]. revert PF. apply Forall_impl.
    intros e. destruct e as [c r0 | |]; try discriminate.
    destruct c; try discriminate. reflexivity. }
  right. exists frees. splits; auto.
  repeat apply clean_app; assumption.
Qed.

(** ** Setting up: context, module, kernel function, resources *)

Lemma passOK_bind {A B} P (c : M A) (k : A -> M B) :
  passOK P c -> (forall a, passOK P (k a)) -> passOK P (bind c k).
Proof.
  intros C K h m r m' evs R. apply bind_inv in R.
  destruct R as [(a & m1 & e1 & e2 & R1 & R2 & ->) | [(x0 & R1 & ->) | (R1 & ->)]].
  - destruct (C _ _ _ _ _ R1) as [P1 C1]. destruct (K a _ _ _ _ _ R2) as [P2 C2].
    split; [apply Forall_app; auto | apply (checkedRun_app a r e1 e2 C1 C2)].
  - destruct (C _ _ _ _ _ R1) as [P1 C1]. split; [exact P1 |].
    revert C1. apply checkedRun_retype; reflexivity.
  - destruct (C _ _ _ _ _ R1) as [P1 C1]. split; [exact P1 |].
    revert C1. apply checkedRun_retype; reflexivity.
Qed.

Lemma passOK_silent {A} P (c : M A) :
  (forall h m, snd (c h m) = []) -> passOK P c.
Proof.
  intros S h m r m' evs R. specialize (S h m). rewrite R in S. simpl in S. subst evs.
  split; [constructor | apply checkedRun_nil].
Qed.

Lemma passOK_cuda dbg drv P c :
  (forall resp, P (EvCall c resp)) -> passOK P (SLANG_CUDA_RETURN_ON_FAIL dbg drv c).
Proof.
  intros Pc h m r m' evs R. split; [| apply (cuda_call_checked _ _ _ _ _ _ _ _ R)].
  apply cuda_call_inv in R. destruct R as (_ & -> & _). repeat constructor. apply Pc.
Qed.

Lemma passOK_forEach {A} P (body : A -> M unit) l :
  (forall x, passOK P (body x)) -> passOK P (forEach l body).
Proof.
  intros B. induction l as [| x l IH].
  - apply passOK_silent. reflexivity.
  - cbn [forEach]. apply passOK_bind; [apply B | intros _; exact IH].
Qed.

Lemma passOK_weaken {A} (P Q : Event -> Prop) (c : M A) :
  (forall e, P e -> Q e) -> passOK P c -> passOK Q c.
Proof.
  intros W C h m r m' evs R. destruct (C _ _ _ _ _ R) as [F K]. split; [| exact K].
  revert F. apply Forall_impl. exact W.
Qed.

Ltac silent := apply passOK_silent; reflexivity.

Lemma passOK_assert dbg P b : passOK P (SLANG_ASSERT_M dbg b).
Proof. unfold SLANG_ASSERT_M. destruct (dbg && negb b); silent. Qed.

Lemma passOK_deviceLoop dbg drv fuel : forall cur md mp,
  passOK (fun e => stageOf e = StSetup) (deviceLoop dbg drv fuel cur md mp).
Proof.
  induction fuel as [| fuel IH]; intros cur md mp; cbn [deviceLoop]; [silent |].
  do 3 (apply passOK_bind; [apply passOK_cuda; reflexivity | intros ?]).
  destruct (negb (a =? cudaComputeModeProhibited)); [| apply IH].
  apply passOK_bind.
  { destruct ((a0 =? 9999) && (a1 =? 9999)); silent. }
  intros ?.
  do 2 (apply passOK_bind; [apply passOK_cuda; reflexivity | intros ?]).
  destruct (mp <? _); apply IH.
Qed.

Lemma passOK_findMaxFlops dbg drv :
  passOK (fun e => stageOf e = StSetup) (_findMaxFlopsDeviceId dbg drv).
Proof.
  unfold _findMaxFlopsDeviceId.
  apply passOK_bind; [apply passOK_cuda; reflexivity | intros ?].
  apply passOK_bind; [apply passOK_deviceLoop | intros ?].
  destruct (_ <? 0); silent.
Qed.





Lemma passOK_createResources dbg drv :
  passOK (fun e => stageOf e = StAlloc) (createResources dbg drv).
Proof.
  unfold createResources. apply passOK_bind; [silent | intros ?].
  apply passOK_forEach. intros i h m r m' evs R.
  apply createResource_basic in R. destruct R as (F & C & _). auto.
Qed.

(** The first part of [_compute]: it asks for the kernel function and then
    allocates; when it comes through, the machine is the one the allocation
    pass has left, started from the new values of the bind set. *)
Lemma _compute_setup_inv dbg drv module inp h m r m' evs :
  _compute_setup dbg drv module inp h m = (r, m', evs) ->
  Forall (fun e => stageOf e = StSetup \/ stageOf e = StAlloc) evs /\
  checkedRun r evs /\
  (forall kernel, r = Ok kernel ->
     exists respF h1 eA,
       status respF = 0 /\ kernel = out respF /\
       evs = EvCall (cuModuleGetFunction module (getName (getEntryPointByIndex0 inp)))
                    respF :: eA /\
       createResources dbg drv h1
         (withValues m (map (fun v => setTarget v None) (bindSetValues inp)))
         = (Ok tt, m', eA)).
Proof.
  intros R.
  assert (B : Forall (fun e => stageOf e = StSetup \/ stageOf e = StAlloc) evs /\
              checkedRun r evs).
  { revert R. generalize h m r m' evs.
    change (passOK (fun e => stageOf e = StSetup \/ stageOf e = StAlloc)
              (_compute_setup dbg drv module inp)).
    unfold _compute_setup.
    apply passOK_bind; [apply passOK_assert | intros _].
    apply passOK_bind; [apply passOK_cuda; left; reflexivity | intros ?].
    apply passOK_bind; [silent | intros _].
    apply passOK_bind; [unfold SLANG_RETURN_ON_FAIL; destruct (SLANG_FAILED _); silent | intros _].
    apply passOK_bind; [| intros _; silent].
    apply (passOK_weaken (fun e => stageOf e = StAlloc)); [auto |].
    apply passOK_createResources. }
  destruct B as [F C]. split; [exact F |]. split; [exact C |].
  intros kernel ->. unfold _compute_setup in R.
  apply bind_inv in R.
  destruct R as [(u1 & m1 & ea1 & eb1 & R1 & R2 & ->) | [(x0 & R1 & ?) | (R1 & ?)]];
    try discriminate.
  unfold SLANG_ASSERT_M in R1.
  destruct (dbg && negb (getEntryPointCount inp =? 1)); [discriminate |].
  inversion R1; subst u1 m1 ea1. clear R1. cbn [app].
  apply checked_bind in R2.
  destruct R2 as [(_ & N & _) | (E1 & e3 & R & ->)]; [discriminate |].
  apply (bind_Ok_inv _ _ _ _ tt
           (withValues m (map (fun v => setTarget v None) (bindSetValues inp))) []
           _ _ _ eq_refl) in R.
  destruct R as (e4 & R & ->). cbn [app].
  apply bind_inv in R.
  destruct R as [(u2 & m2 & ea2 & eb2 & R1 & R2 & ->) | [(x0 & R1 & ?) | (R1 & ?)]];
    try discriminate.
  unfold SLANG_RETURN_ON_FAIL in R1.
  destruct (SLANG_FAILED (addBindSetValues inp)); [discriminate |].
  inversion R1; subst u2 m2 ea2. clear R1. cbn [app].
  apply bind_inv in R2.
  destruct R2 as [(u3 & m3 & ea3 & eb3 & R1 & R2 & ->) | [(x0 & R1 & ?) | (R1 & ?)]];
    try discriminate.
  inversion R2; subst m3 eb3 kernel. rewrite !app_nil_r in *.
  do 3 eexists. split; [apply isError_status; exact E1 |].
  split; [reflexivity |]. split; [reflexivity |]. destruct u3. exact R1.
Qed.

(** *** The pass, exactly *)













(** ** [_compute] as a whole *)

Lemma toInt_small x : 0 <= x < 2 ^ 31 -> toInt x = x.
Proof.
  intros H. unfold toInt. rewrite Z.mod_small; lia.
Qed.

Lemma filter_none {A} (f : A -> bool) l :
  Forall (fun x => f x = false) l -> filter f l = [].
Proof.
  induction 1 as [| x l Hx _ IH]; simpl; [reflexivity |]. rewrite Hx. exact IH.
Qed.

Lemma Forall2_In_r {A B} (R : A -> B -> Prop) l1 l2 y :
  Forall2 R l1 l2 -> In y l2 -> exists x, In x l1 /\ R x y.
Proof.
  induction 1 as [| a b l1 l2 Hab _ IH]; intros I; [contradiction |].
  destruct I as [<- | I].
  - exists a. split; [left; reflexivity | exact Hab].
  - destruct (IH I) as (x & Ix & Rx). exists x. split; [right; exact Ix | exact Rx].
Qed.

Lemma stage_not_launch e : stageOf e <> StLaunch -> isLaunch e = false.
Proof. destruct e as [c r | |]; try reflexivity. destruct c; try reflexivity. intros N. contradiction N. reflexivity. Qed.

Lemma stage_not_download e : stageOf e <> StDownload -> isDownload e = false.
Proof.
  destruct e as [c r | |]; try reflexivity. destruct c; try reflexivity.
  destruct kind; [reflexivity |]. intros N. contradiction N. reflexivity.
Qed.


Lemma free_stage e : isFree e = true -> stageOf e = StRelease.
Proof. destruct e as [c r | |]; try discriminate. destruct c; try discriminate. reflexivity. Qed.

Lemma Forall_stage_neq (P : Event -> Prop) evs s s' :
  s <> s' -> Forall (fun e => stageOf e = s) evs -> Forall (fun e => stageOf e <> s') evs.
Proof. intros N. apply Forall_impl. intros e ->. exact N. Qed.

Lemma setup_stage_neq evs s' :
  StSetup <> s' -> StAlloc <> s' ->
  Forall (fun e => stageOf e = StSetup \/ stageOf e = StAlloc) evs ->
  Forall (fun e => stageOf e <> s') evs.
Proof. intros N1 N2. apply Forall_impl. intros e [-> | ->]; assumption. Qed.

(** A run of [_compute] is a run of its first part, followed when that came
    through by a run of its second part in the machine the first part left. *)
Lemma _compute_inv dbg drv module inp h m r m' evs :
  _compute dbg drv module inp h m = (r, m', evs) ->
  (exists kernel m1 e1 e2,
      _compute_setup dbg drv module inp h m = (Ok kernel, m1, e1) /\
      _compute_run dbg drv inp kernel 0 (h ++ e1) m1 = (r, m', e2) /\
      evs = e1 ++ e2)
  \/
  (isOk r = false /\
   exists r0, isOk r0 = false /\
              _compute_setup dbg drv module inp h m = (r0, m', evs) /\
              checkedRun r evs).
Proof.
  unfold _compute. intros R. apply bind_inv in R.
  destruct R as [(kernel & m1 & e1 & e2 & R1 & R2 & ->) | [(x0 & R1 & ->) | (R1 & ->)]].
  - left. exists kernel, m1, e1, e2. auto.
  - right. split; [reflexivity |]. exists (Fail x0). split; [reflexivity |].
    split; [exact R1 |]. apply _compute_setup_inv in R1. destruct R1 as (_ & C & _).
    revert C. apply checkedRun_retype; reflexivity.
  - right. split; [reflexivity |]. exists Abort. split; [reflexivity |].
    split; [exact R1 |]. apply _compute_setup_inv in R1. destruct R1 as (_ & C & _).
    revert C. apply checkedRun_retype; reflexivity.
Qed.

Lemma download_In vs es entry i v p :
  In (entry, Some i) es -> isOutput entry = true ->
  nth_error vs i = Some v -> m_target v = Some (CUDAResource p) ->
  m_data v <> 0 -> p <> 0 ->
  In (cudaMemcpy (m_data v) p (m_sizeInBytes v) cudaMemcpyDeviceToHost)
     (downloads vs es).
Proof.
  intros I O N T D P. unfold downloads. apply in_flat_map.
  exists (entry, Some i). split; [exact I |].
  unfold download. rewrite O, N, T.
  apply Z.eqb_neq in D. apply Z.eqb_neq in P. rewrite D, P. left. reflexivity.
Qed.

(** C3, as amended.  In a run of [_compute] that returns [SLANG_OK], after
    the successful [cudaDeviceSynchronize] come exactly the copies the
    entries call for: one device-to-host copy of exactly [m_sizeInBytes]
    bytes into the host data of the buffer value, for every output entry
    whose buffer value exists, has host data and has device memory, in the
    order of the entries; there is no other device-to-host copy in the run.
    The values are those the allocation pass left. *)
Theorem compute_downloads_outputs (dbg : bool) (drv : Driver) (module : Z)
    (inp : Input) (h : list Event) (m m' : Machine) (evs : list Event) :
  _compute dbg drv module inp h m = (Ok tt, m', evs) ->
  exists kernel m1 e1 e2 rs eD e3,
    _compute_setup dbg drv module inp h m = (Ok kernel, m1, e1) /\
    evs = e1 ++ e2 ++ EvCall cudaDeviceSynchronize rs :: eD ++ e3 /\
    status rs = 0 /\
    Forall (fun e => isDownload e = false) (e1 ++ e2 ++ e3) /\
    Forall2 succeeded eD (downloads (values m1) (entries inp)) /\
    (forall entry i v p,
       In (entry, Some i) (entries inp) -> isOutput entry = true ->
       nth_error (values m1) i = Some v -> m_target v = Some (CUDAResource p) ->
       m_data v <> 0 -> p <> 0 ->
       exists e, In e eD /\
         succeeded e (cudaMemcpy (m_data v) p (m_sizeInBytes v)
                                 cudaMemcpyDeviceToHost)).
Proof.
  intros R. apply _compute_inv in R.
  destruct R as [(kernel & m1 & e1 & e2 & RS & RR & ->) | (N & _)]; [| discriminate].
  destruct (getComputeThreadGroupSize (getEntryPointByIndex0 inp)) as [[x y] z] eqn:T.
  apply (_compute_run_inv _ _ _ _ _ _ _ _ _ _ _ _ T) in RR.
  destruct RR as (eB & eU & eL & eD & eR & -> & PB & PU & PL & PD & _ & _ & OL & Cases).
  destruct Cases as [(_ & N & _) | (frees & -> & PF & _ & _ & FD)]; [discriminate |].
  destruct OL as (r1 & r2 & r3 & r4 & -> & _ & E4); [right; discriminate |].
  apply _compute_setup_inv in RS as RS'. destruct RS' as (PS & _ & _).
  exists kernel, m1, e1.
  eexists (eB ++ eU ++ [_; _; _]), r4, eD, (EvReleaseValueTargets :: frees).
  split; [exact RS |]. split.
  { rewrite <- !app_assoc. reflexivity. }
  split; [apply isError_status; exact E4 |]. split.
  { apply Forall_app. split; [| apply Forall_app; split;
                                  [apply Forall_app; split;
                                   [| apply Forall_app; split] |]].
    - revert PS. apply Forall_impl. intros e [S | S]; apply stage_not_download;
        rewrite S; discriminate.
    - revert PB. apply Forall_impl. intros e S. apply stage_not_download.
      rewrite S. discriminate.
    - revert PU. apply Forall_impl. intros e S. apply stage_not_download.
      rewrite S. discriminate.
    - repeat constructor.
    - constructor; [reflexivity |]. revert PF. apply Forall_impl.
      intros e S. apply stage_not_download. rewrite (free_stage e S). discriminate. }
  split; [exact FD |].
  intros entry i v p I O Nv Tv D P.
  destruct (Forall2_In_r _ _ _ _ FD (download_In _ _ _ _ _ _ I O Nv Tv D P))
    as (e & Ie & Se).
  exists e. auto.
Qed.

Lemma identityRun_eq :
  _compute true (deviceDriver []) 77 (identityInput 1) [] emptyMachine = identityRun.
Proof. vm_compute. reflexivity. Qed.

Lemma textureRun_eq :
  _compute false (deviceDriver []) 77 textureInput [] emptyMachine = textureRun.
Proof. vm_compute. reflexivity. Qed.

Lemma compute_downloads_outputs_witness :
  exists kernel m1 e1 e2 rs eD e3,
    _compute_setup true (deviceDriver []) 77 (identityInput 1) [] emptyMachine
      = (Ok kernel, m1, e1) /\
    snd identityRun = e1 ++ e2 ++ EvCall cudaDeviceSynchronize rs :: eD ++ e3 /\
    status rs = 0 /\
    Forall (fun e => isDownload e = false) (e1 ++ e2 ++ e3) /\
    Forall2 succeeded eD (downloads (values m1) (entries (identityInput 1))) /\
    (forall entry i v p,
       In (entry, Some i) (entries (identityInput 1)) -> isOutput entry = true ->
       nth_error (values m1) i = Some v -> m_target v = Some (CUDAResource p) ->
       m_data v <> 0 -> p <> 0 ->
       exists e, In e eD /\
         succeeded e (cudaMemcpy (m_data v) p (m_sizeInBytes v)
                                 cudaMemcpyDeviceToHost)).
Proof.
  apply (compute_downloads_outputs true (deviceDriver []) 77 (identityInput 1)
           [] emptyMachine (snd (fst identityRun)) (snd identityRun) identityRun_eq).
Defined.

(** C3 as stated fails: both entries of the test are outputs, the value of
    the first is a 2D texture with 64 bytes of host data, the second has no
    value; the run returns [SLANG_OK] and makes no device-to-host copy at
    all. *)
Lemma compute_output_texture_not_copied :
  fst (fst (_compute false (deviceDriver []) 77 textureInput [] emptyMachine)) = Ok tt /\
  entries textureInput = [ ({| isOutput := true |}, Some 1%nat);
                            ({| isOutput := true |}, None) ] /\
  nth_error (bindSetValues textureInput) 1 = Some (valueOf (Some texture2D) 64 7100 0) /\
  existsb isDownload
    (snd (_compute false (deviceDriver []) 77 textureInput [] emptyMachine)) = false.
Proof.
  rewrite textureRun_eq.
  split; [reflexivity |]. split; [reflexivity |]. split; reflexivity.
Qed.

Lemma toUnsigned_toInt x : toUnsigned (toInt x) = x mod 2 ^ 32.
Proof.
  unfold toUnsigned, toInt. rewrite Zminus_mod_idemp_l. f_equal. lia.
Qed.

Lemma getCUDAData_devicePointer vs value :
  getCUDAData vs value = devicePointer vs value.
Proof.
  unfold getCUDAData, devicePointer. destruct value as [i |]; [| reflexivity].
  destruct (nth_error vs i) as [v |]; [| reflexivity].
  destruct (m_target v) as [[p |] |]; reflexivity.
Qed.

(** C7, as amended.  Every [cuLaunchKernel] of a run of [_compute] is given
    the kernel function that [cuModuleGetFunction] returned, the grid
    (1, 1, 1), as block dimensions the three thread-group sizes of the entry
    point reduced to 32 bits, shared memory size 0, the null stream, and as
    its arguments the device pointer of the entry-point value followed by
    that of the root value (of the values as the allocation pass left them;
    null where there is no device memory); a run that returns [SLANG_OK] has
    launched exactly once. *)
Theorem compute_launch_configuration (dbg : bool) (drv : Driver) (module : Z)
    (inp : Input) (x y z : Z) (h : list Event) (m : Machine)
    (r : Step unit) (m' : Machine) (evs : list Event) :
  getComputeThreadGroupSize (getEntryPointByIndex0 inp) = (x, y, z) ->
  _compute dbg drv module inp h m = (r, m', evs) ->
  (forall e, In e evs -> isLaunch e = true ->
     exists rf eA m1 rest resp,
       evs = EvCall (cuModuleGetFunction module (getName (getEntryPointByIndex0 inp))) rf
               :: eA ++ rest /\
       _compute_setup dbg drv module inp h m
         = (Ok (out rf),  m1,
            EvCall (cuModuleGetFunction module (getName (getEntryPointByIndex0 inp))) rf
              :: eA) /\
       e = EvCall (cuLaunchKernel (out rf) (1, 1, 1)
                     (x mod 2 ^ 32, y mod 2 ^ 32, z mod 2 ^ 32) 0 0
                     [devicePointer (values m1) (getEntryPointValue inp);
                      devicePointer (values m1) (getRootValue inp)] 0) resp) /\
  (r = Ok tt -> length (filter isLaunch evs) = 1%nat).
Proof.
  intros T R. apply _compute_inv in R.
  destruct R as [(kernel & m1 & e1 & e2 & RS & RR & ->) | (N & r0 & N0 & RS & _)].
  2:{ apply _compute_setup_inv in RS. destruct RS as (PS & _ & _). split.
      - intros e I L. exfalso. rewrite Forall_forall in PS.
        destruct (PS e I) as [S | S]; rewrite (stage_not_launch e) in L;
          try discriminate; rewrite S; discriminate.
      - intros ->. discriminate. }
  apply _compute_setup_inv in RS as RS'. destruct RS' as (PS & _ & Sh).
  destruct (Sh kernel eq_refl) as (rf & h1 & eA & _ & -> & -> & _).
  apply (_compute_run_inv _ _ _ _ _ _ _ _ _ _ _ _ T) in RR.
  rewrite !toUnsigned_toInt, !getCUDAData_devicePointer in RR.
  destruct RR as (eB & eU & eL & eD & eR & -> & PB & PU & PL & PD & PR & LL & OL & Cases).
  assert (NS : Forall (fun e => isLaunch e = false)
                 (EvCall (cuModuleGetFunction module (getName (getEntryPointByIndex0 inp))) rf
                    :: eA)).
  { revert PS. apply Forall_impl. intros e [S | S]; apply stage_not_launch;
      rewrite S; discriminate. }
  assert (NB : Forall (fun e => isLaunch e = false) eB).
  { revert PB. apply Forall_impl. intros e S. apply stage_not_launch. rewrite S. discriminate. }
  assert (NU : Forall (fun e => isLaunch e = false) eU).
  { revert PU. apply Forall_impl. intros e S. apply stage_not_launch. rewrite S. discriminate. }
  assert (ND : Forall (fun e => isLaunch e = false) eD).
  { revert PD. apply Forall_impl. intros e S. apply stage_not_launch. rewrite S. discriminate. }
  assert (NR : Forall (fun e => isLaunch e = false) eR).
  { revert PR. apply Forall_impl. intros e S. apply stage_not_launch. rewrite S. discriminate. }
  split.
  - intros e I L.
    assert (IL : In e eL).
    { rewrite Forall_forall in NS, NB, NU, ND, NR.
      repeat (apply in_app_or in I; destruct I as [I | I]);
        try exact I; exfalso;
        match goal with
        | H : forall x, In x ?l -> isLaunch x = false, I : In e ?l |- _ =>
            rewrite (H e I) in L; discriminate
        end. }
    destruct (LL e IL L) as (resp & ->).
    exists rf, eA, m1, (eB ++ eU ++ eL ++ eD ++ eR), resp.
    splits; [reflexivity | exact RS | reflexivity].
  - intros ->.
    destruct Cases as [(_ & N & _) | (frees & -> & _)]; [discriminate |].
    destruct OL as (r1 & r2 & r3 & r4 & -> & _ & _); [right; discriminate |].
    rewrite !filter_app.
    rewrite (filter_none _ _ NS), (filter_none _ _ NB), (filter_none _ _ NU),
      (filter_none _ _ ND), (filter_none _ _ NR).
    reflexivity.
Qed.

Lemma compute_launch_configuration_witness :
  exists rf eA m1 rest resp,
    snd identityRun
      = EvCall (cuModuleGetFunction 77 "main") rf :: eA ++ rest /\
    _compute_setup true (deviceDriver []) 77 (identityInput 1) [] emptyMachine
      = (Ok (out rf), m1, EvCall (cuModuleGetFunction 77 "main") rf :: eA) /\
    EvCall (cuLaunchKernel 4096 (1, 1, 1) (8, 1, 1) 0 0 [0; 4097] 0)
           {| status := 0; out := 4107 |}
      = EvCall (cuLaunchKernel (out rf) (1, 1, 1)
                  (8 mod 2 ^ 32, 1 mod 2 ^ 32, 1 mod 2 ^ 32) 0 0
                  [devicePointer (values m1) (getEntryPointValue (identityInput 1));
                   devicePointer (values m1) (getRootValue (identityInput 1))] 0) resp.
Proof.
  apply (proj1 (compute_launch_configuration true (deviceDriver []) 77
                  (identityInput 1) 8 1 1 [] emptyMachine
                  (fst (fst identityRun)) (snd (fst identityRun)) (snd identityRun)
                  eq_refl identityRun_eq)).
  - vm_compute. do 11 right. left. reflexivity.
  - reflexivity.
Defined.

Lemma wideGroupRun_eq :
  _compute false (deviceDriver []) 77 wideGroupInput [] emptyMachine = wideGroupRun.
Proof. vm_compute. reflexivity. Qed.

(** C7 as stated fails: the thread-group size along x is 2^32 + 8, the run
    returns [SLANG_OK], and the block dimension of its launch is 8. *)
Lemma compute_wide_group_truncated :
  getComputeThreadGroupSize (getEntryPointByIndex0 wideGroupInput) = (2 ^ 32 + 8, 1, 1) /\
  fst (fst (_compute false (deviceDriver []) 77 wideGroupInput [] emptyMachine)) = Ok tt /\
  filter isLaunch (snd (_compute false (deviceDriver []) 77 wideGroupInput [] emptyMachine))
    = [EvCall (cuLaunchKernel 4096 (1, 1, 1) (8, 1, 1) 0 0 [0; 4097] 0)
              {| status := 0; out := 4107 |}].
Proof.
  rewrite wideGroupRun_eq. split; [reflexivity |]. split; reflexivity.
Qed.

(** ** [execute] *)

Lemma app_eq_split {A} (x y : A) : forall l1 l2 l3 l4,
  l1 ++ x :: l2 = l3 ++ y :: l4 ->
  (l1 = l3 /\ x = y /\ l2 = l4) \/
  (exists mid, l3 = l1 ++ x :: mid /\ l2 = mid ++ y :: l4) \/
  (exists mid, l1 = l3 ++ y :: mid /\ l4 = mid ++ x :: l2).
Proof.
  induction l1 as [| a l1 IH]; intros l2 l3 l4 E.
  - destruct l3 as [| b l3]; simpl in E; inversion E; subst.
    + left. auto.
    + right. left. exists l3. auto.
  - destruct l3 as [| b l3]; simpl in E; inversion E; subst.
    + right. right. exists l1. auto.
    + destruct (IH _ _ _ H1) as [(-> & -> & ->) | [(mid & -> & ->) | (mid & -> & ->)]].
      * left. auto.
      * right. left. exists mid. auto.
      * right. right. exists mid. auto.
Qed.

Lemma clean_In evs e : clean evs -> In e evs -> bad e = false.
Proof. intros C I. unfold clean in C. rewrite Forall_forall in C. auto. Qed.





Lemma noRelease_app a b : noRelease a -> noRelease b -> noRelease (a ++ b).
Proof. intros A B. apply Forall_app. auto. Qed.

(** A bad event of a checked run is its last event. *)
Lemma bad_is_last p0 tl d pre e post :
  p0 ++ tl ++ d = pre ++ e :: post ->
  clean p0 -> (length tl <= 1)%nat -> clean d -> bad e = true ->
  pre = p0 /\ tl = [e] /\ post = d.
Proof.
  intros E C0 L Cd B.
  destruct tl as [| t [| t' tl]]; simpl in L; try lia.
  - exfalso. simpl in E.
    assert (I : In e (p0 ++ d)) by (rewrite E; apply in_elt).
    apply in_app_or in I. destruct I as [I | I].
    + rewrite (clean_In _ _ C0 I) in B. discriminate.
    + rewrite (clean_In _ _ Cd I) in B. discriminate.
  - simpl in E.
    destruct (app_eq_split _ _ _ _ _ _ E) as [(-> & -> & ->) | [(mid & -> & ->) | (mid & -> & ->)]].
    + auto.
    + exfalso. assert (I : In e (mid ++ e :: post)) by apply in_elt.
      rewrite (clean_In _ _ Cd I) in B. discriminate.
    + exfalso. assert (I : In e (pre ++ e :: mid)) by apply in_elt.
      rewrite (clean_In _ _ C0 I) in B. discriminate.
Qed.

Lemma stopped_prefix {A} (r : Step A) p e :
  clean p -> noRelease p -> stoppedBeforeRelease r e -> stoppedBeforeRelease r (p ++ e).
Proof.
  intros C N (O & eb & ed & -> & K & NR & D). split; [exact O |].
  exists (p ++ eb), ed. rewrite app_assoc. splits; auto.
  - apply (checkedRun_app tt r p eb (checkedRun_clean _ _ C) K).
  - apply noRelease_app; assumption.
Qed.


Lemma stopped_of_checked {A} (r : Step A) evs :
  isOk r = false -> checkedRun r evs -> noRelease evs -> stoppedBeforeRelease r evs.
Proof.
  intros O K N. split; [exact O |]. exists evs, []. rewrite app_nil_r. splits; auto.
Qed.


(** [_compute] either stops before the release, or comes to it, and then
    ends with the frees. *)
Lemma _compute_shape dbg drv module inp h m r m' evs :
  _compute dbg drv module inp h m = (r, m', evs) ->
  stoppedBeforeRelease r evs \/
  ((r = Ok tt \/ r = Abort) /\
   exists pre frees,
     evs = pre ++ EvReleaseValueTargets :: frees /\
     clean pre /\ noRelease pre /\ Forall (fun e => isFree e = true) frees).
Proof.
  intros R. apply _compute_inv in R.
  destruct R as [(kernel & m1 & e1 & e2 & RS & RR & ->) | (N & r0 & N0 & RS & K)].
  2:{ left. apply stopped_of_checked; auto.
      apply _compute_setup_inv in RS. destruct RS as (PS & _ & _).
      apply (setup_stage_neq _ StRelease); [discriminate | discriminate | exact PS]. }
  apply _compute_setup_inv in RS. destruct RS as (PS & KS & _).
  apply checkedRun_Ok_clean in KS.
  assert (NS : noRelease e1).
  { apply (setup_stage_neq _ StRelease); [discriminate | discriminate | exact PS]. }
  destruct (getComputeThreadGroupSize (getEntryPointByIndex0 inp)) as [[x y] z] eqn:T.
  apply (_compute_run_inv _ _ _ _ _ _ _ _ _ _ _ _ T) in RR.
  destruct RR as (eB & eU & eL & eD & eR & -> & PB & PU & PL & PD & PR & _ & _ & Cases).
  assert (NM : noRelease (eB ++ eU ++ eL ++ eD)).
  { repeat apply noRelease_app.
    - revert PB. apply Forall_impl. intros e ->. discriminate.
    - revert PU. apply Forall_impl. intros e ->. discriminate.
    - revert PL. apply Forall_impl. intros e ->. discriminate.
    - revert PD. apply Forall_impl. intros e ->. discriminate. }
  destruct Cases as [(-> & N & _ & K) | (frees & -> & PF & C & RC & _)].
  - left. rewrite app_nil_r. apply stopped_prefix; auto.
    apply stopped_of_checked; auto.
  - right. split; [exact RC |].
    exists (e1 ++ eB ++ eU ++ eL ++ eD), frees.
    rewrite <- !app_assoc. splits; auto.
    + apply clean_app; [exact KS |]. rewrite !app_assoc in *. exact C.
    + apply noRelease_app; [exact NS |]. rewrite !app_assoc in *. exact NM.
Qed.






Lemma isOk_false_neq (r : Step unit) : isOk r = false -> r <> Ok tt.
Proof. intros O ->. discriminate. Qed.

Lemma failingRun_eq :
  execute false (failingOn memcpyFails (deviceDriver [gtx1080]))
    (identityInput 1) [] emptyMachine = failingRun.
Proof. vm_compute. reflexivity. Qed.

Lemma twoEntryPointsRun_eq :
  execute false (deviceDriver [gtx1080]) (identityInput 2) [] emptyMachine
    = twoEntryPointsRun.
Proof. vm_compute. reflexivity. Qed.

(** C1, at the failing input.  With assertions compiled out and a reflection
    that reports two entry points, [execute] does not fail: it allocates
    device memory and returns [SLANG_OK]. *)
Theorem execute_two_entry_points_not_rejected :
  getEntryPointCount (identityInput 2) = 2 /\
  fst (fst (execute false (deviceDriver [gtx1080]) (identityInput 2) [] emptyMachine))
    = Ok tt /\
  existsb isMallocOk
    (snd (execute false (deviceDriver [gtx1080]) (identityInput 2) [] emptyMachine))
    = true.
Proof.
  rewrite twoEntryPointsRun_eq. split; [reflexivity |]. split; reflexivity.
Qed.

(** * The rest of the file *)

(** ** Cores per multiprocessor, continued *)

Lemma lookupSM_values s c :
  lookupSM infos s = Some c -> c = 64 \/ c = 128 \/ c = 192.
Proof.
  unfold infos. cbn [lookupSM sm coreCount].
  repeat match goal with
         | |- (if ?b then _ else _) = _ -> _ =>
             destruct b; [intros H; inversion H; auto |]
         end.
  discriminate.
Qed.

(** Whatever the capability pair, a core count the function returns is 64,
    128 or 192. *)
Theorem calcSMCount_range (dbg : bool) (major minor c : Z) :
  _calcSMCountPerMultiProcessor dbg major minor = Ok c ->
  c = 64 \/ c = 128 \/ c = 192.
Proof.
  unfold _calcSMCountPerMultiProcessor, SLANG_ASSERT.
  destruct (lookupSM infos (smOf major minor)) as [c' |] eqn:L.
  - intros H. inversion H; subst. apply (lookupSM_values _ _ L).
  - destruct (dbg && negb (coreCount lastInfo <? smOf major minor));
      [discriminate |].
    intros H. inversion H. left. reflexivity.
Qed.

Lemma calcSMCount_range_witness :
  _calcSMCountPerMultiProcessor true 6 1 = Ok 128 /\
  (128 = 64 \/ 128 = 128 \/ 128 = 192).
Proof.
  split; [reflexivity |].
  apply (calcSMCount_range true 6 1 128). reflexivity.
Defined.

(** ** The score *)

Lemma coresPerSM_range d : 1 <= coresPerSM d <= 192.
Proof.
  unfold coresPerSM. destruct ((major d =? 9999) && (minor d =? 9999)); [lia |].
  destruct (lookupSM infos (smOf (major d) (minor d))) as [c |] eqn:L.
  - destruct (lookupSM_values _ _ L) as [-> | [-> | ->]]; lia.
  - rewrite lastInfo_eq. simpl. lia.
Qed.

(** For a device whose multiprocessor count and clock rate are not negative
    and have a product below 2^56, the 64-bit score is the product
    [multiProcessorCount * coresPerSM * clockRate] itself: nothing wraps. *)
Theorem perfOf_exact (d : Device) :
  0 <= multiProcessorCount d -> 0 <= clockRate d ->
  multiProcessorCount d * clockRate d < 2 ^ 56 ->
  perfOf d = multiProcessorCount d * coresPerSM d * clockRate d.
Proof.
  intros Hm Hc Hp. unfold perfOf. apply compute_perf_exact.
  pose proof (coresPerSM_range d) as Hk.
  assert (E : multiProcessorCount d * coresPerSM d * clockRate d
              = coresPerSM d * (multiProcessorCount d * clockRate d)) by ring.
  rewrite E.
  assert (0 <= multiProcessorCount d * clockRate d) by (apply Z.mul_nonneg_nonneg; lia).
  split; [apply Z.mul_nonneg_nonneg; lia |].
  apply Z.le_lt_trans with (192 * (multiProcessorCount d * clockRate d)).
  - apply Z.mul_le_mono_nonneg_r; lia.
  - replace (2 ^ 64) with (256 * 2 ^ 56) by reflexivity. lia.
Qed.

Lemma perfOf_exact_witness : perfOf gtx1080 = 20 * 128 * 1733000.
Proof.
  apply (perfOf_exact gtx1080); simpl; lia.
Defined.

(** ** Device selection with any driver *)

Lemma deviceLoop_general dbg drv fuel : forall cur md mp h m r m' evs,
  deviceLoop dbg drv fuel cur md mp h m = (r, m', evs) ->
  m' = m /\ Forall (fun e => isDeviceQuery e = true) evs /\
  (forall md', r = Ok md' -> md' = md \/ cur <= md' < cur + Z.of_nat fuel).
Proof.
  induction fuel as [| fuel IH]; intros cur md mp h m r m' evs R.
  - inversion R; subst. splits; auto. intros md' H. inversion H. auto.
  - cbn [deviceLoop] in R.
    assert (Fin : forall md0 mp0 h0 r0 m0 e0,
              deviceLoop dbg drv fuel (cur + 1) md0 mp0 h0 m = (r0, m0, e0) ->
              md0 = md \/ md0 = cur ->
              m0 = m /\ Forall (fun e => isDeviceQuery e = true) e0 /\
              (forall md', r0 = Ok md' ->
                 md' = md \/ cur <= md' < cur + Z.of_nat (S fuel))).
    { intros md0 mp0 h0 r0 m0 e0 R0 Hmd. apply IH in R0.
      destruct R0 as (-> & F & B). splits; auto.
      intros md' H. destruct (B md' H) as [-> | B']; [| lia].
      destruct Hmd as [-> | ->]; [auto | lia]. }
    apply checked_bind in R.
    destruct R as [(_ & N & -> & -> & _) | (_ & e2 & R & ->)].
    { splits; [reflexivity | repeat constructor | intros ? ->; discriminate]. }
    apply checked_bind in R.
    destruct R as [(_ & N & -> & -> & _) | (_ & e3 & R & ->)].
    { splits; [reflexivity | repeat constructor | intros ? ->; discriminate]. }
    apply checked_bind in R.
    destruct R as [(_ & N & -> & -> & _) | (_ & e4 & R & ->)].
    { splits; [reflexivity | repeat constructor | intros ? ->; discriminate]. }
    match type of R with
    | context [negb (?mode =? cudaComputeModeProhibited)] =>
        destruct (negb (mode =? cudaComputeModeProhibited))
    end.
    2:{ apply Fin in R; [| auto]. destruct R as (-> & F & B).
        splits; [reflexivity | repeat (constructor; [reflexivity |]); exact F | exact B]. }
    apply bind_inv in R.
    destruct R as [(sm0 & m1 & e5 & e6 & R1 & R & ->) | [(x0 & R1 & ->) | (R1 & ->)]].
    + assert (E1 : m1 = m /\ e5 = []).
      { match type of R1 with
        | (if ?b then _ else _) _ _ = _ => destruct b
        end; inversion R1; auto. }
      destruct E1 as [-> ->]. cbn [app].
      apply checked_bind in R.
      destruct R as [(_ & N & -> & -> & _) | (_ & e7 & R & ->)].
      { splits; [reflexivity | repeat constructor | intros ? ->; discriminate]. }
      apply checked_bind in R.
      destruct R as [(_ & N & -> & -> & _) | (_ & e8 & R & ->)].
      { splits; [reflexivity | repeat constructor | intros ? ->; discriminate]. }
      match type of R with
      | (if ?b then _ else _) _ _ = _ => destruct b
      end; (apply Fin in R; [| auto]); destruct R as (-> & F & B);
        (splits; [reflexivity | repeat (constructor; [reflexivity |]); exact F | exact B]).
    + assert (E1 : m' = m /\ e4 = []).
      { match type of R1 with
        | (if ?b then _ else _) _ _ = _ => destruct b
        end; inversion R1; auto. }
      destruct E1 as [-> ->].
      splits; [reflexivity | repeat constructor | intros ? H; discriminate].
    + assert (E1 : m' = m /\ e4 = []).
      { match type of R1 with
        | (if ?b then _ else _) _ _ = _ => destruct b
        end; inversion R1; auto. }
      destruct E1 as [-> ->].
      splits; [reflexivity | repeat constructor | intros ? H; discriminate].
Qed.

Lemma deviceQuery_bad e : isDeviceQuery e = true -> bad e = failedCall e.
Proof.
  destruct e as [c r | |]; try discriminate. destruct c; try discriminate;
    intros _; unfold bad; simpl; apply Bool.andb_true_r.
Qed.

Lemma findMaxFlops_run (dbg : bool) (drv : Driver) (h : list Event)
    (m : Machine) (r : Step Z) (m' : Machine) (evs : list Event) :
  _findMaxFlopsDeviceId dbg drv h m = (r, m', evs) ->
  m' = m /\
  Forall (fun e => isDeviceQuery e = true) evs /\
  (forall pre e post, evs = pre ++ e :: post -> failedCall e = true ->
     post = [] /\ isOk r = false) /\
  (forall i, r = Ok i -> 0 <= i < out (drv h cudaGetDeviceCount)).
Proof.
  intros R.
  pose proof (passOK_findMaxFlops dbg drv _ _ _ _ _ R) as (_ & K).
  unfold _findMaxFlopsDeviceId in R.
  assert (Main : m' = m /\ Forall (fun e => isDeviceQuery e = true) evs /\
                 (forall i, r = Ok i -> 0 <= i < out (drv h cudaGetDeviceCount))).
  { apply checked_bind in R.
    destruct R as [(_ & N & -> & -> & _) | (_ & e2 & R & ->)].
    { splits; auto. intros i ->. discriminate. }
    apply bind_inv in R.
    destruct R as [(md & m1 & e3 & e4 & R1 & R & ->) | [(x0 & R1 & ->) | (R1 & ->)]];
      apply deviceLoop_general in R1; destruct R1 as (-> & F & B).
    - destruct (md <? 0) eqn:E; inversion R; subst; rewrite app_nil_r;
        (splits; [reflexivity | constructor; [reflexivity | exact F] |]).
      + intros i H. discriminate.
      + intros i H. inversion H; subst i. apply Z.ltb_ge in E.
        destruct (B md eq_refl) as [-> | B']; [lia |].
        lia.
    - splits; auto. intros i H. discriminate.
    - splits; auto. intros i H. discriminate. }
  destruct Main as (Em & F & B). splits; auto.
  intros pre e post E Fe.
  assert (Be : bad e = true).
  { rewrite deviceQuery_bad; [exact Fe |].
    rewrite Forall_forall in F. apply F. rewrite E. apply in_elt. }
  destruct K as (KO & p0 & tl & E0 & C0 & L).
  split.
  - rewrite E0 in E. rewrite <- (app_nil_r tl) in E.
    destruct (bad_is_last _ _ _ _ _ _ E C0 L clean_nil Be) as (_ & _ & ->).
    reflexivity.
  - destruct (isOk r) eqn:O; [| reflexivity]. exfalso.
    specialize (KO eq_refl).
    assert (I : In e evs) by (rewrite E; apply in_elt).
    rewrite (clean_In _ _ KO I) in Be. discriminate.
Qed.

(** Device selection, whatever the driver answers: it only queries (the
    device count and device attributes) and leaves the machine as it was; a
    query that fails is the last call it makes and no device is returned;
    and a device it returns is one of those the driver counted. *)
Theorem findMaxFlops_queries_only (dbg : bool) (drv : Driver) (h : list Event)
    (m : Machine) (r : Step Z) (m' : Machine) (evs : list Event) :
  _findMaxFlopsDeviceId dbg drv h m = (r, m', evs) ->
  m' = m /\
  Forall (fun e => isDeviceQuery e = true) evs /\
  (forall pre e post, evs = pre ++ e :: post -> failedCall e = true ->
     post = [] /\ isOk r = false) /\
  (forall i, r = Ok i -> 0 <= i < out (drv h cudaGetDeviceCount)).
Proof. exact (findMaxFlops_run dbg drv h m r m' evs). Qed.

Lemma findMaxFlops_queries_only_witness :
  let run := _findMaxFlopsDeviceId true (deviceDriver [prohibited fermi; gtx1080])
               [] emptyMachine in
  Forall (fun e => isDeviceQuery e = true) (snd run) /\
  (forall i, fst (fst run) = Ok i -> 0 <= i < 2).
Proof.
  intros run.
  destruct (findMaxFlops_queries_only true (deviceDriver [prohibited fermi; gtx1080])
              [] emptyMachine (fst (fst run)) (snd (fst run)) (snd run) eq_refl)
    as (_ & F & _ & B).
  split; [exact F | exact B].
Defined.

(** ** What each part can emit, and who touches the context *)

Lemma emits_bind {A B} P (c : M A) (k : A -> M B) :
  emits P c -> (forall a, emits P (k a)) -> emits P (bind c k).
Proof.
  intros C K h m. unfold bind. specialize (C h m).
  destruct (c h m) as [[r m1] e1]. simpl in C. destruct r as [a | x |]; simpl; auto.
  specialize (K a (h ++ e1) m1). destruct (k a (h ++ e1) m1) as [[r2 m2] e2].
  simpl in *. apply Forall_app. auto.
Qed.

Lemma emits_forEach {A} P (body : A -> M unit) l :
  (forall x, emits P (body x)) -> emits P (forEach l body).
Proof.
  intros B. induction l as [| x l IH]; [intros h m; constructor |].
  cbn [forEach]. apply emits_bind; [apply B | intros _; exact IH].
Qed.

Lemma emits_finally {A} P (body : M A) cleanup :
  emits P body -> emits P cleanup -> emits P (finally body cleanup).
Proof.
  intros B C h m. unfold finally. specialize (B h m).
  destruct (body h m) as [[r m1] e1]. simpl in B.
  specialize (C (h ++ e1) m1).
  destruct (cleanup (h ++ e1) m1) as [[r2 m2] e2]. simpl in C.
  destruct r; simpl; auto; apply Forall_app; auto.
Qed.

Lemma emits_resultOf P (c : M unit) : emits P c -> emits P (resultOf c).
Proof.
  intros C h m. unfold resultOf. specialize (C h m).
  destruct (c h m) as [[r m1] e1]. exact C.
Qed.

Lemma emits_weaken {A} (P Q : Event -> Prop) (c : M A) :
  (forall e, P e -> Q e) -> emits P c -> emits Q c.
Proof. intros W C h m. specialize (C h m). revert C. apply Forall_impl. exact W. Qed.

(** A step without events, or with events that are in [P] by computation. *)
Ltac quietly := solve [intros ? ?; simpl; repeat constructor].

Lemma emits_cudaReturnOnFail dbg P b : emits P (cudaReturnOnFail dbg b).
Proof. destruct b, dbg; quietly. Qed.

Lemma emits_cuda dbg drv P c :
  (forall resp, P (EvCall c resp)) -> emits P (SLANG_CUDA_RETURN_ON_FAIL dbg drv c).
Proof.
  intros Pc. unfold SLANG_CUDA_RETURN_ON_FAIL.
  apply emits_bind; [intros h m; simpl; constructor; [apply Pc | constructor] | intros r].
  apply emits_bind; [apply emits_cudaReturnOnFail | intros _; quietly].
Qed.

Lemma emits_assert dbg P b : emits P (SLANG_ASSERT_M dbg b).
Proof. unfold SLANG_ASSERT_M. destruct (dbg && negb b); quietly. Qed.

Lemma emits_findMaxFlops dbg drv :
  emits (fun e => isDeviceQuery e = true) (_findMaxFlopsDeviceId dbg drv).
Proof.
  intros h m. destruct (_findMaxFlopsDeviceId dbg drv h m) as [[r m'] evs] eqn:R.
  apply findMaxFlops_run in R. simpl. apply R.
Qed.

Lemma emits_initCuda dbg drv :
  emits (fun e => isInitCall e = true) (_initCuda dbg drv).
Proof.
  unfold _initCuda. apply emits_bind; [quietly | intros m0].
  apply emits_bind; [| intros ?; apply emits_cudaReturnOnFail].
  destruct (cuInit_res m0); [quietly |].
  apply emits_bind; [quietly | intros ?]. apply emits_bind; quietly.
Qed.

Lemma emits_recreateContext drv flags device :
  emits (fun e => isInitCall e = true) (recreateContext drv flags device).
Proof.
  unfold recreateContext. apply emits_bind; [quietly | intros m0].
  apply emits_bind.
  { destruct (negb (m_context m0 =? 0)); [| quietly].
    apply emits_bind; [quietly | intros ?; quietly]. }
  intros _. apply emits_bind; [quietly | intros r].
  apply emits_bind; [quietly | intros _]. destruct (_isError r); quietly.
Qed.

Lemma emits_init dbg drv flags :
  emits (fun e => isInitCall e = true) (ScopeCUDAContext_init dbg drv flags).
Proof.
  unfold ScopeCUDAContext_init.
  apply emits_bind; [apply emits_initCuda | intros _].
  apply emits_bind.
  { apply (emits_weaken (fun e => isDeviceQuery e = true)); [| apply emits_findMaxFlops].
    intros e. destruct e as [c r | |]; try discriminate. destruct c; auto. }
  intros ?. apply emits_bind; [apply emits_cuda; reflexivity | intros ?].
  apply emits_recreateContext.
Qed.

Lemma emits_dtor drv :
  emits (fun e => isCtxDestroy e = true) (ScopeCUDAContext_dtor drv).
Proof.
  unfold ScopeCUDAContext_dtor. apply emits_bind; [quietly | intros m0].
  destruct (negb (m_context m0 =? 0)); [| quietly].
  apply emits_bind; quietly.
Qed.

Lemma emits_compute dbg drv module inp :
  emits (fun e => isComputeEvent e = true) (_compute dbg drv module inp).
Proof.
  unfold _compute. apply emits_bind.
  { unfold _compute_setup.
    apply emits_bind; [apply emits_assert | intros _].
    apply emits_bind; [apply emits_cuda; reflexivity | intros ?].
    apply emits_bind; [quietly | intros _].
    apply emits_bind.
    { unfold SLANG_RETURN_ON_FAIL. destruct (SLANG_FAILED _); quietly. }
    intros _. apply emits_bind; [| intros _; quietly].
    unfold createResources. apply emits_bind; [quietly | intros m0].
    apply emits_forEach. intros i. unfold createResource.
    apply emits_bind; [quietly | intros m1].
    assert (A : forall v, emits (fun e => isComputeEvent e = true)
                            (allocateTarget dbg drv i v)).
    { intros v. unfold allocateTarget.
      apply emits_bind; [apply emits_cuda; reflexivity | intros ?; quietly]. }
    destruct (nth_error (values m1) i) as [v |]; [| quietly].
    destruct (m_type v) as [t |]; [| apply A].
    destruct (getKind t); try quietly; try apply A.
    destruct (baseShape (getResourceShape t));
      try quietly; try apply A; apply emits_assert. }
  intros kernel. unfold _compute_run.
  apply emits_bind.
  { apply emits_forEach. intros b h m.
    destruct (setBinding_inv b h m) as (rb & evs & -> & F & _). simpl.
    revert F. apply Forall_impl. intros e.
    destruct e as [c r | |]; try discriminate; try reflexivity.
    destruct c; try discriminate. destruct kind; discriminate. }
  intros _. apply emits_bind.
  { unfold copyAllToDevice. apply emits_bind; [quietly | intros m0].
    apply emits_forEach. intros i. unfold copyToDevice.
    apply emits_bind; [quietly | intros m1].
    destruct (nth_error (values m1) i) as [v |]; [| quietly].
    destruct (_ && _); [| quietly].
    apply emits_bind; [apply emits_cuda; reflexivity | intros ?; quietly]. }
  intros _. apply emits_bind.
  { unfold launchKernel.
    do 2 (apply emits_bind; [apply emits_cuda; reflexivity | intros ?]).
    apply emits_bind; [quietly | intros m0].
    destruct (getComputeThreadGroupSize (getEntryPointByIndex0 inp)) as [[x y] z].
    apply emits_bind; [quietly | intros r].
    apply emits_bind; [apply emits_cudaReturnOnFail | intros _].
    cbn [Z.eqb negb]. apply emits_bind; [apply emits_cuda; reflexivity | intros ?; quietly]. }
  intros _. apply emits_bind.
  { apply emits_forEach. intros [entry value]. unfold copyBack.
    apply emits_bind; [quietly | intros m0].
    destruct (isOutput entry); [| quietly].
    destruct value as [i |]; [| quietly].
    destruct (nth_error (values m0) i) as [v |]; [| quietly].
    destruct (_ && _); [| quietly].
    apply emits_bind; [apply emits_cuda; reflexivity | intros ?; quietly]. }
  intros _. cbn [Z.eqb negb]. apply emits_bind; [quietly | intros _].
  unfold releaseValueTargets. apply emits_bind; [quietly | intros _].
  apply emits_bind; [quietly | intros m0].
  apply emits_forEach. intros i. unfold releaseValueTarget.
  apply emits_bind; [quietly | intros m1].
  destruct (nth_error (values m1) i) as [v |]; [| quietly].
  destruct (m_target v) as [[p |] |]; try quietly.
  apply emits_bind; [quietly | intros _].
  unfold CUDAResource_dtor. destruct (negb (p =? 0)); [| quietly].
  unfold SLANG_CUDA_ASSERT_ON_FAIL. apply emits_bind; [quietly | intros r].
  destruct (_isError r); [apply emits_assert | quietly].
Qed.

(** *** The context is the business of [init] and of the destructor *)

Lemma keeps_bind {A B} (c : M A) (k : A -> M B) :
  keepsContext c -> (forall a, keepsContext (k a)) -> keepsContext (bind c k).
Proof.
  intros C K h m. unfold bind. specialize (C h m).
  destruct (c h m) as [[r m1] e1]. simpl in C. destruct r as [a | x |]; simpl; auto.
  specialize (K a (h ++ e1) m1). destruct (k a (h ++ e1) m1) as [[r2 m2] e2].
  simpl in *. congruence.
Qed.

Lemma keeps_forEach {A} (body : A -> M unit) l :
  (forall x, keepsContext (body x)) -> keepsContext (forEach l body).
Proof.
  intros B. induction l as [| x l IH]; [intros h m; reflexivity |].
  cbn [forEach]. apply keeps_bind; [apply B | intros _; exact IH].
Qed.

Ltac kept := solve [intros ? ?; reflexivity].

Lemma keeps_cudaReturnOnFail dbg b : keepsContext (cudaReturnOnFail dbg b).
Proof. destruct b, dbg; kept. Qed.

Lemma keeps_cuda dbg drv c : keepsContext (SLANG_CUDA_RETURN_ON_FAIL dbg drv c).
Proof.
  unfold SLANG_CUDA_RETURN_ON_FAIL. apply keeps_bind; [kept | intros r].
  apply keeps_bind; [apply keeps_cudaReturnOnFail | intros _; kept].
Qed.

Lemma keeps_assert dbg b : keepsContext (SLANG_ASSERT_M dbg b).
Proof. unfold SLANG_ASSERT_M. destruct (dbg && negb b); kept. Qed.

Lemma keeps_compute dbg drv module inp : keepsContext (_compute dbg drv module inp).
Proof.
  unfold _compute. apply keeps_bind.
  { unfold _compute_setup.
    apply keeps_bind; [apply keeps_assert | intros _].
    apply keeps_bind; [apply keeps_cuda | intros ?].
    apply keeps_bind; [kept | intros _].
    apply keeps_bind.
    { unfold SLANG_RETURN_ON_FAIL. destruct (SLANG_FAILED _); kept. }
    intros _. apply keeps_bind; [| intros _; kept].
    unfold createResources. apply keeps_bind; [kept | intros m0].
    apply keeps_forEach. intros i. unfold createResource.
    apply keeps_bind; [kept | intros m1].
    assert (A : forall v, keepsContext (allocateTarget dbg drv i v)).
    { intros v. unfold allocateTarget.
      apply keeps_bind; [apply keeps_cuda | intros ?; kept]. }
    destruct (nth_error (values m1) i) as [v |]; [| kept].
    destruct (m_type v) as [t |]; [| apply A].
    destruct (getKind t); try kept; try apply A.
    destruct (baseShape (getResourceShape t));
      try kept; try apply A; apply keeps_assert. }
  intros kernel. unfold _compute_run.
  apply keeps_bind.
  { apply keeps_forEach. intros b h m.
    destruct (setBinding_inv b h m) as (rb & evs & -> & F & _). reflexivity. }
  intros _. apply keeps_bind.
  { unfold copyAllToDevice. apply keeps_bind; [kept | intros m0].
    apply keeps_forEach. intros i. unfold copyToDevice.
    apply keeps_bind; [kept | intros m1].
    destruct (nth_error (values m1) i) as [v |]; [| kept].
    destruct (_ && _); [| kept].
    apply keeps_bind; [apply keeps_cuda | intros ?; kept]. }
  intros _. apply keeps_bind.
  { unfold launchKernel.
    do 2 (apply keeps_bind; [apply keeps_cuda | intros ?]).
    apply keeps_bind; [kept | intros m0].
    destruct (getComputeThreadGroupSize (getEntryPointByIndex0 inp)) as [[x y] z].
    apply keeps_bind; [kept | intros r].
    apply keeps_bind; [apply keeps_cudaReturnOnFail | intros _].
    cbn [Z.eqb negb]. apply keeps_bind; [apply keeps_cuda | intros ?; kept]. }
  intros _. apply keeps_bind.
  { apply keeps_forEach. intros [entry value]. unfold copyBack.
    apply keeps_bind; [kept | intros m0].
    destruct (isOutput entry); [| kept].
    destruct value as [i |]; [| kept].
    destruct (nth_error (values m0) i) as [v |]; [| kept].
    destruct (_ && _); [| kept].
    apply keeps_bind; [apply keeps_cuda | intros ?; kept]. }
  intros _. cbn [Z.eqb negb]. apply keeps_bind; [kept | intros _].
  unfold releaseValueTargets. apply keeps_bind; [kept | intros _].
  apply keeps_bind; [kept | intros m0].
  apply keeps_forEach. intros i. unfold releaseValueTarget.
  apply keeps_bind; [kept | intros m1].
  destruct (nth_error (values m1) i) as [v |]; [| kept].
  destruct (m_target v) as [[p |] |]; try kept.
  apply keeps_bind; [kept | intros _].
  unfold CUDAResource_dtor. destruct (negb (p =? 0)); [| kept].
  unfold SLANG_CUDA_ASSERT_ON_FAIL. apply keeps_bind; [kept | intros r].
  destruct (_isError r); [apply keeps_assert | kept].
Qed.

(** ** The context, continued *)

Lemma initCuda_shape (dbg : bool) (drv : Driver) (h : list Event) (m : Machine)
    (r : Step unit) (m1 : Machine) (e1 : list Event) :
  _initCuda dbg drv h m = (r, m1, e1) ->
  (e1 = [] /\ cuInit_res m <> None \/
   exists resp, e1 = [EvCall (cuInit 0) resp] /\ cuInit_res m = None) /\
  forall h', _initCuda dbg drv h' m1 = (r, m1, []).
Proof.
  unfold _initCuda, bind, getMachine, setInitRes, putMachine, call, ret,
    cudaReturnOnFail, SLANG_ASSERT_M, fail, assertFailure, bind.
  destruct (cuInit_res m) as [s |] eqn:C; simpl.
  - destruct (negb (s =? 0)) eqn:S; destruct dbg; simpl; intros R; inversion R; subst;
      (split; [left; split; [reflexivity | congruence] |]);
      intros h'; rewrite C; simpl; rewrite S; reflexivity.
  - destruct (negb (status (drv (h ++ []) (cuInit 0)) =? 0)) eqn:S; destruct dbg; simpl;
      intros R; inversion R; subst;
      (split; [right; eexists; split; reflexivity |]);
      intros h'; simpl; rewrite S; reflexivity.
Qed.

(** [cuInit] is called once: [_initCuda] calls it only when no call has been
    made before, and after any call of [_initCuda] every further call gives
    the same result without calling the driver. *)
Theorem initCuda_once (dbg : bool) (drv : Driver) (h : list Event) (m : Machine)
    (r : Step unit) (m1 : Machine) (e1 : list Event) :
  _initCuda dbg drv h m = (r, m1, e1) ->
  (e1 = [] /\ cuInit_res m <> None \/
   exists resp, e1 = [EvCall (cuInit 0) resp] /\ cuInit_res m = None) /\
  forall h', _initCuda dbg drv h' m1 = (r, m1, []).
Proof. exact (initCuda_shape dbg drv h m r m1 e1). Qed.

Lemma initCuda_once_witness :
  let first := _initCuda true (deviceDriver []) [] emptyMachine in
  _initCuda true (deviceDriver []) (snd first) (snd (fst first))
    = (fst (fst first), snd (fst first), []).
Proof.
  intros first.
  apply (initCuda_once true (deviceDriver []) [] emptyMachine
           (fst (fst first)) (snd (fst first)) (snd first) eq_refl).
Defined.

Lemma recreateContext_inv drv flags device h m r m' evs :
  recreateContext drv flags device h m = (r, m', evs) ->
  exists rc,
    m_context m' = out rc /\ values m' = values m /\
    r = (if _isError rc then Fail SLANG_FAIL else Ok tt) /\
    (m_context m = 0 /\ evs = [EvCall (cuCtxCreate flags device) rc] \/
     m_context m <> 0 /\
     exists rd, evs = [EvCall (cuCtxDestroy (m_context m)) rd;
                       EvCall (cuCtxCreate flags device) rc]).
Proof.
  unfold recreateContext, bind, getMachine, setContext, putMachine, call, ret, fail, bind.
  destruct (m_context m =? 0) eqn:Z0; simpl;
    match goal with
    | |- context [_isError ?x] => destruct (_isError x) eqn:E
    end; simpl; intros R; inversion R; subst; eexists;
    (split; [reflexivity |]); (split; [reflexivity |]); rewrite E;
    (split; [reflexivity |]).
  - left. apply Z.eqb_eq in Z0. auto.
  - left. apply Z.eqb_eq in Z0. auto.
  - right. apply Z.eqb_neq in Z0. split; [exact Z0 |]. eexists. reflexivity.
  - right. apply Z.eqb_neq in Z0. split; [exact Z0 |]. eexists. reflexivity.
Qed.

Lemma initCuda_noCtx dbg drv h m r m1 e1 :
  _initCuda dbg drv h m = (r, m1, e1) ->
  m_context m1 = m_context m /\ values m1 = values m /\
  Forall (fun e => isCtxCall e = false) e1.
Proof.
  intros R. destruct (initCuda_run dbg drv h m) as (r' & m1' & e1' & R' & C & V & _).
  rewrite R in R'. inversion R'; subst. splits; auto.
  apply initCuda_shape in R. destruct R as [[(-> & _) | (resp & -> & _)] _];
    repeat constructor.
Qed.

(** [ScopeCUDAContext::init(flags, device)]: either [cuInit] has failed and
    the context is not touched; or the creation of the new context is the
    last call, a context that was live is destroyed just before it, the
    handle the creation stored is the new [m_context], and the result is
    [SLANG_OK] or, without any assertion, [SLANG_FAIL], as the creation
    went. *)
Theorem init_device_recreates (dbg : bool) (drv : Driver) (flags device : Z)
    (h : list Event) (m : Machine) (r : Step unit) (m' : Machine)
    (evs : list Event) :
  ScopeCUDAContext_init_device dbg drv flags device h m = (r, m', evs) ->
  values m' = values m /\
  ((isOk r = false /\ m_context m' = m_context m /\
    Forall (fun e => isCtxCall e = false) evs)
   \/
   (exists pre rc,
      Forall (fun e => isCtxCall e = false) pre /\
      m_context m' = out rc /\
      r = (if _isError rc then Fail SLANG_FAIL else Ok tt) /\
      (m_context m = 0 /\ evs = pre ++ [EvCall (cuCtxCreate flags device) rc] \/
       m_context m <> 0 /\
       exists rd, evs = pre ++ [EvCall (cuCtxDestroy (m_context m)) rd;
                                EvCall (cuCtxCreate flags device) rc]))).
Proof.
  unfold ScopeCUDAContext_init_device. intros R. apply bind_inv in R.
  destruct R as [(u & m1 & e1 & e2 & R1 & R2 & ->) | [(x0 & R1 & ->) | (R1 & ->)]];
    apply initCuda_noCtx in R1; destruct R1 as (C1 & V1 & N1).
  - apply recreateContext_inv in R2.
    destruct R2 as (rc & C2 & V2 & -> & Cases). split; [congruence |].
    right. exists e1, rc. splits; auto. rewrite C1 in Cases.
    destruct Cases as [(Z0 & ->) | (NZ & rd & ->)]; [left; auto |].
    right. split; [exact NZ |]. exists rd. reflexivity.
  - split; [exact V1 |]. left. auto.
  - split; [exact V1 |]. left. auto.
Qed.

Lemma init_device_recreates_witness :
  let m := {| cuInit_res := Some 0; m_context := 55; values := [] |} in
  let run := ScopeCUDAContext_init_device true (deviceDriver []) 0 3 [] m in
  exists rc rd,
    snd run = [EvCall (cuCtxDestroy 55) rd; EvCall (cuCtxCreate 0 3) rc] /\
    m_context (snd (fst run)) = out rc.
Proof.
  intros m run.
  destruct (init_device_recreates true (deviceDriver []) 0 3 [] m
              (fst (fst run)) (snd (fst run)) (snd run) eq_refl)
    as (_ & [(N & _) | (pre & rc & _ & C & _ & [(Z0 & _) | (_ & rd & E)])]).
  - discriminate.
  - discriminate.
  - exists {| status := 0; out := 4097 |}, {| status := 0; out := 4096 |}.
    split; reflexivity.
Defined.

Lemma init_shape (dbg : bool) (drv : Driver) (flags : Z)
    (h : list Event) (m : Machine) (r : Step unit) (m' : Machine)
    (evs : list Event) :
  m_context m = 0 ->
  ScopeCUDAContext_init dbg drv flags h m = (r, m', evs) ->
  values m' = values m /\
  ((isOk r = false /\ m_context m' = 0 /\
    Forall (fun e => isCtxCall e = false) evs)
   \/
   (exists pre dev rs rc,
      evs = pre ++ [EvCall (cudaSetDevice dev) rs; EvCall (cuCtxCreate flags dev) rc] /\
      Forall (fun e => isCtxCall e = false) pre /\
      _isError rs = false /\
      m_context m' = out rc /\
      r = (if _isError rc then Fail SLANG_FAIL else Ok tt) /\
      exists eI mI eQ,
        pre = eI ++ eQ /\
        _initCuda dbg drv h m = (Ok tt, mI, eI) /\
        _findMaxFlopsDeviceId dbg drv (h ++ eI) mI = (Ok dev, mI, eQ))).
Proof.
  intros Z0. unfold ScopeCUDAContext_init. intros R. apply bind_inv in R.
  destruct R as [(u & m1 & e1 & e2 & R1 & R2 & ->) | [(x0 & R1 & ->) | (R1 & ->)]];
    pose proof R1 as RI;
    apply initCuda_noCtx in R1; destruct R1 as (C1 & V1 & N1).
  2,3: split; [exact V1 |]; left; splits; auto; congruence.
  destruct u. apply bind_inv in R2.
  destruct R2 as [(dev & m2 & e3 & e4 & R2 & R3 & ->) | [(x0 & R2 & ->) | (R2 & ->)]];
    pose proof R2 as RQ;
    apply findMaxFlops_run in R2; destruct R2 as (-> & Q & _).
  2,3: split; [exact V1 |]; left; splits; auto; try congruence;
       apply Forall_app; split; [exact N1 |];
       revert Q; apply Forall_impl; intros e; destruct e as [c r0 | |];
       try discriminate; destruct c; try discriminate; reflexivity.
  assert (NQ : Forall (fun e => isCtxCall e = false) (e1 ++ e3)).
  { apply Forall_app. split; [exact N1 |].
    revert Q. apply Forall_impl. intros e; destruct e as [c r0 | |];
      try discriminate; destruct c; try discriminate; reflexivity. }
  apply checked_bind in R3.
  destruct R3 as [(E & N & -> & -> & _) | (E & e5 & R & ->)].
  { split; [exact V1 |]. left. splits; auto; try congruence.
    rewrite app_assoc. apply Forall_app. split; [exact NQ | repeat constructor]. }
  apply recreateContext_inv in R.
  destruct R as (rc & C2 & V2 & -> & [(_ & ->) | (NZ & _)]); [| congruence].
  split; [congruence |]. right.
  exists (e1 ++ e3), dev, (drv ((h ++ e1) ++ e3) (cudaSetDevice dev)), rc.
  splits; auto; [apply app_assoc |].
  exists e1, m1, e3. splits; auto.
Qed.

(** [ScopeCUDAContext::init(flags)], started without a live context: either
    it fails before touching the context; or its last two calls are a
    successful [cudaSetDevice] of the selected device and the creation of the
    context on that same device, whose handle becomes [m_context].  The
    device is the one [_findMaxFlopsDeviceId] returned in this run: what
    comes before the two calls is the run of [_initCuda] followed by the run
    of the selection that gave it. *)
Theorem init_creates_on_selected (dbg : bool) (drv : Driver) (flags : Z)
    (h : list Event) (m : Machine) (r : Step unit) (m' : Machine)
    (evs : list Event) :
  m_context m = 0 ->
  ScopeCUDAContext_init dbg drv flags h m = (r, m', evs) ->
  values m' = values m /\
  ((isOk r = false /\ m_context m' = 0 /\
    Forall (fun e => isCtxCall e = false) evs)
   \/
   (exists pre dev rs rc,
      evs = pre ++ [EvCall (cudaSetDevice dev) rs; EvCall (cuCtxCreate flags dev) rc] /\
      Forall (fun e => isCtxCall e = false) pre /\
      _isError rs = false /\
      m_context m' = out rc /\
      r = (if _isError rc then Fail SLANG_FAIL else Ok tt) /\
      exists eI mI eQ,
        pre = eI ++ eQ /\
        _initCuda dbg drv h m = (Ok tt, mI, eI) /\
        _findMaxFlopsDeviceId dbg drv (h ++ eI) mI = (Ok dev, mI, eQ))).
Proof. exact (init_shape dbg drv flags h m r m' evs). Qed.

Lemma init_creates_on_selected_witness :
  let run := ScopeCUDAContext_init false (deviceDriver [fermi; gtx1080]) 0 []
               emptyMachine in
  exists pre rs rc eI mI eQ,
    snd run = pre ++ [EvCall (cudaSetDevice 1) rs; EvCall (cuCtxCreate 0 1) rc] /\
    m_context (snd (fst run)) = out rc /\
    pre = eI ++ eQ /\
    _findMaxFlopsDeviceId false (deviceDriver [fermi; gtx1080]) ([] ++ eI) mI
      = (Ok 1, mI, eQ).
Proof.
  intros run.
  destruct (init_creates_on_selected false (deviceDriver [fermi; gtx1080]) 0 []
              emptyMachine (fst (fst run)) (snd (fst run)) (snd run)
              eq_refl eq_refl)
    as (_ & [(N & _) | (pre & dev & rs & rc & E & _ & _ & C & _ & _)]).
  - vm_compute in N. discriminate N.
  - exists (firstn 12 (snd run)), {| status := 0; out := 4108 |},
      {| status := 0; out := 4109 |},
      (firstn 1 (snd run)),
      {| cuInit_res := Some 0; m_context := 0; values := [] |},
      (firstn 11 (skipn 1 (snd run))).
    splits; reflexivity.
Defined.

(** ** [execute] and [canCreateDevice], call by call *)

Lemma dtor_run drv h m :
  exists ed,
    ScopeCUDAContext_dtor drv h m = (Ok tt, m, ed) /\
    (m_context m = 0 /\ ed = [] \/
     m_context m <> 0 /\ exists rd, ed = [EvCall (cuCtxDestroy (m_context m)) rd]).
Proof.
  unfold ScopeCUDAContext_dtor, bind, getMachine, call, ret.
  destruct (m_context m =? 0) eqn:Z0; simpl; eexists; (split; [reflexivity |]).
  - left. apply Z.eqb_eq in Z0. auto.
  - right. apply Z.eqb_neq in Z0. split; [exact Z0 |]. eexists. reflexivity.
Qed.

Lemma compute_keeps dbg drv module inp h m r m' evs :
  _compute dbg drv module inp h m = (r, m', evs) -> m_context m' = m_context m.
Proof.
  intros R. pose proof (keeps_compute dbg drv module inp h m) as K.
  rewrite R in K. exact K.
Qed.

(** The body of [execute], stage by stage. *)
Lemma execute_body_inv dbg drv inp h m r mb evs :
  (ScopeCUDAContext_init dbg drv 0 ;;;
   (if findKernelDescIndex inp <? 0 then fail SLANG_FAIL else ret tt) ;;;
   module <- SLANG_CUDA_RETURN_ON_FAIL dbg drv (cuModuleLoadData (codeBegin inp)) ;;
   _compute dbg drv module inp ;;;
   _ <- SLANG_CUDA_RETURN_ON_FAIL dbg drv (cuModuleUnload module) ;;
   ret tt) h m = (r, mb, evs) ->
  exists rI mI eI,
    ScopeCUDAContext_init dbg drv 0 h m = (rI, mI, eI) /\
    m_context mb = m_context mI /\
    ((isOk rI = false /\ evs = eI /\ isOk r = false)
     \/ (rI = Ok tt /\ findKernelDescIndex inp < 0 /\ evs = eI /\ r = Fail SLANG_FAIL)
     \/ (rI = Ok tt /\ 0 <= findKernelDescIndex inp /\
         exists rL, _isError rL = true /\ isOk r = false /\
                    evs = eI ++ [EvCall (cuModuleLoadData (codeBegin inp)) rL])
     \/ (rI = Ok tt /\ 0 <= findKernelDescIndex inp /\
         exists rL hC rC mC eC,
           _isError rL = false /\
           _compute dbg drv (out rL) inp hC mI = (rC, mC, eC) /\
           ((isOk rC = false /\ isOk r = false /\
             evs = eI ++ EvCall (cuModuleLoadData (codeBegin inp)) rL :: eC)
            \/
            (rC = Ok tt /\
             exists rU,
               evs = eI ++ EvCall (cuModuleLoadData (codeBegin inp)) rL :: eC
                        ++ [EvCall (cuModuleUnload (out rL)) rU] /\
               (_isError rU = false /\ r = Ok tt \/
                _isError rU = true /\ isOk r = false))))).
Proof.
  intros R. apply bind_inv in R.
  destruct R as [(u1 & m1 & e1 & e2 & R1 & R & ->) | [(x0 & R1 & ->) | (R1 & ->)]].
  2,3: do 3 eexists; split; [exact R1 |]; split; [reflexivity |]; left; auto.
  destruct u1. exists (Ok tt), m1, e1. split; [exact R1 |].
  apply bind_inv in R.
  destruct R as [(u2 & m2 & ea & eb & R2 & R & ->) | [(x0 & R2 & ->) | (R2 & ->)]];
    destruct (findKernelDescIndex inp <? 0) eqn:Ix; inversion R2; subst.
  2:{ split; [reflexivity |]. right. left. apply Z.ltb_lt in Ix.
      rewrite app_nil_r. auto. }
  apply Z.ltb_ge in Ix. cbn [app].
  apply checked_bind in R.
  destruct R as [(E & N & -> & -> & _) | (E & e3 & R & ->)].
  { split; [reflexivity |]. right. right. left. splits; auto.
    eexists. splits; eauto. }
  match type of E with _isError ?x = false => set (rL := x) in * end.
  apply bind_inv in R.
  destruct R as [(u3 & m3 & ec & ed & R3 & R & ->) | [(x0 & R3 & ->) | (R3 & ->)]].
  - destruct u3.
    pose proof (compute_keeps _ _ _ _ _ _ _ _ _ R3) as KC.
    apply checked_bind in R.
    destruct R as [(EU & N & -> & -> & _) | (EU & e5 & R & ->)].
    + split; [exact KC |]. right. right. right. splits; auto.
      do 5 eexists. split; [exact E |]. split; [exact R3 |].
      right. split; [reflexivity |]. eexists. split; [reflexivity |]. right. auto.
    + inversion R; subst. split; [exact KC |]. right. right. right. splits; auto.
      do 5 eexists. split; [exact E |]. split; [exact R3 |].
      right. split; [reflexivity |]. eexists. split; [reflexivity |]. left. auto.
  - pose proof (compute_keeps _ _ _ _ _ _ _ _ _ R3) as KC.
    split; [exact KC |]. right. right. right. splits; auto.
    do 5 eexists. split; [exact E |]. split; [exact R3 |]. left. auto.
  - pose proof (compute_keeps _ _ _ _ _ _ _ _ _ R3) as KC.
    split; [exact KC |]. right. right. right. splits; auto.
    do 5 eexists. split; [exact E |]. split; [exact R3 |]. left. auto.
Qed.

(** A run of [execute] or of [canCreateDevice]: the body, and after it,
    unless an assertion has fired, the destructor of the context. *)
Lemma scoped_inv {A} drv (body : M A) h m r m' evs :
  withScopeCUDAContext drv body h m = (r, m', evs) ->
  exists h0 eb,
    body h0 {| cuInit_res := cuInit_res m; m_context := 0; values := values m |}
      = (r, m', eb) /\
    (r = Abort /\ evs = eb \/
     r <> Abort /\
     (m_context m' = 0 /\ evs = eb \/
      m_context m' <> 0 /\
      exists rd, evs = eb ++ [EvCall (cuCtxDestroy (m_context m')) rd])).
Proof.
  unfold withScopeCUDAContext. intros R.
  apply (bind_Ok_inv _ _ _ _ tt
           {| cuInit_res := cuInit_res m; m_context := 0; values := values m |} []
           _ _ _ eq_refl) in R.
  destruct R as (e2 & R & ->). cbn [app]. unfold finally in R.
  match type of R with
  | context [body ?h0 ?m0] => destruct (body h0 m0) as [[rb mb] eb] eqn:RB; exists h0
  end.
  exists eb.
  destruct rb as [a | x |].
  - match type of R with
    | context [ScopeCUDAContext_dtor drv ?h1 ?m1] =>
        destruct (dtor_run drv h1 m1) as (ed & RD & Cases)
    end.
    rewrite RD in R. inversion R; subst. split; [exact RB |].
    right. split; [discriminate |].
    destruct Cases as [(Z0 & ->) | (NZ & rd & ->)];
      [left; rewrite app_nil_r; auto | right; eauto].
  - match type of R with
    | context [ScopeCUDAContext_dtor drv ?h1 ?m1] =>
        destruct (dtor_run drv h1 m1) as (ed & RD & Cases)
    end.
    rewrite RD in R. inversion R; subst. split; [exact RB |].
    right. split; [discriminate |].
    destruct Cases as [(Z0 & ->) | (NZ & rd & ->)];
      [left; rewrite app_nil_r; auto | right; eauto].
  - inversion R; subst. split; [exact RB |]. left. auto.
Qed.

Lemma initCall_of_compute e : isComputeEvent e = true -> isCtxCall e = false.
Proof. destruct e as [c r | |]; try reflexivity. destruct c; try reflexivity; discriminate. Qed.

Lemma compute_noCtx dbg drv module inp h m r m' evs :
  _compute dbg drv module inp h m = (r, m', evs) ->
  Forall (fun e => isCtxCall e = false) evs.
Proof.
  intros R. pose proof (emits_compute dbg drv module inp h m) as E.
  rewrite R in E. simpl in E. revert E. apply Forall_impl. apply initCall_of_compute.
Qed.

(** The context does not leak.  In a run of [execute] that returns, with
    [SLANG_OK] or with a failure: either no context call was made at all; or
    exactly one context was created, with flags 0, and when its creation
    stored a non-null handle, the destruction of that handle is the last call
    of the run; there is no other context call. *)
Theorem execute_destroys_context (dbg : bool) (drv : Driver) (inp : Input)
    (h : list Event) (m : Machine) (r : Step unit) (m' : Machine)
    (evs : list Event) :
  execute dbg drv inp h m = (r, m', evs) ->
  r <> Abort ->
  Forall (fun e => isCtxCall e = false) evs \/
  exists pre dev rc mid tail,
    evs = pre ++ EvCall (cuCtxCreate 0 dev) rc :: mid ++ tail /\
    Forall (fun e => isCtxCall e = false) pre /\
    Forall (fun e => isCtxCall e = false) mid /\
    (out rc = 0 /\ tail = [] \/
     out rc <> 0 /\ exists rd, tail = [EvCall (cuCtxDestroy (out rc)) rd]).
Proof.
  unfold execute. intros R NA. apply scoped_inv in R.
  destruct R as (h0 & eb & RB & [(A & _) | (_ & Tail)]); [contradiction |].
  apply execute_body_inv in RB.
  destruct RB as (rI & mI & eI & RI & KB & Cases).
  apply init_shape in RI; [| reflexivity].
  destruct RI as (_ & RI).
  assert (Rest : exists rest, eb = eI ++ rest /\
                              Forall (fun e => isCtxCall e = false) rest).
  { destruct Cases as [(_ & -> & _) | [(_ & _ & -> & _) | [(_ & _ & rL & _ & _ & ->)
                      | (_ & _ & rL & hC & rC & mC & eC & _ & RC & [(_ & _ & ->) | (_ & rU & -> & _)])]]].
    - exists []. rewrite app_nil_r. split; [reflexivity | constructor].
    - exists []. rewrite app_nil_r. split; [reflexivity | constructor].
    - eexists. split; [reflexivity | repeat constructor].
    - eexists. split; [reflexivity |]. constructor; [reflexivity |].
      apply (compute_noCtx _ _ _ _ _ _ _ _ _ RC).
    - eexists. split; [reflexivity |]. constructor; [reflexivity |].
      apply Forall_app. split; [apply (compute_noCtx _ _ _ _ _ _ _ _ _ RC) |].
      repeat constructor. }
  destruct Rest as (rest & -> & NR). rewrite KB in Tail.
  destruct RI as [(_ & C0 & N0) | (pre & dev & rs & rc & -> & NP & _ & C & _)].
  - left. destruct Tail as [(_ & ->) | (NZ & _)]; [| congruence].
    apply Forall_app. auto.
  - right. exists (pre ++ [EvCall (cudaSetDevice dev) rs]), dev, rc, rest.
    rewrite C in Tail.
    destruct Tail as [(Z0 & ->) | (NZ & rd & ->)].
    + exists []. rewrite app_nil_r, <- !app_assoc. cbn [app]. splits; auto.
      apply Forall_app. split; [exact NP | repeat constructor].
    + exists [EvCall (cuCtxDestroy (out rc)) rd].
      rewrite <- !app_assoc. cbn [app]. splits; auto.
      * apply Forall_app. split; [exact NP | repeat constructor].
      * right. split; [exact NZ |]. eexists. reflexivity.
Qed.

Lemma execute_destroys_context_witness :
  exists pre dev rc mid rd,
    snd failingRun = pre ++ EvCall (cuCtxCreate 0 dev) rc :: mid
                         ++ [EvCall (cuCtxDestroy (out rc)) rd] /\
    Forall (fun e => isCtxCall e = false) mid.
Proof.
  destruct (execute_destroys_context false
              (failingOn memcpyFails (deviceDriver [gtx1080]))
              (identityInput 1) [] emptyMachine
              (fst (fst failingRun)) (snd (fst failingRun)) (snd failingRun)
              failingRun_eq ltac:(discriminate))
    as [N | (pre & dev & rc & mid & tail & E & NP & NM & Cases)].
  - exfalso. vm_compute in N. rewrite Forall_forall in N.
    specialize (N (EvCall (cuCtxCreate 0 0) {| status := 0; out := 4104 |})).
    simpl in N. discriminate N. do 8 right. left. reflexivity.
  - exists (firstn 8 (snd failingRun)), 0,
      {| status := 0; out := 4104 |},
      (firstn 8 (skipn 9 (snd failingRun))),
      {| status := 0; out := 4113 |}.
    split; [reflexivity |]. vm_compute. repeat constructor.
Defined.

(** ** [execute]: the kernel index and the module *)

Lemma init_events dbg drv flags h m r m' evs :
  ScopeCUDAContext_init dbg drv flags h m = (r, m', evs) ->
  Forall (fun e => isInitCall e = true) evs.
Proof.
  intros R. pose proof (emits_init dbg drv flags h m) as E.
  rewrite R in E. exact E.
Qed.

(** Without a compute kernel in the compiled output [execute] never comes
    through, and it does nothing but set the context up and tear it down: no
    module is loaded, nothing is allocated, copied or launched. *)
Theorem execute_no_kernel (dbg : bool) (drv : Driver) (inp : Input)
    (h : list Event) (m : Machine) (r : Step unit) (m' : Machine)
    (evs : list Event) :
  findKernelDescIndex inp < 0 ->
  execute dbg drv inp h m = (r, m', evs) ->
  isOk r = false /\ Forall (fun e => isInitCall e = true) evs /\
  values m' = values m.
Proof.
  intros Ix R.
  unfold execute in R. apply scoped_inv in R.
  destruct R as (h0 & eb & RB & Tail).
  assert (V : values m' = values m).
  { apply bind_inv in RB.
    destruct RB as [(u & m1 & e1 & e3 & R1 & RB & ->) | [(x0 & R1 & ->) | (R1 & ->)]];
      (apply init_shape in R1; [| reflexivity]);
      destruct R1 as (V1 & _); try exact V1.
    apply Z.ltb_lt in Ix. rewrite Ix in RB. inversion RB; subst. exact V1. }
  apply execute_body_inv in RB.
  destruct RB as (rI & mI & eI & RI & _ & Cases).
  apply init_events in RI.
  assert (B : isOk r = false /\ eb = eI).
  { destruct Cases as [(_ & -> & N) | [(_ & _ & -> & ->) | [(_ & P & _) | (_ & P & _)]]];
      auto; lia. }
  destruct B as (N & ->). splits; auto.
  destruct Tail as [(_ & ->) | (_ & [(_ & ->) | (_ & rd & ->)])]; auto.
  apply Forall_app. split; [exact RI | repeat constructor].
Qed.

Lemma noKernelRun_eq :
  execute false (deviceDriver [gtx1080]) noKernelInput [] emptyMachine = noKernelRun.
Proof. vm_compute. reflexivity. Qed.

Lemma execute_no_kernel_witness :
  isOk (fst (fst noKernelRun)) = false /\
  Forall (fun e => isInitCall e = true) (snd noKernelRun) /\
  values (snd (fst noKernelRun)) = values emptyMachine.
Proof.
  apply (execute_no_kernel false (deviceDriver [gtx1080]) noKernelInput []
           emptyMachine (fst (fst noKernelRun)) (snd (fst noKernelRun))
           (snd noKernelRun)).
  - reflexivity.
  - exact noKernelRun_eq.
Defined.

Lemma split_unique {A} (P : A -> bool) l1 x l2 l3 y l4 :
  l1 ++ x :: l2 = l3 ++ y :: l4 ->
  Forall (fun e => P e = false) l1 -> Forall (fun e => P e = false) l2 ->
  P x = true -> P y = true ->
  l3 = l1 /\ y = x /\ l4 = l2.
Proof.
  revert l3. induction l1 as [| a l1 IH]; intros l3 E F1 F2 Px Py.
  - destruct l3 as [| b l3]; simpl in E.
    + injection E as -> ->. auto.
    + injection E as -> E. rewrite Forall_forall in F2.
      assert (I : In y (l3 ++ y :: l4)) by (apply in_or_app; right; left; reflexivity).
      rewrite <- E in I. apply F2 in I. congruence.
  - inversion F1 as [| ? ? Pa F1']; subst. destruct l3 as [| b l3]; simpl in E.
    + injection E as -> E. congruence.
    + injection E as -> E. destruct (IH l3 E F1' F2 Px Py) as (-> & -> & ->). auto.
Qed.

Lemma initCall_not_unload e : isInitCall e = true -> isModuleUnload e = false.
Proof. destruct e as [c r | |]; try reflexivity. destruct c; try reflexivity; discriminate. Qed.

Lemma computeEvent_not_unload e : isComputeEvent e = true -> isModuleUnload e = false.
Proof. destruct e as [c r | |]; try reflexivity. destruct c; try reflexivity; discriminate. Qed.

Lemma compute_events dbg drv module inp h m r m' evs :
  _compute dbg drv module inp h m = (r, m', evs) ->
  Forall (fun e => isComputeEvent e = true) evs.
Proof.
  intros R. pose proof (emits_compute dbg drv module inp h m) as E.
  rewrite R in E. exact E.
Qed.

Lemma compute_Ok_released dbg drv module inp h m m' evs :
  _compute dbg drv module inp h m = (Ok tt, m', evs) ->
  In EvReleaseValueTargets evs.
Proof.
  intros R. apply _compute_shape in R.
  destruct R as [(N & _) | (_ & pre & frees & -> & _)]; [discriminate |].
  apply in_or_app. right. left. reflexivity.
Qed.

(** The module is unloaded at most once, and only at the end of a pipeline
    that came through: a [cuModuleUnload] in a run of [execute] is given the
    handle a successful [cuModuleLoadData] of the kernel's code returned,
    everything between the two is the work of [_compute], which released the
    targets, and after it comes at most the destruction of the context.  A
    run that returns [SLANG_OK] has made this call, with success. *)
Theorem execute_unloads_after_release (dbg : bool) (drv : Driver) (inp : Input)
    (h : list Event) (m : Machine) (r : Step unit) (m' : Machine)
    (evs : list Event) :
  execute dbg drv inp h m = (r, m', evs) ->
  (forall pre module ru post,
     evs = pre ++ EvCall (cuModuleUnload module) ru :: post ->
     (exists pre0 rl mid,
        pre = pre0 ++ EvCall (cuModuleLoadData (codeBegin inp)) rl :: mid /\
        _isError rl = false /\ module = out rl /\
        Forall (fun e => isInitCall e = true) pre0 /\
        Forall (fun e => isComputeEvent e = true) mid /\
        In EvReleaseValueTargets mid) /\
     Forall (fun e => isCtxDestroy e = true) post /\
     (r = Ok tt <-> _isError ru = false))
  /\
  (r = Ok tt ->
   exists pre module ru post,
     evs = pre ++ EvCall (cuModuleUnload module) ru :: post).
Proof.
  unfold execute. intros R. apply scoped_inv in R.
  destruct R as (h0 & eb & RB & Tail).
  apply execute_body_inv in RB.
  destruct RB as (rI & mI & eI & RI & _ & Cases).
  apply init_events in RI.
  assert (TL : exists ed, evs = eb ++ ed /\
                          Forall (fun e => isCtxDestroy e = true) ed /\
                          (r = Abort -> ed = [])).
  { destruct Tail as [(A & ->) | (NA & [(_ & ->) | (_ & rd & ->)])].
    - exists []. rewrite app_nil_r. splits; auto.
    - exists []. rewrite app_nil_r. splits; auto.
    - eexists. splits; [reflexivity | repeat constructor | congruence]. }
  destruct TL as (ed & -> & FD & _).
  assert (ND : Forall (fun e => isModuleUnload e = false) ed).
  { revert FD. apply Forall_impl. intros [c rr | |]; try reflexivity.
    destruct c; try reflexivity; discriminate. }
  assert (NI : Forall (fun e => isModuleUnload e = false) eI).
  { revert RI. apply Forall_impl. apply initCall_not_unload. }
  assert (Quiet : Forall (fun e => isModuleUnload e = false) (eb ++ ed) ->
          (forall pre module ru post,
             eb ++ ed = pre ++ EvCall (cuModuleUnload module) ru :: post -> False)).
  { intros F pre module ru post E. rewrite E in F. apply Forall_app in F.
    destruct F as (_ & F). inversion F; subst. discriminate. }
  destruct Cases as [(_ & -> & N) | [(_ & _ & -> & ->) | [(_ & _ & rL & _ & N & ->)
                    | (_ & _ & rL & hC & rC & mC & eC & EL & RC &
                       [(_ & N & ->) | (-> & rU & -> & RU)])]]].
  - split; [| intros ->; discriminate].
    intros pre module ru post E. exfalso. revert E. apply Quiet.
    apply Forall_app. auto.
  - split; [| discriminate].
    intros pre module ru post E. exfalso. revert E. apply Quiet.
    apply Forall_app. auto.
  - split; [| intros ->; discriminate].
    intros pre module ru post E. exfalso. revert E. apply Quiet.
    apply Forall_app. split; [| exact ND].
    apply Forall_app. split; [exact NI | repeat constructor].
  - split; [| intros ->; discriminate].
    intros pre module ru post E. exfalso. revert E. apply Quiet.
    apply Forall_app. split; [| exact ND].
    apply Forall_app. split; [exact NI |]. constructor; [reflexivity |].
    apply compute_events in RC. revert RC. apply Forall_impl.
    apply computeEvent_not_unload.
  - pose proof (compute_events _ _ _ _ _ _ _ _ _ RC) as FC.
    pose proof (compute_Ok_released _ _ _ _ _ _ _ _ RC) as Rel.
    split.
    + intros pre module ru post E.
      assert (E' : (eI ++ EvCall (cuModuleLoadData (codeBegin inp)) rL :: eC)
                     ++ EvCall (cuModuleUnload (out rL)) rU :: ed
                   = pre ++ EvCall (cuModuleUnload module) ru :: post).
      { rewrite <- E. rewrite <- !app_assoc. cbn [app]. rewrite <- app_assoc.
        reflexivity. }
      apply (split_unique isModuleUnload) in E'; try reflexivity; try exact ND.
      2:{ apply Forall_app. split; [exact NI |]. constructor; [reflexivity |].
          revert FC. apply Forall_impl. apply computeEvent_not_unload. }
      destruct E' as (-> & Ev & ->). inversion Ev; subst.
      split; [| split; [exact FD |]].
      * exists eI, rL, eC. splits; auto.
      * destruct RU as [(U & ->) | (U & N)].
        -- split; auto.
        -- split; [intros ->; discriminate | congruence].
    + intros _.
      exists (eI ++ EvCall (cuModuleLoadData (codeBegin inp)) rL :: eC),
        (out rL), rU, ed.
      rewrite <- !app_assoc. cbn [app]. rewrite <- app_assoc. reflexivity.
Qed.

Lemma execute_unloads_after_release_witness :
  exists pre module ru post,
    snd twoEntryPointsRun = pre ++ EvCall (cuModuleUnload module) ru :: post.
Proof.
  apply (execute_unloads_after_release false (deviceDriver [gtx1080])
           (identityInput 2) [] emptyMachine (fst (fst twoEntryPointsRun))
           (snd (fst twoEntryPointsRun)) (snd twoEntryPointsRun)
           twoEntryPointsRun_eq).
  reflexivity.
Defined.

(** ** The failure statuses *)

Lemma failsIn_bind {A B} P (c : M A) (k : A -> M B) :
  failsIn P c -> (forall a, failsIn P (k a)) -> failsIn P (bind c k).
Proof.
  intros C K h m x. unfold bind. specialize (C h m).
  destruct (c h m) as [[r m1] e1]. destruct r as [a | y |]; simpl in *.
  - specialize (K a (h ++ e1) m1). destruct (k a (h ++ e1) m1) as [[r2 m2] e2].
    apply K.
  - intros H. injection H as <-. apply C. reflexivity.
  - discriminate.
Qed.

Lemma failsIn_forEach {A} P (body : A -> M unit) l :
  (forall x, failsIn P (body x)) -> failsIn P (forEach l body).
Proof.
  intros B. induction l as [| x l IH]; [intros h m y; discriminate |].
  cbn [forEach]. apply failsIn_bind; [apply B | intros _; exact IH].
Qed.

Lemma failsIn_finally {A} P (body : M A) cleanup :
  failsIn P body -> failsIn P (finally body cleanup).
Proof.
  intros B h m x. unfold finally. specialize (B h m).
  destruct (body h m) as [[r m1] e1]. simpl in B.
  destruct r as [a | y |]; try discriminate;
    destruct (cleanup (h ++ e1) m1) as [[r2 m2] e2]; simpl; try discriminate.
  apply B.
Qed.

Ltac nofail := solve [intros ? ? ? H; simpl in H; discriminate H].
Ltac fails := solve [intros ? ? ? H; simpl in H; injection H as <-; assumption].

Lemma failsIn_assert dbg P b : failsIn P (SLANG_ASSERT_M dbg b).
Proof. unfold SLANG_ASSERT_M. destruct (dbg && negb b); nofail. Qed.

Lemma failsIn_cudaReturnOnFail dbg P b :
  P SLANG_FAIL -> failsIn P (cudaReturnOnFail dbg b).
Proof.
  intros PF. unfold cudaReturnOnFail. destruct b; [| nofail].
  apply failsIn_bind; [apply failsIn_assert | intros _; fails].
Qed.

Lemma failsIn_cuda dbg drv P c :
  P SLANG_FAIL -> failsIn P (SLANG_CUDA_RETURN_ON_FAIL dbg drv c).
Proof.
  intros PF. unfold SLANG_CUDA_RETURN_ON_FAIL.
  apply failsIn_bind; [nofail | intros r].
  apply failsIn_bind; [apply failsIn_cudaReturnOnFail; exact PF | intros _; nofail].
Qed.

Lemma failsIn_deviceLoop dbg drv P (PF : P SLANG_FAIL) fuel : forall cur md mp,
  failsIn P (deviceLoop dbg drv fuel cur md mp).
Proof.
  induction fuel as [| fuel IH]; intros cur md mp; cbn [deviceLoop]; [nofail |].
  do 3 (apply failsIn_bind; [apply failsIn_cuda; exact PF | intros ?]).
  destruct (negb (a =? cudaComputeModeProhibited)); [| apply IH].
  apply failsIn_bind.
  { destruct ((a0 =? 9999) && (a1 =? 9999)); [nofail |].
    intros h m x. unfold liftStep, _calcSMCountPerMultiProcessor, SLANG_ASSERT.
    destruct (lookupSM infos (smOf a0 a1)); simpl; [discriminate |].
    destruct (dbg && _); discriminate. }
  intros ?.
  do 2 (apply failsIn_bind; [apply failsIn_cuda; exact PF | intros ?]).
  destruct (mp <? _); apply IH.
Qed.

Lemma failsIn_init dbg drv P flags :
  P SLANG_FAIL -> failsIn P (ScopeCUDAContext_init dbg drv flags).
Proof.
  intros PF. unfold ScopeCUDAContext_init.
  apply failsIn_bind.
  { unfold _initCuda. apply failsIn_bind; [nofail | intros m0].
    apply failsIn_bind; [| intros ?; apply failsIn_cudaReturnOnFail; exact PF].
    destruct (cuInit_res m0); [nofail |].
    apply failsIn_bind; [nofail | intros ?]. apply failsIn_bind; [nofail | intros ?; nofail]. }
  intros _. apply failsIn_bind.
  { unfold _findMaxFlopsDeviceId.
    apply failsIn_bind; [apply failsIn_cuda; exact PF | intros ?].
    apply failsIn_bind; [apply failsIn_deviceLoop; exact PF | intros ?].
    destruct (_ <? 0); [fails | nofail]. }
  intros ?. apply failsIn_bind; [apply failsIn_cuda; exact PF | intros ?].
  unfold recreateContext.
  apply failsIn_bind; [nofail | intros m0].
  apply failsIn_bind.
  { destruct (negb (m_context m0 =? 0)); [| nofail].
    apply failsIn_bind; [nofail | intros ?; nofail]. }
  intros _. apply failsIn_bind; [nofail | intros r].
  apply failsIn_bind; [nofail | intros _]. destruct (_isError r); [fails | nofail].
Qed.

Lemma failsIn_createResources dbg drv P :
  P SLANG_FAIL -> failsIn P (createResources dbg drv).
Proof.
  intros PF. unfold createResources. apply failsIn_bind; [nofail | intros m0].
  apply failsIn_forEach. intros i. unfold createResource.
  apply failsIn_bind; [nofail | intros m1].
  assert (A : forall v, failsIn P (allocateTarget dbg drv i v)).
  { intros v. unfold allocateTarget.
    apply failsIn_bind; [apply failsIn_cuda; exact PF | intros ?; nofail]. }
  destruct (nth_error (values m1) i) as [v |]; [| nofail].
  destruct (m_type v) as [t |]; [| apply A].
  destruct (getKind t); try nofail; try apply A.
  destruct (baseShape (getResourceShape t)); try nofail; try apply A.
  apply failsIn_assert.
Qed.

Lemma failsIn_compute dbg drv module inp :
  failsIn (failureOf inp) (_compute dbg drv module inp).
Proof.
  assert (PF : failureOf inp SLANG_FAIL) by (split; [reflexivity | left; reflexivity]).
  unfold _compute. apply failsIn_bind.
  { unfold _compute_setup.
    apply failsIn_bind; [apply failsIn_assert | intros _].
    apply failsIn_bind; [apply failsIn_cuda; exact PF | intros ?].
    apply failsIn_bind; [nofail | intros _].
    apply failsIn_bind.
    { unfold SLANG_RETURN_ON_FAIL.
      destruct (SLANG_FAILED (addBindSetValues inp)) eqn:F; [| nofail].
      intros h m x H. simpl in H. injection H as <-. split; [exact F | right; reflexivity]. }
    intros _. apply failsIn_bind; [apply failsIn_createResources; exact PF | intros _; nofail]. }
  intros kernel. unfold _compute_run.
  apply failsIn_bind.
  { apply failsIn_forEach. intros b h m x.
    destruct (setBinding_inv b h m) as (rb & evs & -> & _ & [-> | ->]); discriminate. }
  intros _. apply failsIn_bind.
  { unfold copyAllToDevice. apply failsIn_bind; [nofail | intros m0].
    apply failsIn_forEach. intros i. unfold copyToDevice.
    apply failsIn_bind; [nofail | intros m1].
    destruct (nth_error (values m1) i) as [v |]; [| nofail].
    destruct (_ && _); [| nofail].
    apply failsIn_bind; [apply failsIn_cuda; exact PF | intros ?; nofail]. }
  intros _. apply failsIn_bind.
  { unfold launchKernel.
    do 2 (apply failsIn_bind; [apply failsIn_cuda; exact PF | intros ?]).
    apply failsIn_bind; [nofail | intros m0].
    destruct (getComputeThreadGroupSize (getEntryPointByIndex0 inp)) as [[x y] z].
    apply failsIn_bind; [nofail | intros r].
    apply failsIn_bind; [apply failsIn_cudaReturnOnFail; exact PF | intros _].
    cbn [Z.eqb negb]. apply failsIn_bind; [apply failsIn_cuda; exact PF | intros ?; nofail]. }
  intros _. apply failsIn_bind.
  { apply failsIn_forEach. intros [entry value]. unfold copyBack.
    apply failsIn_bind; [nofail | intros m0].
    destruct (isOutput entry); [| nofail].
    destruct value as [i |]; [| nofail].
    destruct (nth_error (values m0) i) as [v |]; [| nofail].
    destruct (_ && _); [| nofail].
    apply failsIn_bind; [apply failsIn_cuda; exact PF | intros ?; nofail]. }
  intros _. cbn [Z.eqb negb]. apply failsIn_bind; [nofail | intros _].
  unfold releaseValueTargets. apply failsIn_bind; [nofail | intros _].
  apply failsIn_bind; [nofail | intros m0].
  apply failsIn_forEach. intros i. unfold releaseValueTarget.
  apply failsIn_bind; [nofail | intros m1].
  destruct (nth_error (values m1) i) as [v |]; [| nofail].
  destruct (m_target v) as [[p |] |]; try nofail.
  apply failsIn_bind; [| intros _].
  { unfold setTargetAt, setValues. apply failsIn_bind; [nofail | intros ?].
    apply failsIn_bind; [nofail | intros ?; nofail]. }
  unfold CUDAResource_dtor. destruct (negb (p =? 0)); [| nofail].
  unfold SLANG_CUDA_ASSERT_ON_FAIL. apply failsIn_bind; [nofail | intros r].
  destruct (_isError r); [apply failsIn_assert | nofail].
Qed.

Lemma failsIn_execute dbg drv inp :
  failsIn (failureOf inp) (execute dbg drv inp).
Proof.
  assert (PF : failureOf inp SLANG_FAIL) by (split; [reflexivity | left; reflexivity]).
  unfold execute, withScopeCUDAContext.
  apply failsIn_bind; [nofail | intros _]. apply failsIn_finally.
  apply failsIn_bind; [apply failsIn_init; exact PF | intros _].
  apply failsIn_bind; [destruct (_ <? 0); [fails | nofail] | intros _].
  apply failsIn_bind; [apply failsIn_cuda; exact PF | intros module].
  apply failsIn_bind; [apply failsIn_compute | intros _].
  apply failsIn_bind; [apply failsIn_cuda; exact PF | intros ?; nofail].
Qed.

Lemma init_fail_code dbg drv flags h m x m' evs :
  ScopeCUDAContext_init dbg drv flags h m = (Fail x, m', evs) -> x = SLANG_FAIL.
Proof.
  intros R.
  pose proof (failsIn_init dbg drv (fun y => y = SLANG_FAIL) flags eq_refl h m x) as F.
  rewrite R in F. apply F. reflexivity.
Qed.

Lemma isCtxCreated_ctxCall e : isCtxCreated e = true -> isCtxCall e = true.
Proof. destruct e as [c r | |]; try discriminate. destruct c; try discriminate. reflexivity. Qed.

Lemma isCtxCreated_not_destroy e : isCtxDestroy e = true -> isCtxCreated e = false.
Proof. destruct e as [c r | |]; try discriminate. destruct c; try discriminate. reflexivity. Qed.

Lemma not_created_in (evs : list Event) e :
  Forall (fun e => isCtxCall e = false) evs -> In e evs -> isCtxCreated e = true -> False.
Proof.
  intros F I C. rewrite Forall_forall in F. apply F in I.
  apply isCtxCreated_ctxCall in C. congruence.
Qed.

Lemma not_created_destroy (evs : list Event) e :
  Forall (fun e => isCtxDestroy e = true) evs -> In e evs -> isCtxCreated e = true -> False.
Proof.
  intros F I C. rewrite Forall_forall in F. apply F in I.
  apply isCtxCreated_not_destroy in I. congruence.
Qed.

(** [canCreateDevice] answers, it never returns a failure status; and its
    answer is [true] exactly when the run created a context: after a
    successful [cudaSetDevice] of the selected device, a [cuCtxCreate] on that
    device that succeeded.  The values of the bind set are not touched. *)
Theorem canCreateDevice_true_iff_created (dbg : bool) (drv : Driver)
    (h : list Event) (m : Machine) (r : Step bool) (m' : Machine)
    (evs : list Event) :
  canCreateDevice dbg drv h m = (r, m', evs) ->
  (forall x, r <> Fail x) /\
  values m' = values m /\
  (r = Ok true <-> exists e, In e evs /\ isCtxCreated e = true) /\
  (r = Ok true ->
   exists pre dev rs rc post,
     evs = pre ++ EvCall (cudaSetDevice dev) rs :: EvCall (cuCtxCreate 0 dev) rc :: post /\
     _isError rs = false /\ _isError rc = false /\
     Forall (fun e => isCtxCall e = false) pre /\
     Forall (fun e => isCtxDestroy e = true) post).
Proof.
  unfold canCreateDevice. intros R. apply scoped_inv in R.
  destruct R as (h0 & eb & RB & Tail).
  apply bind_inv in RB.
  assert (I : exists rI,
             ScopeCUDAContext_init dbg drv 0 h0
               {| cuInit_res := cuInit_res m; m_context := 0; values := values m |}
               = (rI, m', eb) /\
             r = match rI with
                 | Ok _ => Ok true
                 | Fail x => Ok (SLANG_SUCCEEDED x)
                 | Abort => Abort
                 end).
  { unfold resultOf in RB.
    destruct (ScopeCUDAContext_init dbg drv 0 h0 _) as [[rI mI] eI].
    destruct RB as [(res & m1 & e1 & e2 & R1 & R2 & ->) | [(x0 & R1 & ->) | (R1 & ->)]].
    - exists rI. destruct rI as [[] | x |]; inversion R1; subst;
        inversion R2; subst; rewrite app_nil_r; auto.
    - destruct rI; inversion R1.
    - exists rI. destruct rI as [[] | x |]; inversion R1; subst. auto. }
  clear RB. destruct I as (rI & RI & ->).
  assert (FI : forall x, rI = Fail x -> SLANG_SUCCEEDED x = false).
  { intros x ->. apply init_fail_code in RI. subst x. reflexivity. }
  apply init_shape in RI; [| reflexivity].
  simpl in RI. destruct RI as (V & RI).
  assert (TL : exists ed, evs = eb ++ ed /\ Forall (fun e => isCtxDestroy e = true) ed).
  { destruct Tail as [(A & ->) | (NA & [(_ & ->) | (_ & rd & ->)])].
    - exists []. rewrite app_nil_r. auto.
    - exists []. rewrite app_nil_r. auto.
    - eexists. split; [reflexivity | repeat constructor]. }
  destruct TL as (ed & -> & FD). clear Tail.
  split; [destruct rI; discriminate |]. split; [exact V |].
  destruct RI as [(N & _ & NC) | (pre & dev & rs & rc & -> & NP & ES & _ & -> & _)].
  - assert (NT : match rI with
                 | Ok _ => Ok true
                 | Fail x => Ok (SLANG_SUCCEEDED x)
                 | Abort => Abort
                 end <> Ok true).
    { destruct rI as [u | x |]; [discriminate N | | discriminate].
      rewrite (FI x eq_refl). discriminate. }
    split; [split |]; try (intros T; contradiction).
    intros (e & I & C). exfalso. apply in_app_or in I. destruct I as [I | I].
    + exact (not_created_in _ _ NC I C).
    + exact (not_created_destroy _ _ FD I C).
  - destruct (_isError rc) eqn:EC.
    + split; [split |].
      * discriminate.
      * intros (e & I & C). exfalso. apply in_app_or in I. destruct I as [I | I].
        -- apply in_app_or in I. destruct I as [I | [<- | [<- | []]]].
           ++ exact (not_created_in _ _ NP I C).
           ++ discriminate C.
           ++ simpl in C. rewrite EC in C. discriminate C.
        -- exact (not_created_destroy _ _ FD I C).
      * discriminate.
    + split; [split |].
      * intros _. exists (EvCall (cuCtxCreate 0 dev) rc). split.
        -- apply in_or_app. left. apply in_or_app. right. right. left. reflexivity.
        -- simpl. rewrite EC. reflexivity.
      * reflexivity.
      * intros _. exists pre, dev, rs, rc, ed. rewrite <- app_assoc. cbn [app].
        splits; auto.
Qed.

Lemma canCreateDevice_true_iff_created_witness :
  exists e, In e (snd (canCreateDevice false (deviceDriver [gtx1080]) [] emptyMachine)) /\
            isCtxCreated e = true.
Proof.
  apply (canCreateDevice_true_iff_created false (deviceDriver [gtx1080]) [] emptyMachine
           (Ok true)
           (snd (fst (canCreateDevice false (deviceDriver [gtx1080]) [] emptyMachine)))
           (snd (canCreateDevice false (deviceDriver [gtx1080]) [] emptyMachine))).
  - vm_compute. reflexivity.
  - reflexivity.
Defined.

(** ** The order of the pipeline *)

Lemma ordered_mono a b evs : (a <= b)%nat -> ordered b evs = true -> ordered a evs = true.
Proof.
  destruct evs as [| e rest]; [reflexivity |]. cbn [ordered]. intros L O.
  apply andb_true_iff in O. destruct O as (O1 & O2). apply Nat.leb_le in O1.
  apply andb_true_iff. split; [apply Nat.leb_le; lia | exact O2].
Qed.

Lemma ordered_stage s evs :
  Forall (fun e => stageOf e = s) evs -> ordered (stageRank s) evs = true.
Proof.
  induction 1 as [| e rest E F IH]; [reflexivity |]. cbn [ordered]. rewrite E.
  rewrite Nat.leb_refl. exact IH.
Qed.

Lemma ordered_app s evs rest :
  Forall (fun e => stageOf e = s) evs ->
  ordered (stageRank s) rest = true ->
  ordered (stageRank s) (evs ++ rest) = true.
Proof.
  induction 1 as [| e tl E F IH]; intros O; [exact O |]. cbn [ordered app].
  rewrite E, Nat.leb_refl. apply IH. exact O.
Qed.

Lemma ordered_all lo evs :
  ordered lo evs = true -> Forall (fun e => (lo <= stageRank (stageOf e))%nat) evs.
Proof.
  revert lo. induction evs as [| e rest IH]; intros lo O; [constructor |].
  cbn [ordered] in O. apply andb_true_iff in O. destruct O as (O1 & O2).
  apply Nat.leb_le in O1. constructor; [exact O1 |].
  apply IH in O2. revert O2. apply Forall_impl. intros; lia.
Qed.

Lemma ordered_pairs lo evs pre e1 mid e2 post :
  ordered lo evs = true -> evs = pre ++ e1 :: mid ++ e2 :: post ->
  (stageRank (stageOf e1) <= stageRank (stageOf e2))%nat.
Proof.
  intros O ->. revert lo O. induction pre as [| p pre IH]; intros lo O.
  - cbn [app ordered] in O. apply andb_true_iff in O. destruct O as (_ & O).
    apply ordered_all in O. rewrite Forall_forall in O. apply O.
    apply in_or_app. right. left. reflexivity.
  - cbn [app ordered] in O. apply andb_true_iff in O. destruct O as (_ & O).
    apply (IH _ O).
Qed.

(** The events of [_compute_setup]: the look-up of the kernel function, then
    the allocations. *)
Lemma setup_split dbg drv module inp h m r m' evs :
  _compute_setup dbg drv module inp h m = (r, m', evs) ->
  exists eS eA, evs = eS ++ eA /\
                Forall (fun e => stageOf e = StSetup) eS /\
                Forall (fun e => stageOf e = StAlloc) eA.
Proof.
  unfold _compute_setup. intros R. apply bind_inv in R.
  destruct R as [(u1 & m1 & e1 & e2 & R1 & R & ->) | [(x0 & R1 & ->) | (R1 & ->)]];
    unfold SLANG_ASSERT_M in R1; destruct (dbg && _); inversion R1; subst.
  2:{ exists [], []. splits; auto. }
  cbn [app]. apply checked_bind in R.
  destruct R as [(_ & _ & _ & -> & _) | (_ & e3 & R & ->)].
  { eexists; exists []; splits; [symmetry; apply app_nil_r | repeat constructor | constructor]. }
  apply bind_inv in R.
  destruct R as [(u2 & m2 & e4 & e5 & R2 & R & ->) | [(x0 & R2 & ->) | (R2 & ->)]];
    inversion R2; subst.
  cbn [app] in *. apply bind_inv in R.
  destruct R as [(u3 & m3 & e6 & e7 & R3 & R & ->) | [(x0 & R3 & ->) | (R3 & ->)]];
    unfold SLANG_RETURN_ON_FAIL in R3; destruct (SLANG_FAILED _); inversion R3; subst.
  2:{ eexists; exists []; splits; [symmetry; apply app_nil_r | repeat constructor | constructor]. }
  cbn [app] in *. apply bind_inv in R.
  assert (A : forall h0 m0 r0 m3 e0,
            createResources dbg drv h0 m0 = (r0, m3, e0) ->
            Forall (fun e => stageOf e = StAlloc) e0).
  { intros h0 m0 r0 m3 e0 RC. apply passOK_createResources in RC. apply RC. }
  destruct R as [(u4 & m4 & e8 & e9 & R4 & R & ->) | [(x0 & R4 & ->) | (R4 & ->)]];
    apply A in R4.
  - inversion R; subst. rewrite !app_nil_r.
    eexists [_], e8.
    splits; [reflexivity | repeat constructor | exact R4].
  - eexists [_], _. splits; [reflexivity | repeat constructor | exact R4].
  - eexists [_], _. splits; [reflexivity | repeat constructor | exact R4].
Qed.

(** The pipeline of [_compute] in stages. *)
Lemma compute_stages dbg drv module inp h m r m' evs :
  _compute dbg drv module inp h m = (r, m', evs) ->
  exists eS eA eB eU eL eD eR,
    evs = eS ++ eA ++ eB ++ eU ++ eL ++ eD ++ eR /\
    Forall (fun e => stageOf e = StSetup) eS /\
    Forall (fun e => stageOf e = StAlloc) eA /\
    Forall (fun e => stageOf e = StBind) eB /\
    Forall (fun e => stageOf e = StUpload) eU /\
    Forall (fun e => stageOf e = StLaunch) eL /\
    Forall (fun e => stageOf e = StDownload) eD /\
    Forall (fun e => stageOf e = StRelease) eR /\
    (eD <> [] \/ eR <> [] ->
     exists pre el r4,
       eL = pre ++ [el; EvCall cudaDeviceSynchronize r4] /\
       isLaunch el = true /\ failedCall el = false /\ _isError r4 = false).
Proof.
  intros R. apply _compute_inv in R.
  destruct R as [(kernel & m1 & e1 & e2 & RS & RR & ->) | (_ & r0 & _ & RS & _)].
  - apply setup_split in RS. destruct RS as (eS & eA & -> & FS & FA).
    destruct (getComputeThreadGroupSize (getEntryPointByIndex0 inp)) as [[x y] z] eqn:T.
    apply (_compute_run_inv _ _ _ _ _ _ _ _ _ _ _ _ T) in RR.
    destruct RR as (eB & eU & eL & eD & eR & -> & FB & FU & FL & FD & FR & _ & L & _).
    exists eS, eA, eB, eU, eL, eD, eR. rewrite <- app_assoc. splits; auto.
    intros NE. destruct (L NE) as (r1 & r2 & r3 & r4 & -> & E3 & E4).
    eexists [_; _], _, r4. splits; [reflexivity | reflexivity | exact E3 | exact E4].
  - apply setup_split in RS. destruct RS as (eS & eA & -> & FS & FA).
    exists eS, eA, [], [], [], [], []. rewrite !app_nil_r. splits; auto.
    intros [N | N]; contradiction.
Qed.

(** The stages of [_compute] never interleave.  In every run, whatever its
    outcome, an event never comes before an event of an earlier stage: the
    kernel look-up, the allocations, the stores of the bindings, the uploads,
    the launch with its wait, the copies back, the release with its frees. *)
Theorem compute_stages_in_order (dbg : bool) (drv : Driver) (module : Z)
    (inp : Input) (h : list Event) (m : Machine) (r : Step unit) (m' : Machine)
    (evs pre mid post : list Event) (e1 e2 : Event) :
  _compute dbg drv module inp h m = (r, m', evs) ->
  evs = pre ++ e1 :: mid ++ e2 :: post ->
  (stageRank (stageOf e1) <= stageRank (stageOf e2))%nat.
Proof.
  intros R E. apply compute_stages in R.
  destruct R as (eS & eA & eB & eU & eL & eD & eR & E' & FS & FA & FB & FU & FL & FD & FR & _).
  apply (ordered_pairs 0 evs pre e1 mid e2 post); [| exact E]. rewrite E'.
  apply (ordered_app StSetup); [exact FS |].
  apply (ordered_mono _ (stageRank StAlloc)); [simpl; lia |].
  apply (ordered_app StAlloc); [exact FA |].
  apply (ordered_mono _ (stageRank StBind)); [simpl; lia |].
  apply (ordered_app StBind); [exact FB |].
  apply (ordered_mono _ (stageRank StUpload)); [simpl; lia |].
  apply (ordered_app StUpload); [exact FU |].
  apply (ordered_mono _ (stageRank StLaunch)); [simpl; lia |].
  apply (ordered_app StLaunch); [exact FL |].
  apply (ordered_mono _ (stageRank StDownload)); [simpl; lia |].
  apply (ordered_app StDownload); [exact FD |].
  apply (ordered_mono _ (stageRank StRelease)); [simpl; lia |].
  apply ordered_stage. exact FR.
Qed.

Lemma compute_stages_in_order_witness :
  (stageRank (stageOf (EvCall (cudaMalloc 32) {| status := 0; out := 4098 |}))
   <= stageRank (stageOf EvReleaseValueTargets))%nat.
Proof.
  apply (compute_stages_in_order true (deviceDriver []) 77 (identityInput 1) []
           emptyMachine (fst (fst identityRun)) (snd (fst identityRun))
           (snd identityRun)
           (firstn 2 (snd identityRun))
           (firstn 11 (skipn 3 (snd identityRun)))
           (skipn 15 (snd identityRun))).
  - exact identityRun_eq.
  - vm_compute. reflexivity.
Defined.

Lemma stage_not_result s evs e :
  Forall (fun e => stageOf e = s) evs -> In e evs -> isResult e = true ->
  s = StDownload \/ s = StRelease.
Proof.
  intros F I Rs. rewrite Forall_forall in F. apply F in I. unfold isResult in Rs.
  rewrite I in Rs. destruct s; try discriminate; auto.
Qed.

(** No result without a completed kernel.  In every run of [_compute], a copy
    back to the host or a release of the targets comes after a
    [cuLaunchKernel] that succeeded, directly followed by a
    [cudaDeviceSynchronize] that succeeded; and no result comes before
    them. *)
Theorem compute_results_follow_sync (dbg : bool) (drv : Driver) (module : Z)
    (inp : Input) (h : list Event) (m : Machine) (r : Step unit) (m' : Machine)
    (evs : list Event) (e : Event) :
  _compute dbg drv module inp h m = (r, m', evs) ->
  In e evs -> isResult e = true ->
  exists pre el r4 post,
    evs = pre ++ el :: EvCall cudaDeviceSynchronize r4 :: post /\
    isLaunch el = true /\ failedCall el = false /\ _isError r4 = false /\
    Forall (fun e => isResult e = false) pre /\
    In e post.
Proof.
  intros R I Rs. apply compute_stages in R.
  destruct R as (eS & eA & eB & eU & eL & eD & eR & -> & FS & FA & FB & FU & FL & FD & FR & L).
  assert (NR : forall s l, Forall (fun e => stageOf e = s) l ->
                           s <> StDownload -> s <> StRelease ->
                           Forall (fun e => isResult e = false) l).
  { intros s l F N1 N2. revert F. apply Forall_impl. intros a <-.
    unfold isResult. destruct (stageOf a); try reflexivity; congruence. }
  assert (Late : In e (eD ++ eR)).
  { apply in_app_or in I. destruct I as [I | I];
      [destruct (stage_not_result _ _ _ FS I Rs); discriminate |].
    apply in_app_or in I. destruct I as [I | I];
      [destruct (stage_not_result _ _ _ FA I Rs); discriminate |].
    apply in_app_or in I. destruct I as [I | I];
      [destruct (stage_not_result _ _ _ FB I Rs); discriminate |].
    apply in_app_or in I. destruct I as [I | I];
      [destruct (stage_not_result _ _ _ FU I Rs); discriminate |].
    apply in_app_or in I. destruct I as [I | I];
      [destruct (stage_not_result _ _ _ FL I Rs); discriminate |].
    exact I. }
  assert (NE : eD <> [] \/ eR <> []).
  { destruct eD; [right | left; discriminate]. destruct eR; [destruct Late | discriminate]. }
  destruct (L NE) as (pl & el & r4 & -> & IL & OL & E4).
  exists (eS ++ eA ++ eB ++ eU ++ pl), el, r4, (eD ++ eR).
  splits; auto.
  - rewrite <- !app_assoc. reflexivity.
  - apply Forall_app in FL. destruct FL as (FL & _).
    apply Forall_app. split; [apply (NR _ _ FS); discriminate |].
    apply Forall_app. split; [apply (NR _ _ FA); discriminate |].
    apply Forall_app. split; [apply (NR _ _ FB); discriminate |].
    apply Forall_app. split; [apply (NR _ _ FU); discriminate |].
    apply (NR _ _ FL); discriminate.
Qed.

Lemma compute_results_follow_sync_witness :
  exists pre el r4 post,
    snd identityRun = pre ++ el :: EvCall cudaDeviceSynchronize r4 :: post /\
    isLaunch el = true /\ failedCall el = false /\ _isError r4 = false /\
    Forall (fun e => isResult e = false) pre /\
    In EvReleaseValueTargets post.
Proof.
  apply (compute_results_follow_sync true (deviceDriver []) 77 (identityInput 1) []
           emptyMachine (fst (fst identityRun)) (snd (fst identityRun))
           (snd identityRun) EvReleaseValueTargets).
  - exact identityRun_eq.
  - vm_compute. do 14 right. left. reflexivity.
  - reflexivity.
Defined.

(** ** The bindings and the upload *)

Lemma setBinding_exact loc value h m :
  exists r evs,
    setBinding (loc, value) h m = (r, m, evs) /\
    if bindsPointer (getTypeLayout loc)
    then evs = [EvStore (getUniform loc) (devicePointer (values m) value)] /\
         r = (if getUniform loc =? 0 then Abort else Ok tt)
    else r = Ok tt /\
         (evs = [] \/
          (evs = [EvStore (getUniform loc) (devicePointer (values m) value)] /\
           isUnsizedArray (getTypeLayout loc) = true /\ value <> None /\
           getUniform loc <> 0)).
Proof.
  unfold setBinding. unfold bind at 1, getMachine at 1. cbn iota beta.
  unfold bindsPointer, isUnsizedArray. rewrite getCUDAData_devicePointer.
  destruct (getKind (getTypeLayout loc));
    try (exists (Ok tt), []; split; [reflexivity | auto]; fail).
  - destruct (toInt (getElementCount (getTypeLayout loc)) =? 0);
      [| exists (Ok tt), []; split; [reflexivity | auto]].
    destruct value as [i |];
      [| exists (Ok tt), []; split; [reflexivity | auto]].
    destruct (getUniform loc =? 0) eqn:U; cbn [negb];
      [exists (Ok tt), []; split; [reflexivity | auto] |].
    rewrite store_run, U. do 2 eexists. split; [reflexivity |].
    split; [reflexivity |]. right. splits; auto; [discriminate |].
    apply Z.eqb_neq. exact U.
  - rewrite store_run. do 2 eexists. split; [reflexivity |]. auto.
  - rewrite store_run. do 2 eexists. split; [reflexivity |]. auto.
  - destruct (baseShape (getResourceShape (getTypeLayout loc)));
      try (exists (Ok tt), []; split; [reflexivity | auto]; fail);
      rewrite store_run; do 2 eexists; (split; [reflexivity |]); auto.
Qed.

(** The binder.  The loop over the bindings calls no driver function, changes
    no value and never returns a failure status.  What it leaves are stores:
    each one writes, at the uniform location of a binding, the device pointer
    of that binding's value (null when the value has no device memory).  A
    constant buffer, a parameter block, a structured or byte-address buffer
    is stored through its location unchecked: when all these locations are
    non-null each gets its store and the loop comes through; at the first
    null one the process ends on the write.  The only other stores are those
    of zero-count arrays with a value and a non-null location. *)
Theorem bindings_store_pointers (bs : list (BindLocation * option nat))
    (h : list Event) (m : Machine) (r : Step unit) (m' : Machine)
    (evs : list Event) :
  forEach bs setBinding h m = (r, m', evs) ->
  m' = m /\
  (forall e, In e evs ->
     exists loc value,
       In (loc, value) bs /\
       e = EvStore (getUniform loc) (devicePointer (values m) value) /\
       (bindsPointer (getTypeLayout loc) = true \/
        (isUnsizedArray (getTypeLayout loc) = true /\ value <> None /\
         getUniform loc <> 0))) /\
  ((r = Ok tt /\
    forall loc value,
      In (loc, value) bs -> bindsPointer (getTypeLayout loc) = true ->
      getUniform loc <> 0 /\
      In (EvStore (getUniform loc) (devicePointer (values m) value)) evs)
   \/
   (r = Abort /\
    exists pre loc value,
      evs = pre ++ [EvStore 0 (devicePointer (values m) value)] /\
      In (loc, value) bs /\ bindsPointer (getTypeLayout loc) = true /\
      getUniform loc = 0)).
Proof.
  revert h r m' evs. induction bs as [| [loc value] bs IH]; intros h r m' evs R.
  - inversion R; subst. splits; [reflexivity | intros e [] |].
    left. split; [reflexivity | intros loc value []].
  - destruct (setBinding_exact loc value h m) as (r1 & e1 & R1 & Sh).
    cbn [forEach] in R. apply bind_inv in R.
    destruct R as [(u & m1 & e1' & e2 & R1' & R2 & ->) | [(x0 & R1' & ->) | (R1' & ->)]];
      rewrite R1 in R1'; injection R1' as Er Em Ee; subst r1; subst e1;
      try subst m1; try subst m'.
    + (* this binding came through *)
      destruct (IH _ _ _ _ R2) as (Em & Ev & Cases). subst m'.
      assert (Here : forall e, In e e1' ->
                e = EvStore (getUniform loc) (devicePointer (values m) value) /\
                (bindsPointer (getTypeLayout loc) = true \/
                 (isUnsizedArray (getTypeLayout loc) = true /\ value <> None /\
                  getUniform loc <> 0))).
      { intros e I. destruct (bindsPointer (getTypeLayout loc)).
        - destruct Sh as (-> & _). destruct I as [<- | []]. auto.
        - destruct Sh as (_ & [-> | (-> & U & V & N)]); [destruct I |].
          destruct I as [<- | []]. auto. }
      splits; [reflexivity | |].
      * intros e I. apply in_app_or in I. destruct I as [I | I].
        -- destruct (Here e I) as (E & C). exists loc, value.
           splits; [left; reflexivity | exact E | exact C].
        -- destruct (Ev e I) as (l & v & I' & E & C). exists l, v.
           splits; [right; exact I' | exact E | exact C].
      * destruct Cases as [(-> & All) | (-> & pre & l & v & -> & I & B & U)].
        -- left. split; [reflexivity |]. intros l v [E | I] B.
           ++ inversion E; subst l v. rewrite B in Sh. destruct Sh as (-> & Ro).
              destruct (getUniform loc =? 0) eqn:U; [discriminate |].
              split; [apply Z.eqb_neq; exact U |]. left. reflexivity.
           ++ destruct (All l v I B) as (N & I'). split; [exact N |].
              apply in_or_app. right. exact I'.
        -- right. split; [reflexivity |]. exists (e1' ++ pre), l, v.
           splits; [apply app_assoc | right; exact I | exact B | exact U].
    + (* never a failure status *)
      destruct (bindsPointer (getTypeLayout loc)).
      * destruct Sh as (_ & Ro). destruct (getUniform loc =? 0); discriminate.
      * destruct Sh as (Ro & _). discriminate.
    + (* the write through a null location *)
      destruct (bindsPointer (getTypeLayout loc)) eqn:B.
      2:{ destruct Sh as (Ro & _). discriminate. }
      destruct Sh as (-> & Ro).
      destruct (getUniform loc =? 0) eqn:U; [| discriminate].
      apply Z.eqb_eq in U.
      splits; [reflexivity | |].
      * intros e [<- | []]. exists loc, value. splits; auto. left. reflexivity.
      * right. split; [reflexivity |]. exists [], loc, value. rewrite U.
        splits; auto. left. reflexivity.
Qed.

Lemma bindings_store_pointers_witness :
  In (EvStore 7000 (devicePointer (values identityMachine) (Some 1%nat)))
     (snd (forEach (getBindings (identityInput 1)) setBinding [] identityMachine)).
Proof.
  destruct (bindings_store_pointers (getBindings (identityInput 1)) []
              identityMachine
              (fst (fst (forEach (getBindings (identityInput 1)) setBinding []
                           identityMachine)))
              (snd (fst (forEach (getBindings (identityInput 1)) setBinding []
                           identityMachine)))
              (snd (forEach (getBindings (identityInput 1)) setBinding []
                      identityMachine))
              eq_refl)
    as (_ & _ & [(_ & All) | (N & _)]).
  - apply (All {| getTypeLayout := structuredBuffer; getUniform := 7000 |} (Some 1%nat)).
    + left. reflexivity.
    + reflexivity.
  - discriminate N.
Defined.

Lemma copyToDevice_exact dbg drv i h m r m' evs :
  copyToDevice dbg drv i h m = (r, m', evs) ->
  m' = m /\
  match nth_error (values m) i with
  | None => evs = [] /\ r = Ok tt
  | Some v =>
      match upload v with
      | None => evs = [] /\ r = Ok tt
      | Some c =>
          exists resp, evs = [EvCall c resp] /\
                       (_isError resp = false /\ r = Ok tt \/
                        _isError resp = true /\ isOk r = false)
      end
  end.
Proof.
  unfold copyToDevice. intros R. apply bind_inv in R.
  destruct R as [(a & m1 & e1 & e2 & R1 & R2 & ->) | [(x0 & R1 & ->) | (R1 & ->)]];
    try discriminate.
  inversion R1; subst a m1 e1. clear R1. cbn [app].
  unfold getCUDAData in R2. unfold upload.
  destruct (nth_error (values m) i) as [v |]; [| inversion R2; auto].
  assert (Skip : ret tt (h ++ []) m = (r, m', e2) -> m' = m /\ e2 = [] /\ r = Ok tt).
  { intros H. inversion H; auto. }
  destruct (m_target v) as [[p |] |].
  - destruct (negb (m_data v =? 0) && negb (p =? 0)); [| apply Skip; exact R2].
    apply checked_bind in R2.
    destruct R2 as [(E & N & -> & -> & _) | (E & e3 & R2 & ->)].
    + split; [reflexivity |]. eexists. split; [reflexivity |]. right. auto.
    + inversion R2; subst. split; [reflexivity |]. eexists. split; [reflexivity |].
      left. auto.
  - rewrite Bool.andb_false_r in R2. apply Skip. exact R2.
  - rewrite Bool.andb_false_r in R2. apply Skip. exact R2.
Qed.

Lemma upload_loop dbg drv : forall n k h m r m' evs,
  forEach (seq k n) (copyToDevice dbg drv) h m = (r, m', evs) ->
  (k + n)%nat = length (values m) ->
  m' = m /\
  exists done rest,
    uploads (skipn k (values m)) = done ++ rest /\
    Forall2 isCallOf evs done /\
    (r = Ok tt -> rest = [] /\ Forall (fun e => failedCall e = false) evs) /\
    (isOk r = false ->
     exists pre e, evs = pre ++ [e] /\ failedCall e = true /\
                   Forall (fun e => failedCall e = false) pre).
Proof.
  induction n as [| n IH]; intros k h m r m' evs R L.
  - inversion R; subst. split; [reflexivity |]. exists [], [].
    rewrite skipn_all2 by lia. splits; [reflexivity | constructor | auto | discriminate].
  - cbn [seq forEach] in R.
    destruct (nth_error (values m) k) as [v |] eqn:N.
    2:{ apply nth_error_None in N. lia. }
    rewrite (skipn_nth_error _ _ _ N). unfold uploads. cbn [flat_map].
    fold (uploads (skipn (S k) (values m))).
    apply bind_inv in R.
    destruct R as [(a & m1 & e1 & e2 & R1 & R2 & ->) | [(x0 & R1 & ->) | (R1 & ->)]];
      apply copyToDevice_exact in R1; rewrite N in R1; destruct R1 as (-> & R1).
    + apply IH in R2; [| lia].
      destruct R2 as (-> & done & rest & E & F2 & OkC & FailC).
      split; [reflexivity |]. rewrite E.
      destruct (upload v) as [c |].
      * destruct R1 as (resp & -> & [(NE & _) | (_ & Bad)]); [| discriminate].
        exists (c :: done), rest. splits.
        -- reflexivity.
        -- constructor; [exists resp; reflexivity | exact F2].
        -- intros H. destruct (OkC H) as (-> & FO). split; [reflexivity |].
           constructor; [exact NE | exact FO].
        -- intros H. destruct (FailC H) as (pre & e & -> & B & FP).
           exists (EvCall c resp :: pre), e. splits; auto.
      * destruct R1 as (-> & _). exists done, rest. splits; auto.
    + split; [reflexivity |].
      destruct (upload v) as [c |]; [| destruct R1 as (_ & R1); discriminate].
      destruct R1 as (resp & -> & [(_ & R1) | (Bad & _)]); [discriminate |].
      exists [c], (uploads (skipn (S k) (values m))). splits.
      * reflexivity.
      * constructor; [exists resp; reflexivity | constructor].
      * discriminate.
      * intros _. exists [], (EvCall c resp). splits; auto.
    + split; [reflexivity |].
      destruct (upload v) as [c |]; [| destruct R1 as (_ & R1); discriminate].
      destruct R1 as (resp & -> & [(_ & R1) | (Bad & _)]); [discriminate |].
      exists [c], (uploads (skipn (S k) (values m))). splits.
      * reflexivity.
      * constructor; [exists resp; reflexivity | constructor].
      * discriminate.
      * intros _. exists [], (EvCall c resp). splits; auto.
Qed.

(** The upload.  The loop copies to the device exactly the values that have
    host data and device memory, in the order of the bind set, each with its
    own size [m_sizeInBytes]; it changes no value.  It stops at the first
    copy that fails: the run then does not come through and the failed copy
    is its last call.  A run that comes through has made all the copies, and
    they all succeeded. *)
Theorem upload_copies_exactly (dbg : bool) (drv : Driver) (h : list Event)
    (m : Machine) (r : Step unit) (m' : Machine) (evs : list Event) :
  copyAllToDevice dbg drv h m = (r, m', evs) ->
  m' = m /\
  exists done rest,
    uploads (values m) = done ++ rest /\
    Forall2 isCallOf evs done /\
    (r = Ok tt -> rest = [] /\ Forall (fun e => failedCall e = false) evs) /\
    (isOk r = false ->
     exists pre e, evs = pre ++ [e] /\ failedCall e = true /\
                   Forall (fun e => failedCall e = false) pre).
Proof.
  unfold copyAllToDevice. intros R.
  apply (bind_Ok_inv _ _ _ _ m m [] _ _ _ eq_refl) in R.
  destruct R as (e2 & R & ->). cbn [app].
  apply upload_loop in R; [| reflexivity]. exact R.
Qed.

Lemma upload_copies_exactly_witness :
  exists done rest,
    uploads identityValues = done ++ rest /\
    Forall2 isCallOf
      (snd (copyAllToDevice false (deviceDriver []) [] (withValues emptyMachine identityValues)))
      done.
Proof.
  destruct (upload_copies_exactly false (deviceDriver []) []
              (withValues emptyMachine identityValues)
              (fst (fst (copyAllToDevice false (deviceDriver []) []
                           (withValues emptyMachine identityValues))))
              (snd (fst (copyAllToDevice false (deviceDriver []) []
                           (withValues emptyMachine identityValues))))
              (snd (copyAllToDevice false (deviceDriver []) []
                      (withValues emptyMachine identityValues)))
              eq_refl)
    as (_ & done & rest & E & F & _).
  exists done, rest. split; [exact E | exact F].
Defined.

(** ** Why [execute] fails *)

Lemma failsFor_bind {A B} S (c : M A) (k : A -> M B) :
  failsFor S c -> (forall a, failsFor S (k a)) -> failsFor S (bind c k).
Proof.
  intros C K h m x m' evs R. apply bind_inv in R.
  destruct R as [(a & m1 & e1 & e2 & R1 & R2 & ->) | [(x0 & R1 & E) | (_ & E)]];
    [| | discriminate].
  - destruct (K a _ _ _ _ _ R2) as [Hs | (e & I & Be)]; [left; exact Hs |].
    right. exists e. split; [apply in_or_app; right; exact I | exact Be].
  - injection E as <-. exact (C _ _ _ _ _ R1).
Qed.

Lemma failsFor_forEach {A} S (body : A -> M unit) l :
  (forall x, failsFor S (body x)) -> failsFor S (forEach l body).
Proof.
  intros B. induction l as [| x l IH]; [intros h m y m' evs R; discriminate R |].
  cbn [forEach]. apply failsFor_bind; [apply B | intros _; exact IH].
Qed.

Lemma failsFor_never {A} S (c : M A) : failsIn (fun _ => False) c -> failsFor S c.
Proof.
  intros N h m x m' evs R. exfalso. apply (N h m x). rewrite R. reflexivity.
Qed.

Ltac never := solve [apply failsFor_never; nofail].

Lemma failsFor_cuda dbg drv S c :
  (forall resp, isCtxDestroy (EvCall c resp) = false) ->
  failsFor S (SLANG_CUDA_RETURN_ON_FAIL dbg drv c).
Proof.
  intros ND h m x m' evs R. apply cuda_call_inv in R.
  destruct R as (_ & -> & [(_ & N) | (E & _)]); [discriminate |].
  right. eexists. split; [left; reflexivity |].
  unfold bad. simpl failedCall. rewrite E, ND. reflexivity.
Qed.

Lemma failsFor_createResources dbg drv S : failsFor S (createResources dbg drv).
Proof.
  unfold createResources. apply failsFor_bind; [never | intros m0].
  apply failsFor_forEach. intros i. unfold createResource.
  apply failsFor_bind; [never | intros m1].
  assert (A : forall v, failsFor S (allocateTarget dbg drv i v)).
  { intros v. unfold allocateTarget.
    apply failsFor_bind; [apply failsFor_cuda; reflexivity | intros ?; never]. }
  destruct (nth_error (values m1) i) as [v |]; [| never].
  destruct (m_type v) as [t |]; [| apply A].
  destruct (getKind t); try never; try apply A.
  destruct (baseShape (getResourceShape t)); try never; try apply A.
  apply failsFor_never. apply failsIn_assert.
Qed.

Lemma failsFor_compute dbg drv module inp :
  failsFor (SLANG_FAILED (addBindSetValues inp) = true) (_compute dbg drv module inp).
Proof.
  unfold _compute. apply failsFor_bind.
  { unfold _compute_setup.
    apply failsFor_bind; [apply failsFor_never; apply failsIn_assert | intros _].
    apply failsFor_bind; [apply failsFor_cuda; reflexivity | intros ?].
    apply failsFor_bind; [never | intros _].
    apply failsFor_bind.
    { unfold SLANG_RETURN_ON_FAIL.
      destruct (SLANG_FAILED (addBindSetValues inp)) eqn:F; [| never].
      intros h m x m' evs _. left. reflexivity. }
    intros _. apply failsFor_bind; [apply failsFor_createResources | intros _; never]. }
  intros kernel. unfold _compute_run.
  apply failsFor_bind.
  { apply failsFor_forEach. intros b h m x m' evs R.
    destruct (setBinding_inv b h m) as (rb & e0 & R0 & _ & [-> | ->]);
      rewrite R0 in R; discriminate R. }
  intros _. apply failsFor_bind.
  { unfold copyAllToDevice. apply failsFor_bind; [never | intros m0].
    apply failsFor_forEach. intros i. unfold copyToDevice.
    apply failsFor_bind; [never | intros m1].
    destruct (nth_error (values m1) i) as [v |]; [| never].
    destruct (_ && _); [| never].
    apply failsFor_bind; [apply failsFor_cuda; reflexivity | intros ?; never]. }
  intros _. apply failsFor_bind.
  { unfold launchKernel.
    do 2 (apply failsFor_bind; [apply failsFor_cuda; reflexivity | intros ?]).
    apply failsFor_bind; [never | intros m0].
    destruct (getComputeThreadGroupSize (getEntryPointByIndex0 inp)) as [[x y] z].
    intros h m x0 m' evs R. apply checked_call_bind in R.
    destruct R as [(E & _ & _ & -> & _) | (_ & e2 & R & ->)].
    - right. eexists. split; [left; reflexivity |].
      unfold bad. simpl. rewrite E. reflexivity.
    - cbn [Z.eqb negb] in R.
      assert (F : failsFor (SLANG_FAILED (addBindSetValues inp) = true)
                    (_ <- SLANG_CUDA_RETURN_ON_FAIL dbg drv cudaDeviceSynchronize ;; ret tt)).
      { apply failsFor_bind; [apply failsFor_cuda; reflexivity | intros ?; never]. }
      destruct (F _ _ _ _ _ R) as [Hs | (e & I & Be)]; [left; exact Hs |].
      right. exists e. split; [right; exact I | exact Be]. }
  intros _. apply failsFor_bind.
  { apply failsFor_forEach. intros [entry value]. unfold copyBack.
    apply failsFor_bind; [never | intros m0].
    destruct (isOutput entry); [| never].
    destruct value as [i |]; [| never].
    destruct (nth_error (values m0) i) as [v |]; [| never].
    destruct (_ && _); [| never].
    apply failsFor_bind; [apply failsFor_cuda; reflexivity | intros ?; never]. }
  intros _. cbn [Z.eqb negb]. apply failsFor_bind; [never | intros _].
  unfold releaseValueTargets. apply failsFor_bind; [never | intros _].
  apply failsFor_bind; [never | intros m0].
  apply failsFor_forEach. intros i. unfold releaseValueTarget.
  apply failsFor_bind; [never | intros m1].
  destruct (nth_error (values m1) i) as [v |]; [| never].
  destruct (m_target v) as [[p |] |]; try never.
  apply failsFor_bind; [| intros _].
  { unfold setTargetAt, setValues. apply failsFor_bind; [never | intros ?].
    apply failsFor_bind; [never | intros ?; never]. }
  unfold CUDAResource_dtor. destruct (negb (p =? 0)); [| never].
  unfold SLANG_CUDA_ASSERT_ON_FAIL. apply failsFor_bind; [never | intros r].
  destruct (_isError r); [apply failsFor_never; apply failsIn_assert | never].
Qed.

Lemma emits_initCuda_cuInit dbg drv P :
  (forall resp, P (EvCall (cuInit 0) resp)) -> emits P (_initCuda dbg drv).
Proof.
  intros Pc. unfold _initCuda. apply emits_bind; [quietly | intros m0].
  apply emits_bind; [| intros ?; apply emits_cudaReturnOnFail].
  destruct (cuInit_res m0); [quietly |].
  apply emits_bind; [intros h m; simpl; constructor; [apply Pc | constructor] | intros ?].
  apply emits_bind; quietly.
Qed.

(** A failing [init(flags)], from a scope without context: a call failed, or
    no device was ever set. *)
Lemma init_failure_cause dbg drv flags h m x m' evs :
  m_context m = 0 ->
  ScopeCUDAContext_init dbg drv flags h m = (Fail x, m', evs) ->
  (exists e, In e evs /\ bad e = true) \/
  Forall (fun e => isSelect e = false) evs.
Proof.
  intros Z0 R. unfold ScopeCUDAContext_init in R. apply bind_inv in R.
  assert (E1 : forall h0 m0, Forall (fun e => isSelect e = false)
                               (snd (_initCuda dbg drv h0 m0))).
  { apply emits_initCuda_cuInit. reflexivity. }
  assert (E2 : forall h0 m0, Forall (fun e => isSelect e = false)
                               (snd (_findMaxFlopsDeviceId dbg drv h0 m0))).
  { intros h0 m0. pose proof (emits_findMaxFlops dbg drv h0 m0) as Q.
    revert Q. apply Forall_impl. intros [c r | |]; try discriminate.
    destruct c; try discriminate; reflexivity. }
  destruct R as [(u & m1 & e1 & e2 & R1 & R & ->) | [(x0 & R1 & _) | (_ & N)]];
    [| | discriminate].
  2:{ right. specialize (E1 h m). rewrite R1 in E1. exact E1. }
  pose proof (initCuda_noCtx _ _ _ _ _ _ _ R1) as (C1 & _ & _).
  specialize (E1 h m). rewrite R1 in E1. simpl in E1.
  apply bind_inv in R.
  destruct R as [(dev & m2 & e3 & e4 & R2 & R & ->) | [(x0 & R2 & _) | (_ & N)]];
    [| | discriminate].
  2:{ right. specialize (E2 (h ++ e1) m1). rewrite R2 in E2.
      apply Forall_app. split; [exact E1 | exact E2]. }
  pose proof (findMaxFlops_run _ _ _ _ _ _ _ R2) as (-> & _).
  left. apply checked_bind in R.
  destruct R as [(E & _ & _ & -> & _) | (_ & e5 & R & ->)].
  - eexists. split; [apply in_or_app; right; apply in_or_app; right; left; reflexivity |].
    unfold bad. simpl. rewrite E. reflexivity.
  - apply recreateContext_inv in R.
    destruct R as (rc & _ & _ & Rr & [(_ & ->) | (NZ & _)]); [| congruence].
    destruct (_isError rc) eqn:E; [| discriminate].
    exists (EvCall (cuCtxCreate flags dev) rc). split.
    + apply in_or_app; right; apply in_or_app; right. right. left. reflexivity.
    + unfold bad. simpl. rewrite E. reflexivity.
Qed.

(** Why [execute] fails.  A run that returns a failure status has one of
    four causes: a driver call the code checks returned an error; the
    compiled output holds no compute kernel; [addBindSetValues] failed; or
    no device was ever set (CUDA did not initialise, or no device was
    eligible).  So with a device, a kernel, the values bound and every call
    succeeding, [execute] does not fail. *)
Theorem execute_failure_causes (dbg : bool) (drv : Driver) (inp : Input)
    (h : list Event) (m : Machine) (x : SlangResult) (m' : Machine)
    (evs : list Event) :
  execute dbg drv inp h m = (Fail x, m', evs) ->
  (exists e, In e evs /\ bad e = true) \/
  findKernelDescIndex inp < 0 \/
  SLANG_FAILED (addBindSetValues inp) = true \/
  Forall (fun e => isSelect e = false) evs.
Proof.
  unfold execute. intros R. apply scoped_inv in R.
  destruct R as (h0 & eb & RB & Tail).
  assert (B : (exists e, In e eb /\ bad e = true) \/
              findKernelDescIndex inp < 0 \/
              SLANG_FAILED (addBindSetValues inp) = true \/
              Forall (fun e => isSelect e = false) eb).
  { apply bind_inv in RB.
    destruct RB as [(u & m1 & e1 & e2 & R1 & R & ->) | [(x0 & R1 & E) | (_ & N)]];
      [| | discriminate].
    - assert (F : failsFor (findKernelDescIndex inp < 0 \/
                            SLANG_FAILED (addBindSetValues inp) = true)
                    ((if findKernelDescIndex inp <? 0 then fail SLANG_FAIL else ret tt) ;;;
                     module <- SLANG_CUDA_RETURN_ON_FAIL dbg drv
                                 (cuModuleLoadData (codeBegin inp)) ;;
                     _compute dbg drv module inp ;;;
                     _ <- SLANG_CUDA_RETURN_ON_FAIL dbg drv (cuModuleUnload module) ;;
                     ret tt)).
      { apply failsFor_bind.
        { destruct (findKernelDescIndex inp <? 0) eqn:Ix; [| never].
          intros ? ? ? ? ? _. left. left. apply Z.ltb_lt. exact Ix. }
        intros _. apply failsFor_bind; [apply failsFor_cuda; reflexivity | intros module].
        apply failsFor_bind.
        { intros h1 m2 x1 m3 e3 RC.
          destruct (failsFor_compute dbg drv module inp _ _ _ _ _ RC) as [Hs | Hb];
            [left; right; exact Hs | right; exact Hb]. }
        intros _. apply failsFor_bind; [apply failsFor_cuda; reflexivity | intros ?; never]. }
      destruct (F _ _ _ _ _ R) as [[Hs | Hs] | (e & I & Be)]; auto.
      left. exists e. split; [apply in_or_app; right; exact I | exact Be].
    - injection E as <-. apply init_failure_cause in R1; [| reflexivity].
      destruct R1 as [Hb | Hn]; auto. }
  destruct Tail as [(A & _) | (_ & [(_ & ->) | (_ & rd & ->)])]; [discriminate | exact B |].
  destruct B as [(e & I & Be) | [Hs | [Hs | Hn]]]; auto.
  - left. exists e. split; [apply in_or_app; left; exact I | exact Be].
  - right. right. right. apply Forall_app. split; [exact Hn | repeat constructor].
Qed.

Lemma execute_failure_causes_witness :
  (exists e, In e (snd failingRun) /\ bad e = true) \/
  findKernelDescIndex (identityInput 1) < 0 \/
  SLANG_FAILED (addBindSetValues (identityInput 1)) = true \/
  Forall (fun e => isSelect e = false) (snd failingRun).
Proof.
  apply (execute_failure_causes false
           (failingOn memcpyFails (deviceDriver [gtx1080]))
           (identityInput 1) [] emptyMachine SLANG_FAIL
           (snd (fst failingRun)) (snd failingRun)).
  exact failingRun_eq.
Defined.

(** ** A failed call that the code checks ends the run *)

Lemma free_not_checked p resp : checkedFailure (EvCall (cudaFree p) resp) = false.
Proof. unfold checkedFailure. cbn [isFree negb]. apply Bool.andb_false_r. Qed.

Lemma ctxDestroy_not_checked e : isCtxDestroy e = true -> checkedFailure e = false.
Proof.
  intros H. unfold checkedFailure, bad. rewrite H. cbn [negb].
  rewrite Bool.andb_false_r. reflexivity.
Qed.

Lemma checkedFailure_failed e : checkedFailure e = true -> failedCall e = true.
Proof.
  unfold checkedFailure, bad. intros H.
  apply andb_true_iff in H. destruct H as (H & _).
  apply andb_true_iff in H. apply H.
Qed.

Lemma checkedFailure_bad e : checkedFailure e = true -> bad e = true /\ isFree e = false.
Proof.
  unfold checkedFailure. intros H. apply andb_true_iff in H. destruct H as (B & F).
  split; [exact B |]. destruct (isFree e); [discriminate | reflexivity].
Qed.

Lemma failsOnError_bind {A B} dbg (c : M A) (k : A -> M B) :
  failsOnError dbg c -> (forall a, failsOnError dbg (k a)) ->
  failsOnError dbg (bind c k).
Proof.
  intros C K h m r m' evs R (e & I & Ce). apply bind_inv in R.
  destruct R as [(a & m1 & e1 & e2 & R1 & R2 & ->) | [(x0 & R1 & ->) | (R1 & ->)]].
  - apply in_app_or in I. destruct I as [I | I].
    + destruct (C _ _ _ _ _ R1 (ex_intro _ e (conj I Ce))) as [N | (_ & N)];
        discriminate N.
    + apply (K a _ _ _ _ _ R2). exists e. auto.
  - destruct (C _ _ _ _ _ R1 (ex_intro _ e (conj I Ce))) as [N | (_ & N)];
      [| discriminate N].
    left. injection N as ->. reflexivity.
  - destruct (C _ _ _ _ _ R1 (ex_intro _ e (conj I Ce))) as [N | (D & _)];
      [discriminate N |].
    right. auto.
Qed.

Lemma failsOnError_forEach {A} dbg (body : A -> M unit) l :
  (forall x, failsOnError dbg (body x)) -> failsOnError dbg (forEach l body).
Proof.
  intros B. induction l as [| x l IH].
  - intros h m r m' evs R (e & I & _). inversion R; subst. destruct I.
  - cbn [forEach]. apply failsOnError_bind; [apply B | intros _; exact IH].
Qed.

(** A part none of whose events is a checked failure. *)
Lemma failsOnError_quiet {A} dbg (c : M A) :
  emits (fun e => checkedFailure e = false) c -> failsOnError dbg c.
Proof.
  intros Q h m r m' evs R (e & I & Ce). exfalso.
  specialize (Q h m). rewrite R in Q. simpl in Q. rewrite Forall_forall in Q.
  rewrite (Q e I) in Ce. discriminate.
Qed.

Ltac unchecked := solve [apply failsOnError_quiet; quietly].

Lemma failsOnError_finally {A} dbg (body : M A) cleanup :
  failsOnError dbg body -> emits (fun e => checkedFailure e = false) cleanup ->
  failsOnError dbg (finally body cleanup).
Proof.
  intros B C h m r m' evs R (e & I & Ce). unfold finally in R.
  destruct (body h m) as [[rb mb] eb] eqn:RB.
  assert (Hb : In e eb -> rb = Fail SLANG_FAIL \/ dbg = true /\ rb = Abort).
  { intros Ib. apply (B _ _ _ _ _ RB). exists e. auto. }
  destruct rb as [a | x |].
  - specialize (C (h ++ eb) mb).
    destruct (cleanup (h ++ eb) mb) as [[rc mc] ec]. simpl in C.
    inversion R; subst. apply in_app_or in I. destruct I as [I | I].
    + destruct (Hb I) as [N | (_ & N)]; discriminate N.
    + rewrite Forall_forall in C. rewrite (C e I) in Ce. discriminate.
  - specialize (C (h ++ eb) mb).
    destruct (cleanup (h ++ eb) mb) as [[rc mc] ec]. simpl in C.
    inversion R; subst. apply in_app_or in I. destruct I as [I | I].
    + destruct (Hb I) as [N | (_ & N)]; [| discriminate N].
      left. injection N as ->. reflexivity.
    + rewrite Forall_forall in C. rewrite (C e I) in Ce. discriminate.
  - inversion R; subst. destruct (Hb I) as [N | (D & _)]; [discriminate N |].
    right. auto.
Qed.

Lemma failsOnError_cuda dbg drv c :
  failsOnError dbg (SLANG_CUDA_RETURN_ON_FAIL dbg drv c).
Proof.
  intros h m r m' evs R (e & I & Ce). apply cuda_call_inv in R.
  destruct R as (_ & -> & [(E & _) | (_ & ->)]).
  - destruct I as [<- | []]. apply checkedFailure_failed in Ce. simpl in Ce.
    congruence.
  - destruct dbg; auto.
Qed.

(** A call whose status is kept and checked next. *)
Lemma failsOnError_call_checked {B} dbg drv c (k : M B) :
  failsOnError dbg k ->
  failsOnError dbg
    (bind (call drv c) (fun res => cudaReturnOnFail dbg (_isError res) ;;; k)).
Proof.
  intros K h m r m' evs R (e & I & Ce). apply checked_call_bind in R.
  destruct R as [(_ & _ & _ & _ & ->) | (E & e2 & R & ->)].
  - destruct dbg; auto.
  - destruct I as [<- | I].
    + apply checkedFailure_failed in Ce. simpl in Ce. congruence.
    + apply (K _ _ _ _ _ R). exists e. auto.
Qed.

Lemma failsOnError_deviceLoop dbg drv fuel : forall cur md mp,
  failsOnError dbg (deviceLoop dbg drv fuel cur md mp).
Proof.
  induction fuel as [| fuel IH]; intros cur md mp; cbn [deviceLoop]; [unchecked |].
  do 3 (apply failsOnError_bind; [apply failsOnError_cuda | intros ?]).
  destruct (negb (a =? cudaComputeModeProhibited)); [| apply IH].
  apply failsOnError_bind.
  { destruct ((a0 =? 9999) && (a1 =? 9999)); unchecked. }
  intros ?.
  do 2 (apply failsOnError_bind; [apply failsOnError_cuda | intros ?]).
  destruct (mp <? _); apply IH.
Qed.

Lemma failsOnError_initCuda dbg drv : failsOnError dbg (_initCuda dbg drv).
Proof.
  intros h m r m' evs R (e & I & Ce). revert R.
  unfold _initCuda, bind, getMachine, setInitRes, putMachine, call, ret,
    cudaReturnOnFail, SLANG_ASSERT_M, fail, assertFailure, bind.
  destruct (cuInit_res m) as [s |]; simpl.
  - destruct (negb (s =? 0)); destruct dbg; simpl; intros R; inversion R; subst;
      destruct I.
  - fold (_isError (drv (h ++ []) (cuInit 0))).
    destruct (_isError (drv (h ++ []) (cuInit 0))) eqn:E; destruct dbg; simpl;
      intros R; inversion R; subst; auto;
      destruct I as [<- | []]; apply checkedFailure_failed in Ce; simpl in Ce;
      congruence.
Qed.

Lemma failsOnError_recreateContext dbg drv flags device :
  failsOnError dbg (recreateContext drv flags device).
Proof.
  intros h m r m' evs R (e & I & Ce). apply recreateContext_inv in R.
  destruct R as (rc & _ & _ & -> & Sh).
  assert (E : _isError rc = true).
  { destruct Sh as [(_ & ->) | (_ & rd & ->)].
    - destruct I as [<- | []]. apply checkedFailure_failed in Ce. exact Ce.
    - destruct I as [<- | [<- | []]].
      + rewrite ctxDestroy_not_checked in Ce by reflexivity. discriminate.
      + apply checkedFailure_failed in Ce. exact Ce. }
  rewrite E. auto.
Qed.

Lemma failsOnError_init dbg drv flags :
  failsOnError dbg (ScopeCUDAContext_init dbg drv flags).
Proof.
  unfold ScopeCUDAContext_init.
  apply failsOnError_bind; [apply failsOnError_initCuda | intros _].
  apply failsOnError_bind.
  { unfold _findMaxFlopsDeviceId.
    apply failsOnError_bind; [apply failsOnError_cuda | intros ?].
    apply failsOnError_bind; [apply failsOnError_deviceLoop | intros ?].
    destruct (_ <? 0); unchecked. }
  intros ?. apply failsOnError_bind; [apply failsOnError_cuda | intros ?].
  apply failsOnError_recreateContext.
Qed.

Lemma failsOnError_compute dbg drv module inp :
  failsOnError dbg (_compute dbg drv module inp).
Proof.
  unfold _compute. apply failsOnError_bind.
  { unfold _compute_setup.
    apply failsOnError_bind; [apply failsOnError_quiet; apply emits_assert | intros _].
    apply failsOnError_bind; [apply failsOnError_cuda | intros ?].
    apply failsOnError_bind; [unchecked | intros _].
    apply failsOnError_bind.
    { unfold SLANG_RETURN_ON_FAIL. destruct (SLANG_FAILED _); unchecked. }
    intros _. apply failsOnError_bind; [| intros _; unchecked].
    unfold createResources. apply failsOnError_bind; [unchecked | intros m0].
    apply failsOnError_forEach. intros i. unfold createResource.
    apply failsOnError_bind; [unchecked | intros m1].
    assert (A : forall v, failsOnError dbg (allocateTarget dbg drv i v)).
    { intros v. unfold allocateTarget.
      apply failsOnError_bind; [apply failsOnError_cuda | intros ?; unchecked]. }
    destruct (nth_error (values m1) i) as [v |]; [| unchecked].
    destruct (m_type v) as [t |]; [| apply A].
    destruct (getKind t); try unchecked; try apply A.
    destruct (baseShape (getResourceShape t)); try unchecked; try apply A.
    apply failsOnError_quiet. apply emits_assert. }
  intros kernel. unfold _compute_run.
  apply failsOnError_bind.
  { apply failsOnError_forEach. intros b. apply failsOnError_quiet. intros h m.
    destruct (setBinding_inv b h m) as (rb & evs & -> & F & _). simpl.
    revert F. apply Forall_impl. intros e.
    destruct e as [c r | |]; try discriminate; try reflexivity.
    destruct c; try discriminate. destruct kind; discriminate. }
  intros _. apply failsOnError_bind.
  { unfold copyAllToDevice. apply failsOnError_bind; [unchecked | intros m0].
    apply failsOnError_forEach. intros i. unfold copyToDevice.
    apply failsOnError_bind; [unchecked | intros m1].
    destruct (nth_error (values m1) i) as [v |]; [| unchecked].
    destruct (_ && _); [| unchecked].
    apply failsOnError_bind; [apply failsOnError_cuda | intros ?; unchecked]. }
  intros _. apply failsOnError_bind.
  { unfold launchKernel.
    do 2 (apply failsOnError_bind; [apply failsOnError_cuda | intros ?]).
    apply failsOnError_bind; [unchecked | intros m0].
    destruct (getComputeThreadGroupSize (getEntryPointByIndex0 inp)) as [[x y] z].
    cbv zeta. apply failsOnError_call_checked.
    cbn [Z.eqb negb].
    apply failsOnError_bind; [apply failsOnError_cuda | intros ?; unchecked]. }
  intros _. apply failsOnError_bind.
  { apply failsOnError_forEach. intros [entry value]. unfold copyBack.
    apply failsOnError_bind; [unchecked | intros m0].
    destruct (isOutput entry); [| unchecked].
    destruct value as [i |]; [| unchecked].
    destruct (nth_error (values m0) i) as [v |]; [| unchecked].
    destruct (_ && _); [| unchecked].
    apply failsOnError_bind; [apply failsOnError_cuda | intros ?; unchecked]. }
  intros _. cbn [Z.eqb negb]. apply failsOnError_bind; [unchecked | intros _].
  apply failsOnError_quiet.
  unfold releaseValueTargets. apply emits_bind; [quietly | intros _].
  apply emits_bind; [quietly | intros m0].
  apply emits_forEach. intros i. unfold releaseValueTarget.
  apply emits_bind; [quietly | intros m1].
  destruct (nth_error (values m1) i) as [v |]; [| quietly].
  destruct (m_target v) as [[p |] |]; try quietly.
  apply emits_bind; [quietly | intros _].
  unfold CUDAResource_dtor. destruct (negb (p =? 0)); [| quietly].
  unfold SLANG_CUDA_ASSERT_ON_FAIL. apply emits_bind.
  { intros h m. simpl. constructor; [apply free_not_checked | constructor]. }
  intros r. destruct (_isError r); [apply emits_assert | quietly].
Qed.

(** In a run of [execute], a failed call that the code checks makes the
    result [SLANG_FAIL]; with assertions the run may end in the assertion of
    the call instead. *)
Lemma execute_fails_on_error dbg drv inp :
  failsOnError dbg (execute dbg drv inp).
Proof.
  unfold execute, withScopeCUDAContext.
  apply failsOnError_bind; [unchecked | intros _].
  apply failsOnError_finally.
  2:{ apply (emits_weaken (fun e => isCtxDestroy e = true));
        [apply ctxDestroy_not_checked | apply emits_dtor]. }
  apply failsOnError_bind; [apply failsOnError_init | intros _].
  apply failsOnError_bind; [destruct (_ <? 0); unchecked | intros _].
  apply failsOnError_bind; [apply failsOnError_cuda | intros module].
  apply failsOnError_bind; [apply failsOnError_compute | intros _].
  apply failsOnError_bind; [apply failsOnError_cuda | intros ?; unchecked].
Qed.

(** ** The release, exactly *)

















(** ** The failure statuses of [execute] *)

(** A failing return of [execute] carries [SLANG_FAIL], or the failing
    status [addBindSetValues] gave, which is passed on unchanged; nothing
    else.  And every failed driver call that the code checks (all but the
    destruction of a context and the frees of the release), whatever its
    CUDA error, comes out as [SLANG_FAIL]; with assertions the run may end in
    the assertion of the call instead. *)
Theorem execute_failure_statuses (dbg : bool) (drv : Driver) (inp : Input)
    (h : list Event) (m : Machine) (r : Step unit) (m' : Machine)
    (evs : list Event) :
  execute dbg drv inp h m = (r, m', evs) ->
  (forall x, r = Fail x ->
     x < 0 /\ (x = SLANG_FAIL \/ x = addBindSetValues inp)) /\
  (forall c resp,
     In (EvCall c resp) evs -> status resp <> 0 ->
     (forall ctx, c <> cuCtxDestroy ctx) -> (forall p, c <> cudaFree p) ->
     r = Fail SLANG_FAIL \/ (dbg = true /\ r = Abort)).
Proof.
  intros R. split.
  - intros x ->.
    pose proof (failsIn_execute dbg drv inp h m x) as F. rewrite R in F.
    destruct (F eq_refl) as (N & C).
    split; [| exact C]. unfold SLANG_FAILED in N. apply Z.ltb_lt in N. exact N.
  - intros c resp I S ND NF.
    apply (execute_fails_on_error dbg drv inp _ _ _ _ _ R).
    exists (EvCall c resp). split; [exact I |].
    unfold checkedFailure, bad. cbn [failedCall].
    assert (E : _isError resp = true).
    { unfold _isError. apply Z.eqb_neq in S. rewrite S. reflexivity. }
    rewrite E. destruct c; try reflexivity.
    + contradiction (ND ctx). reflexivity.
    + contradiction (NF devPtr). reflexivity.
Qed.

Lemma execute_failure_statuses_witness :
  fst (fst failingRun) = Fail SLANG_FAIL \/
  (false = true /\ fst (fst failingRun) = Abort).
Proof.
  apply (proj2 (execute_failure_statuses false
                  (failingOn memcpyFails (deviceDriver [gtx1080]))
                  (identityInput 1) [] emptyMachine
                  (fst (fst failingRun)) (snd (fst failingRun)) (snd failingRun)
                  failingRun_eq)
           (cudaMemcpy 4107 7000 16 cudaMemcpyHostToDevice)
           {| status := 1; out := 0 |}).
  - vm_compute. do 16 right. left. reflexivity.
  - discriminate.
  - discriminate.
  - discriminate.
Defined.

